(** * SolarHand: the gesture controller

    A shallow embedding of [GestureController] (the gesture classifier and
    the temporal interaction state machine that drives the solar-system
    scene) together with the part of [SolarSystem] that records which
    planet is highlighted, its camera orbit, the hand tracker that feeds the
    controller ([HandTracker], wired in [main.js]) and the keyboard and
    mouse fallback of [UIController].

    Numbers.  JavaScript numbers holding landmark coordinates, distances and
    camera deltas are idealised as real numbers ([R]): rounding, NaN and the
    infinities of IEEE doubles are outside the model, except for the one
    division whose divisor can be zero ([isThumbExtended]), which is written
    out.  Millisecond time stamps ([Date.now()]) are integers ([Z]).

    Effects.  A method of the controller runs in the monad [M]: it reads and
    assigns the fields of [this], reads the clock and the scene, records the
    calls it makes on the scene subsystem and the events it emits, in order,
    and may stop with a [TypeError] (reading a property of [undefined]) with
    the assignments made so far kept, as in JavaScript. *)

From Stdlib Require Import Reals Lra Lia ZArith List String Bool.
Import ListNotations.

Open Scope R_scope.

(** ** Numbers and comparisons *)

(** [a < b] on numbers, as a boolean. *)
Definition Rltb (a b : R) : bool := if Rlt_dec a b then true else false.

(** [a > b] is [b < a]. *)
Definition Rgtb (a b : R) : bool := Rltb b a.

(** ** Landmarks *)

(** One tracked point [{x, y, z}]; [z] may be missing. *)
Record Landmark : Type := mkLandmark {
  pt_x : R;
  pt_y : R;
  pt_z : option R
}.

(** A landmark frame is a JavaScript array of points. *)
Definition Landmarks : Type := list Landmark.

(** Hand landmark indices. *)
Module LANDMARKS.
Definition WRIST : nat := 0.
Definition THUMB_CMC : nat := 1.
Definition THUMB_MCP : nat := 2.
Definition THUMB_IP : nat := 3.
Definition THUMB_TIP : nat := 4.
Definition INDEX_MCP : nat := 5.
Definition INDEX_PIP : nat := 6.
Definition INDEX_DIP : nat := 7.
Definition INDEX_TIP : nat := 8.
Definition MIDDLE_MCP : nat := 9.
Definition MIDDLE_PIP : nat := 10.
Definition MIDDLE_DIP : nat := 11.
Definition MIDDLE_TIP : nat := 12.
Definition RING_MCP : nat := 13.
Definition RING_PIP : nat := 14.
Definition RING_DIP : nat := 15.
Definition RING_TIP : nat := 16.
Definition PINKY_MCP : nat := 17.
Definition PINKY_PIP : nat := 18.
Definition PINKY_DIP : nat := 19.
Definition PINKY_TIP : nat := 20.
End LANDMARKS.

(** [landmarks[i]] followed by a property read: [None] stands for the
    [TypeError] JavaScript raises when the index is out of range (the element
    is [undefined]). *)
Definition at_index (landmarks : Landmarks) (i : nat) : option Landmark :=
  nth_error landmarks i.

Arguments at_index : simpl never.

(** ** Gestures, planets and the values of the controller *)

Inductive Gesture : Type := rotate | pinch | fist | point | palm.

Definition Gesture_eqb (a b : Gesture) : bool :=
  match a, b with
  | rotate, rotate | pinch, pinch | fist, fist | point, point | palm, palm => true
  | _, _ => false
  end.

(** Strict equality between a label and the nullable [currentGesture]. *)
Definition same_gesture (g : Gesture) (cur : option Gesture) : bool :=
  match cur with
  | Some g' => Gesture_eqb g g'
  | None => false
  end.

(** A planet is named by a string; a nullable planet is [option Planet]. *)
Definition Planet : Type := string.

(** JavaScript truthiness of a nullable planet name: [null] and the empty
    string are falsy. *)
Definition truthy (p : option Planet) : bool :=
  match p with
  | Some s => negb (String.eqb s EmptyString)
  | None => false
  end.

(** Strict equality [===] on nullable planet names. *)
Definition Planet_eqb (p q : option Planet) : bool :=
  match p, q with
  | Some a, Some b => String.eqb a b
  | None, None => true
  | _, _ => false
  end.

Record Vec2 : Type := mkVec2 { vx : R; vy : R }.

Record Controller : Type := mkController {
  currentGesture : option Gesture;
  previousGesture : option Gesture;
  gestureStartTime : Z;
  gestureDuration : Z;
  handPosition : Vec2;
  previousHandPosition : Vec2;
  handVelocity : Vec2;
  pinchDistance : R;
  previousPinchDistance : R;
  basePinchDistance : R;
  isPinching : bool;
  hoveredPlanet : option Planet;
  selectedPlanet : option Planet;
  followingPlanet : option Planet;
  hoverStartTime : Z;
  hoverDuration : Z;
  rotationSensitivity : R;
  zoomSensitivity : R
}.

(** Field assignment [this.f = v]: one setter per field the source writes. *)
Definition set_currentGesture (v : option Gesture) (c : Controller) : Controller :=
  mkController v (previousGesture c) (gestureStartTime c) (gestureDuration c)
    (handPosition c) (previousHandPosition c) (handVelocity c)
    (pinchDistance c) (previousPinchDistance c) (basePinchDistance c)
    (isPinching c) (hoveredPlanet c) (selectedPlanet c) (followingPlanet c)
    (hoverStartTime c) (hoverDuration c) (rotationSensitivity c)
    (zoomSensitivity c).
Definition set_previousGesture (v : option Gesture) (c : Controller) : Controller :=
  mkController (currentGesture c) v (gestureStartTime c) (gestureDuration c)
    (handPosition c) (previousHandPosition c) (handVelocity c)
    (pinchDistance c) (previousPinchDistance c) (basePinchDistance c)
    (isPinching c) (hoveredPlanet c) (selectedPlanet c) (followingPlanet c)
    (hoverStartTime c) (hoverDuration c) (rotationSensitivity c)
    (zoomSensitivity c).
Definition set_gestureStartTime (v : Z) (c : Controller) : Controller :=
  mkController (currentGesture c) (previousGesture c) v (gestureDuration c)
    (handPosition c) (previousHandPosition c) (handVelocity c)
    (pinchDistance c) (previousPinchDistance c) (basePinchDistance c)
    (isPinching c) (hoveredPlanet c) (selectedPlanet c) (followingPlanet c)
    (hoverStartTime c) (hoverDuration c) (rotationSensitivity c)
    (zoomSensitivity c).
Definition set_gestureDuration (v : Z) (c : Controller) : Controller :=
  mkController (currentGesture c) (previousGesture c) (gestureStartTime c) v
    (handPosition c) (previousHandPosition c) (handVelocity c)
    (pinchDistance c) (previousPinchDistance c) (basePinchDistance c)
    (isPinching c) (hoveredPlanet c) (selectedPlanet c) (followingPlanet c)
    (hoverStartTime c) (hoverDuration c) (rotationSensitivity c)
    (zoomSensitivity c).
Definition set_handPosition (v : Vec2) (c : Controller) : Controller :=
  mkController (currentGesture c) (previousGesture c) (gestureStartTime c)
    (gestureDuration c) v (previousHandPosition c) (handVelocity c)
    (pinchDistance c) (previousPinchDistance c) (basePinchDistance c)
    (isPinching c) (hoveredPlanet c) (selectedPlanet c) (followingPlanet c)
    (hoverStartTime c) (hoverDuration c) (rotationSensitivity c)
    (zoomSensitivity c).
Definition set_previousHandPosition (v : Vec2) (c : Controller) : Controller :=
  mkController (currentGesture c) (previousGesture c) (gestureStartTime c)
    (gestureDuration c) (handPosition c) v (handVelocity c) (pinchDistance c)
    (previousPinchDistance c) (basePinchDistance c) (isPinching c)
    (hoveredPlanet c) (selectedPlanet c) (followingPlanet c)
    (hoverStartTime c) (hoverDuration c) (rotationSensitivity c)
    (zoomSensitivity c).
Definition set_handVelocity (v : Vec2) (c : Controller) : Controller :=
  mkController (currentGesture c) (previousGesture c) (gestureStartTime c)
    (gestureDuration c) (handPosition c) (previousHandPosition c) v
    (pinchDistance c) (previousPinchDistance c) (basePinchDistance c)
    (isPinching c) (hoveredPlanet c) (selectedPlanet c) (followingPlanet c)
    (hoverStartTime c) (hoverDuration c) (rotationSensitivity c)
    (zoomSensitivity c).
Definition set_pinchDistance (v : R) (c : Controller) : Controller :=
  mkController (currentGesture c) (previousGesture c) (gestureStartTime c)
    (gestureDuration c) (handPosition c) (previousHandPosition c)
    (handVelocity c) v (previousPinchDistance c) (basePinchDistance c)
    (isPinching c) (hoveredPlanet c) (selectedPlanet c) (followingPlanet c)
    (hoverStartTime c) (hoverDuration c) (rotationSensitivity c)
    (zoomSensitivity c).
Definition set_previousPinchDistance (v : R) (c : Controller) : Controller :=
  mkController (currentGesture c) (previousGesture c) (gestureStartTime c)
    (gestureDuration c) (handPosition c) (previousHandPosition c)
    (handVelocity c) (pinchDistance c) v (basePinchDistance c) (isPinching c)
    (hoveredPlanet c) (selectedPlanet c) (followingPlanet c)
    (hoverStartTime c) (hoverDuration c) (rotationSensitivity c)
    (zoomSensitivity c).
Definition set_basePinchDistance (v : R) (c : Controller) : Controller :=
  mkController (currentGesture c) (previousGesture c) (gestureStartTime c)
    (gestureDuration c) (handPosition c) (previousHandPosition c)
    (handVelocity c) (pinchDistance c) (previousPinchDistance c) v
    (isPinching c) (hoveredPlanet c) (selectedPlanet c) (followingPlanet c)
    (hoverStartTime c) (hoverDuration c) (rotationSensitivity c)
    (zoomSensitivity c).
Definition set_isPinching (v : bool) (c : Controller) : Controller :=
  mkController (currentGesture c) (previousGesture c) (gestureStartTime c)
    (gestureDuration c) (handPosition c) (previousHandPosition c)
    (handVelocity c) (pinchDistance c) (previousPinchDistance c)
    (basePinchDistance c) v (hoveredPlanet c) (selectedPlanet c)
    (followingPlanet c) (hoverStartTime c) (hoverDuration c)
    (rotationSensitivity c) (zoomSensitivity c).
Definition set_hoveredPlanet (v : option Planet) (c : Controller) : Controller :=
  mkController (currentGesture c) (previousGesture c) (gestureStartTime c)
    (gestureDuration c) (handPosition c) (previousHandPosition c)
    (handVelocity c) (pinchDistance c) (previousPinchDistance c)
    (basePinchDistance c) (isPinching c) v (selectedPlanet c)
    (followingPlanet c) (hoverStartTime c) (hoverDuration c)
    (rotationSensitivity c) (zoomSensitivity c).
Definition set_selectedPlanet (v : option Planet) (c : Controller) : Controller :=
  mkController (currentGesture c) (previousGesture c) (gestureStartTime c)
    (gestureDuration c) (handPosition c) (previousHandPosition c)
    (handVelocity c) (pinchDistance c) (previousPinchDistance c)
    (basePinchDistance c) (isPinching c) (hoveredPlanet c) v
    (followingPlanet c) (hoverStartTime c) (hoverDuration c)
    (rotationSensitivity c) (zoomSensitivity c).
Definition set_followingPlanet (v : option Planet) (c : Controller) : Controller :=
  mkController (currentGesture c) (previousGesture c) (gestureStartTime c)
    (gestureDuration c) (handPosition c) (previousHandPosition c)
    (handVelocity c) (pinchDistance c) (previousPinchDistance c)
    (basePinchDistance c) (isPinching c) (hoveredPlanet c) (selectedPlanet c)
    v (hoverStartTime c) (hoverDuration c) (rotationSensitivity c)
    (zoomSensitivity c).
Definition set_hoverStartTime (v : Z) (c : Controller) : Controller :=
  mkController (currentGesture c) (previousGesture c) (gestureStartTime c)
    (gestureDuration c) (handPosition c) (previousHandPosition c)
    (handVelocity c) (pinchDistance c) (previousPinchDistance c)
    (basePinchDistance c) (isPinching c) (hoveredPlanet c) (selectedPlanet c)
    (followingPlanet c) v (hoverDuration c) (rotationSensitivity c)
    (zoomSensitivity c).
Definition set_hoverDuration (v : Z) (c : Controller) : Controller :=
  mkController (currentGesture c) (previousGesture c) (gestureStartTime c)
    (gestureDuration c) (handPosition c) (previousHandPosition c)
    (handVelocity c) (pinchDistance c) (previousPinchDistance c)
    (basePinchDistance c) (isPinching c) (hoveredPlanet c) (selectedPlanet c)
    (followingPlanet c) (hoverStartTime c) v (rotationSensitivity c)
    (zoomSensitivity c).

(** The state the constructor sets up. *)
Definition constructor : Controller :=
  {| currentGesture := None;
     previousGesture := None;
     gestureStartTime := 0%Z;
     gestureDuration := 0%Z;
     handPosition := {| vx := 0.5; vy := 0.5 |};
     previousHandPosition := {| vx := 0.5; vy := 0.5 |};
     handVelocity := {| vx := 0; vy := 0 |};
     pinchDistance := 0;
     previousPinchDistance := 0;
     basePinchDistance := 0;
     isPinching := false;
     hoveredPlanet := None;
     selectedPlanet := None;
     followingPlanet := None;
     hoverStartTime := 0%Z;
     hoverDuration := 0%Z;
     rotationSensitivity := 3;
     zoomSensitivity := 100 |}.

(** Gesture thresholds: assigned once by the constructor and never written
    again; only [PINCH_THRESHOLD] is read. *)
Definition PINCH_THRESHOLD : R := 0.08.
Definition FIST_THRESHOLD : R := 0.15.
Definition POINT_THRESHOLD : R := 0.1.
Definition PALM_THRESHOLD : R := 0.15.

(** ** Events and calls on the scene subsystem *)

Inductive Event : Type :=
| gesture (g : Gesture)
| planetSelected (p : option Planet)
| planetFollowing (p : option Planet)
| cameraReset.

(** What a method does to the outside, in the order it does it: the methods
    of [solarSystem] it calls and the events it emits to the subscribers. *)
Inductive Call : Type :=
| adjustRotation (deltaTheta deltaPhi : R)
| adjustZoom (delta : R)
| highlightPlanet (p : option Planet)
| selectPlanet (p : option Planet)
| focusOnPlanet (p : option Planet)
| followPlanet (p : option Planet)
| stopFollowing
| resetView
| emit (e : Event).

(** What a method reads from the outside during one call: the successive
    values of [Date.now()], [solarSystem.cameraOrbit.radius], the window
    size, and the answer of the scene's hit test. *)
Record Env : Type := mkEnv {
  Date_now_at : nat -> Z;
  cameraOrbit_radius : R;
  innerWidth : R;
  innerHeight : R;
  getPlanetAtScreenPosition : R -> R -> option Planet
}.

(** ** The monad of controller methods *)

Record Run : Type := mkRun {
  this : Controller;
  clock_reads : nat;
  calls : list Call
}.

Definition M (A : Type) : Type := Env -> Run -> option A * Run.

Definition ret {A : Type} (a : A) : M A := fun _ r => (Some a, r).

Definition bind {A B : Type} (m : M A) (k : A -> M B) : M B :=
  fun e r =>
    match m e r with
    | (Some a, r') => k a e r'
    | (None, r') => (None, r')
    end.

Declare Scope js_scope.
Delimit Scope js_scope with js.
Notation "x <- m ;; k" := (bind m (fun x => k))
  (at level 61, m at next level, right associativity) : js_scope.
Notation "m ;; k" := (bind m (fun _ => k))
  (at level 61, right associativity) : js_scope.
Open Scope js_scope.

(** A value that may be a [TypeError]. *)
Definition lift {A : Type} (o : option A) : M A := fun _ r => (o, r).

(** Read a field of [this]. *)
Definition get {A : Type} (field : Controller -> A) : M A :=
  fun _ r => (Some (field (this r)), r).

(** Assign a field of [this]. *)
Definition assign {A : Type} (set_field : A -> Controller -> Controller)
    (v : A) : M unit :=
  fun _ r => (Some tt, mkRun (set_field v (this r)) (clock_reads r) (calls r)).

(** Read the outside. *)
Definition ask {A : Type} (f : Env -> A) : M A := fun e r => (Some (f e), r).

(** [Date.now()]: the next reading of the clock. *)
Definition Date_now : M Z :=
  fun e r =>
    (Some (Date_now_at e (clock_reads r)),
     mkRun (this r) (S (clock_reads r)) (calls r)).

(** Call a method of [solarSystem], or emit an event. *)
Definition call (c : Call) : M unit :=
  fun _ r => (Some tt, mkRun (this r) (clock_reads r) (calls r ++ [c])).

(** The outcome of a method called on a controller: what it returned
    ([None] when it raised), the controller afterwards, and the calls it
    made, in order. *)
Record Outcome (A : Type) : Type := mkOutcome {
  returned : option A;
  after : Controller;
  issued : list Call
}.

Arguments mkOutcome {A}.
Arguments returned {A}.
Arguments after {A}.
Arguments issued {A}.

Definition exec {A : Type} (m : M A) (e : Env) (c : Controller) : Outcome A :=
  let out := m e (mkRun c 0 []) in
  mkOutcome (fst out) (this (snd out)) (calls (snd out)).

(** ** Geometry *)

(** [p.z || 0] *)
Definition z_or_0 (p : Landmark) : R :=
  match pt_z p with
  | Some z => z
  | None => 0
  end.

Definition distance (p1 p2 : Landmark) : R :=
  let dx := pt_x p1 - pt_x p2 in
  let dy := pt_y p1 - pt_y p2 in
  let dz := z_or_0 p1 - z_or_0 p2 in
  sqrt (dx * dx + dy * dy + dz * dz).

Definition getPalmCenter (landmarks : Landmarks) : option Vec2 :=
  match at_index landmarks LANDMARKS.WRIST,
        at_index landmarks LANDMARKS.INDEX_MCP,
        at_index landmarks LANDMARKS.PINKY_MCP with
  | Some wrist, Some indexMcp, Some pinkyMcp =>
      Some {| vx := (pt_x wrist + pt_x indexMcp + pt_x pinkyMcp) / 3;
              vy := (pt_y wrist + pt_y indexMcp + pt_y pinkyMcp) / 3 |}
  | _, _, _ => None
  end.

(** [tipToIp > 0.03 && tipToIp / ipToMcp > 0.5].  When [ipToMcp] is zero the
    quotient of a positive [tipToIp] is [+Infinity], which exceeds 0.5. *)
Definition isThumbExtended (landmarks : Landmarks) : option bool :=
  match at_index landmarks LANDMARKS.THUMB_TIP,
        at_index landmarks LANDMARKS.THUMB_IP,
        at_index landmarks LANDMARKS.THUMB_MCP with
  | Some thumbTip, Some thumbIp, Some thumbMcp =>
      let tipToIp := distance thumbTip thumbIp in
      let ipToMcp := distance thumbIp thumbMcp in
      Some (Rgtb tipToIp 0.03 &&
            (if Req_dec_T ipToMcp 0 then true
             else Rgtb (tipToIp / ipToMcp) 0.5))
  | _, _, _ => None
  end.

Inductive Finger : Type := index | middle | ring | pinky.

Record FingerIndices : Type := mkFingerIndices { tip : nat; pip : nat; mcp : nat }.

Definition fingerMap (finger : Finger) : FingerIndices :=
  match finger with
  | index => mkFingerIndices LANDMARKS.INDEX_TIP LANDMARKS.INDEX_PIP LANDMARKS.INDEX_MCP
  | middle => mkFingerIndices LANDMARKS.MIDDLE_TIP LANDMARKS.MIDDLE_PIP LANDMARKS.MIDDLE_MCP
  | ring => mkFingerIndices LANDMARKS.RING_TIP LANDMARKS.RING_PIP LANDMARKS.RING_MCP
  | pinky => mkFingerIndices LANDMARKS.PINKY_TIP LANDMARKS.PINKY_PIP LANDMARKS.PINKY_MCP
  end.

(** The finger is extended when its tip is above its middle joint by more
    than 0.02.  The [mcp] element is fetched but none of its properties is
    read, so it cannot raise. *)
Definition isFingerExtended (landmarks : Landmarks) (finger : Finger)
    : option bool :=
  let indices := fingerMap finger in
  match at_index landmarks (tip indices), at_index landmarks (pip indices) with
  | Some tip, Some pip =>
      let tipY := pt_y tip in
      let pipY := pt_y pip in
      Some (Rltb tipY (pipY - 0.02))
  | _, _ => None
  end.

(** ** The gesture classifier *)

Definition detectGesture (landmarks : Landmarks) : M Gesture :=
  thumbExtended <- lift (isThumbExtended landmarks) ;;
  indexExtended <- lift (isFingerExtended landmarks index) ;;
  middleExtended <- lift (isFingerExtended landmarks middle) ;;
  ringExtended <- lift (isFingerExtended landmarks ring) ;;
  pinkyExtended <- lift (isFingerExtended landmarks pinky) ;;
  thumbTip <- lift (at_index landmarks LANDMARKS.THUMB_TIP) ;;
  indexTip <- lift (at_index landmarks LANDMARKS.INDEX_TIP) ;;
  old <- get pinchDistance ;;
  assign set_previousPinchDistance old ;;
  assign set_pinchDistance (distance thumbTip indexTip) ;;
  d <- get pinchDistance ;;
  if Rltb d PINCH_THRESHOLD then
    pinching <- get isPinching ;;
    (if negb pinching then
       assign set_isPinching true ;;
       radius <- ask cameraOrbit_radius ;;
       assign set_basePinchDistance radius
     else ret tt) ;;
    ret pinch
  else
    assign set_isPinching false ;;
    if negb thumbExtended && negb indexExtended && negb middleExtended
       && negb ringExtended && negb pinkyExtended then ret fist
    else if indexExtended && negb middleExtended && negb ringExtended
            && negb pinkyExtended then ret point
    else if thumbExtended && indexExtended && middleExtended
            && ringExtended && pinkyExtended then ret palm
    else ret rotate.

(** ** Gesture handlers *)

Definition handleRotation : M unit :=
  v <- get handVelocity ;;
  rs <- get rotationSensitivity ;;
  let deltaTheta := vx v * rs in
  let deltaPhi := vy v * rs in
  call (adjustRotation (- deltaTheta) deltaPhi).

Definition handlePinch (landmarks : Landmarks) : M unit :=
  thumbTip <- lift (at_index landmarks LANDMARKS.THUMB_TIP) ;;
  indexTip <- lift (at_index landmarks LANDMARKS.INDEX_TIP) ;;
  let currentDistance := distance thumbTip indexTip in
  previous <- get previousPinchDistance ;;
  let deltaDistance := currentDistance - previous in
  zs <- get zoomSensitivity ;;
  call (adjustZoom (- deltaDistance * zs)).

Definition handlePoint (landmarks : Landmarks) : M unit :=
  indexTip <- lift (at_index landmarks LANDMARKS.INDEX_TIP) ;;
  w <- ask innerWidth ;;
  h <- ask innerHeight ;;
  let screenX := (1 - pt_x indexTip) * w in
  let screenY := pt_y indexTip * h in
  hit <- ask getPlanetAtScreenPosition ;;
  let planet := hit screenX screenY in
  if truthy planet then
    hovered <- get hoveredPlanet ;;
    (if negb (Planet_eqb hovered planet) then
       assign set_hoveredPlanet planet ;;
       now <- Date_now ;;
       assign set_hoverStartTime now ;;
       call (highlightPlanet planet)
     else ret tt) ;;
    now <- Date_now ;;
    start <- get hoverStartTime ;;
    assign set_hoverDuration (now - start)%Z ;;
    duration <- get hoverDuration ;;
    selected <- get selectedPlanet ;;
    if (1500 <? duration)%Z && negb (Planet_eqb selected planet) then
      assign set_selectedPlanet planet ;;
      call (selectPlanet planet) ;;
      call (focusOnPlanet planet) ;;
      call (emit (planetSelected planet))
    else ret tt
  else
    hovered <- get hoveredPlanet ;;
    if truthy hovered then
      call (highlightPlanet None) ;;
      assign set_hoveredPlanet None
    else ret tt.

Definition handleFist : M unit :=
  duration <- get gestureDuration ;;
  if (500 <? duration)%Z && (duration <? 700)%Z then
    selected <- get selectedPlanet ;;
    if truthy selected then
      following <- get followingPlanet ;;
      if Planet_eqb following selected then
        assign set_followingPlanet None ;;
        call stopFollowing ;;
        call (emit (planetFollowing None))
      else
        assign set_followingPlanet selected ;;
        call (followPlanet selected) ;;
        call (emit (planetFollowing selected))
    else ret tt
  else ret tt.

Definition handlePalm : M unit :=
  duration <- get gestureDuration ;;
  if (1000 <? duration)%Z && (duration <? 1200)%Z then
    call resetView ;;
    assign set_selectedPlanet None ;;
    assign set_followingPlanet None ;;
    call (emit cameraReset) ;;
    call (emit (planetFollowing None))
  else ret tt.

Definition handleGesture (landmarks : Landmarks) (g : Gesture) : M unit :=
  match g with
  | rotate => handleRotation
  | pinch => handlePinch landmarks
  | point => handlePoint landmarks
  | fist => handleFist
  | palm => handlePalm
  end.

(** ** The frame entry point

    [None] is a null or missing [landmarks] argument.  Every label is a
    non-empty string, so the guard [if (gesture)] before the emission of the
    gesture event always passes. *)
Definition processHand (landmarks : option Landmarks) : M unit :=
  match landmarks with
  | None => ret tt
  | Some landmarks =>
      position <- get handPosition ;;
      assign set_previousHandPosition position ;;
      center <- lift (getPalmCenter landmarks) ;;
      assign set_handPosition center ;;
      position <- get handPosition ;;
      previous <- get previousHandPosition ;;
      assign set_handVelocity
        {| vx := vx position - vx previous; vy := vy position - vy previous |} ;;
      g <- detectGesture landmarks ;;
      current <- get currentGesture ;;
      (if negb (same_gesture g current) then
         assign set_previousGesture current ;;
         assign set_currentGesture (Some g) ;;
         now <- Date_now ;;
         assign set_gestureStartTime now ;;
         call (emit (gesture g))
       else ret tt) ;;
      now <- Date_now ;;
      start <- get gestureStartTime ;;
      assign set_gestureDuration (now - start)%Z ;;
      handleGesture landmarks g
  end.

Definition onHandLost : M unit :=
  assign set_currentGesture None ;;
  assign set_isPinching false ;;
  hovered <- get hoveredPlanet ;;
  if truthy hovered then
    call (highlightPlanet None) ;;
    assign set_hoveredPlanet None
  else ret tt.

Definition update : M unit := ret tt.

(** ** Manual controls (fallback) *)

Definition manualRotate (deltaTheta deltaPhi : R) : M unit :=
  call (adjustRotation deltaTheta deltaPhi).

Definition manualZoom (delta : R) : M unit :=
  call (adjustZoom delta).

Definition manualSelectPlanet (planetName : option Planet) : M unit :=
  assign set_selectedPlanet planetName ;;
  call (selectPlanet planetName) ;;
  call (focusOnPlanet planetName) ;;
  call (emit (planetSelected planetName)).

Definition manualFollowPlanet (planetName : option Planet) : M unit :=
  assign set_followingPlanet planetName ;;
  call (followPlanet planetName) ;;
  call (emit (planetFollowing planetName)).

Definition manualReset : M unit :=
  call resetView ;;
  assign set_selectedPlanet None ;;
  assign set_followingPlanet None ;;
  call (emit cameraReset) ;;
  call (emit (planetFollowing None)).

(** ** The highlight kept by the scene subsystem ([SolarSystem])

    [planets] tells which names the scene's registry holds, [hovered] is the
    scene's [hoveredPlanet] (the planet whose mesh is drawn enlarged) and
    [selected] its [selectedPlanet].  The camera orbit is not modelled. *)
Module SolarSystem.

Record Scene : Type := mkScene {
  planets : Planet -> bool;
  hovered : option Planet;
  selected : option Planet
}.

(** [planetName && this.planets[planetName]] *)
Definition registered (s : Scene) (planetName : option Planet) : bool :=
  match planetName with
  | Some name => truthy planetName && planets s name
  | None => false
  end.

(** The scene's [highlightPlanet(planetName)]. *)
Definition onHighlightPlanet (planetName : option Planet) (s : Scene) : Scene :=
  if registered s planetName then mkScene (planets s) planetName (selected s)
  else mkScene (planets s) None (selected s).

(** The scene's [selectPlanet(planetName)]. *)
Definition onSelectPlanet (planetName : option Planet) (s : Scene) : Scene :=
  onHighlightPlanet planetName (mkScene (planets s) (hovered s) planetName).

(** The effect of one call on the highlight and the selection of the scene:
    no other method of the scene writes them, and the subscribers of the
    controller's events (the user interface) do not call the scene. *)
Definition perform (c : Call) (s : Scene) : Scene :=
  match c with
  | highlightPlanet p => onHighlightPlanet p s
  | selectPlanet p => onSelectPlanet p s
  | _ => s
  end.

Definition performAll (cs : list Call) (s : Scene) : Scene :=
  fold_left (fun s c => perform c s) cs s.

End SolarSystem.

(** ** The classifier as the specification words it

    The label decided from the thumb-tip/index-tip distance and the five
    finger states, in the fixed priority order pinch, fist, point, palm,
    rotate. *)
Definition classify_by_priority (pinchDist : R)
    (thumbExtended indexExtended middleExtended ringExtended pinkyExtended : bool)
    : Gesture :=
  if Rltb pinchDist 0.08 then pinch
  else if negb (thumbExtended || indexExtended || middleExtended
                || ringExtended || pinkyExtended) then fist
  else if indexExtended
          && negb (middleExtended || ringExtended || pinkyExtended) then point
  else if thumbExtended && indexExtended && middleExtended
          && ringExtended && pinkyExtended then palm
  else rotate.

(** The thumb-tip/index-tip distance of a frame. *)
Definition pinchReading (landmarks : Landmarks) : option R :=
  match at_index landmarks LANDMARKS.THUMB_TIP,
        at_index landmarks LANDMARKS.INDEX_TIP with
  | Some thumbTip, Some indexTip => Some (distance thumbTip indexTip)
  | _, _ => None
  end.

(** The label of a frame, read off its measurements; [None] when a
    measurement raises. *)
Definition label (landmarks : Landmarks) : option Gesture :=
  match isThumbExtended landmarks,
        isFingerExtended landmarks index, isFingerExtended landmarks middle,
        isFingerExtended landmarks ring, isFingerExtended landmarks pinky,
        pinchReading landmarks with
  | Some t, Some i, Some m, Some r, Some p, Some d =>
      Some (classify_by_priority d t i m r p)
  | _, _, _, _, _, _ => None
  end.

(** A frame of the landmark producer: 21 points. *)
Definition wellFormed (landmarks : Landmarks) : Prop :=
  List.length landmarks = 21%nat.

(** ** The frame entry point, step by step

    The controller at the points [processHand] goes through, written as
    functions of the readings of the frame.  They restate nothing of the
    source by themselves: [detectGesture_run] and [processHand_run] prove
    that the methods above reach exactly these states. *)

(** What one evaluation of the classifier leaves in the controller. *)
Definition afterDetect (e : Env) (d : R) (c : Controller) : Controller :=
  let c1 := set_pinchDistance d (set_previousPinchDistance (pinchDistance c) c) in
  if Rltb d PINCH_THRESHOLD then
    if negb (isPinching c) then
      set_basePinchDistance (cameraOrbit_radius e) (set_isPinching true c1)
    else c1
  else set_isPinching false c1.

(** The hand position and velocity after the palm centre is read. *)
Definition tracked (center : Vec2) (c : Controller) : Controller :=
  set_handVelocity
    {| vx := vx center - vx (handPosition c);
       vy := vy center - vy (handPosition c) |}
    (set_handPosition center (set_previousHandPosition (handPosition c) c)).

(** The gesture clock: a changed label restarts it and is announced. *)
Definition timed (e : Env) (g : Gesture) (c : Controller) : Run :=
  if same_gesture g (currentGesture c) then
    mkRun (set_gestureDuration (Date_now_at e 0 - gestureStartTime c)%Z c) 1 []
  else
    mkRun
      (set_gestureDuration (Date_now_at e 1 - Date_now_at e 0)%Z
         (set_gestureStartTime (Date_now_at e 0)
            (set_currentGesture (Some g)
               (set_previousGesture (currentGesture c) c))))
      2 [emit (gesture g)].

(** The controller and the calls made when [processHand] reaches
    [handleGesture], for a frame whose palm centre is [center], whose
    thumb-tip/index-tip distance is [d] and whose label is [g]. *)
Definition beforeHandle (e : Env) (center : Vec2) (d : R) (g : Gesture)
    (c : Controller) : Run :=
  timed e g (afterDetect e d (tracked center c)).

(** ** Reading the calls of an outcome *)

Definition zoomIssued (cs : list Call) : list R :=
  flat_map (fun c => match c with adjustZoom delta => [delta] | _ => [] end) cs.

Definition planetSelectedEmitted (cs : list Call) : list (option Planet) :=
  flat_map (fun c => match c with emit (planetSelected p) => [p] | _ => [] end) cs.

(** The calls that reach the scene subsystem (everything but the events). *)
Definition sceneCalls (cs : list Call) : list Call :=
  filter (fun c => match c with emit _ => false | _ => true end) cs.

(** ** Sample frames

    A hand whose palm points (wrist, index base, pinky base) sit at
    [(palmX, palmY)] and whose other points sit on the vertical axis, the
    joints at height 0 and the thumb joint and the five tips at the given
    heights ([y] grows downwards). *)
Definition on_axis (y : R) : Landmark := mkLandmark 0 y None.

Definition hand (palmX palmY thumbIp thumbTip indexTip middleTip ringTip pinkyTip : R)
    : Landmarks :=
  [ mkLandmark palmX palmY None; on_axis 0; on_axis 0; on_axis thumbIp;
    on_axis thumbTip;
    mkLandmark palmX palmY None; on_axis 0; on_axis 0; on_axis indexTip;
    on_axis 0; on_axis 0; on_axis 0; on_axis middleTip;
    on_axis 0; on_axis 0; on_axis 0; on_axis ringTip;
    mkLandmark palmX palmY None; on_axis 0; on_axis 0; on_axis pinkyTip ].

(** Thumb tip [d] away from the index tip, every finger folded. *)
Definition pinchHand (d : R) : Landmarks := hand 0 0 0 d 0 0 0 0.

(** Thumb folded and away from the index tip, four fingers folded. *)
Definition fistHand : Landmarks := hand 0 0 0.1 0.1 0 0 0 0.

(** As [fistHand], the index finger raised. *)
Definition pointHand : Landmarks := hand 0 0 0.1 0.1 (-0.1) 0 0 0.

(** Index and middle fingers raised: no named pose. *)
Definition twoFingerHand (palmX palmY : R) : Landmarks :=
  hand palmX palmY 0.1 0.1 (-0.1) (-0.1) 0 0.

(** An outside where the clock always reads [now], the camera is at its
    default radius and the hit test answers [hit]. *)
Definition still (now : Z) (hit : option Planet) : Env :=
  {| Date_now_at := fun _ => now;
     cameraOrbit_radius := 80;
     innerWidth := 1920;
     innerHeight := 1080;
     getPlanetAtScreenPosition := fun _ _ => hit |}.

(** ** Sequences of calls on the controller *)

(** The public operations, with their arguments. *)
Inductive Op : Type :=
| processHandOp (landmarks : option Landmarks)
| onHandLostOp
| updateOp
| manualRotateOp (deltaTheta deltaPhi : R)
| manualZoomOp (delta : R)
| manualSelectPlanetOp (planetName : option Planet)
| manualFollowPlanetOp (planetName : option Planet)
| manualResetOp.

Definition method (op : Op) : M unit :=
  match op with
  | processHandOp landmarks => processHand landmarks
  | onHandLostOp => onHandLost
  | updateOp => update
  | manualRotateOp deltaTheta deltaPhi => manualRotate deltaTheta deltaPhi
  | manualZoomOp delta => manualZoom delta
  | manualSelectPlanetOp planetName => manualSelectPlanet planetName
  | manualFollowPlanetOp planetName => manualFollowPlanet planetName
  | manualResetOp => manualReset
  end.

(** One operation, called when the outside is [fst x]. *)
Definition step (c : Controller) (x : Env * Op) : Controller :=
  after (exec (method (snd x)) (fst x) c).

(** The controllers a sequence of operations goes through, the first one
    included. *)
Fixpoint visited (xs : list (Env * Op)) (c : Controller) : list Controller :=
  c :: match xs with
       | [] => []
       | x :: xs' => visited xs' (step c x)
       end.

Definition isManualFollow (op : Op) : bool :=
  match op with
  | manualFollowPlanetOp _ => true
  | _ => false
  end.

(** The outcomes of a sequence of frames, each processed on the controller
    the one before left. *)
Fixpoint processFrames (frames : list (Env * Landmarks)) (c : Controller)
    : list (Outcome unit) :=
  match frames with
  | [] => []
  | (e, landmarks) :: frames' =>
      let o := exec (processHand (Some landmarks)) e c in
      o :: processFrames frames' (after o)
  end.

(** What the scene's hit test answers under the index tip of a frame. *)
Definition pointedPlanet (e : Env) (landmarks : Landmarks)
    : option (option Planet) :=
  match at_index landmarks LANDMARKS.INDEX_TIP with
  | Some indexTip =>
      Some (getPlanetAtScreenPosition e
              ((1 - pt_x indexTip) * innerWidth e)
              (pt_y indexTip * innerHeight e))
  | None => None
  end.

(** A frame classified as point whose index tip is over the planet [p]. *)
Definition pointsAt (p : Planet) (f : Env * Landmarks) : Prop :=
  wellFormed (snd f) /\
  label (snd f) = Some point /\
  pointedPlanet (fst f) (snd f) = Some (Some p).

(** ** The follow toggle as the specification words it

    One toggle of [following] against the selected planet: cleared when it
    equals the selected planet, set to the selected planet otherwise, left
    alone when nothing is selected. *)
Definition toggledOnce (c : Controller) : option Planet :=
  if truthy (selectedPlanet c) then
    if Planet_eqb (followingPlanet c) (selectedPlanet c) then None
    else selectedPlanet c
  else followingPlanet c.

(** The hover target is null or a planet name (never a falsy string): an
    invariant of the controller. *)
Definition hoverTargetOk (c : Controller) : Prop :=
  hoveredPlanet c = None \/ truthy (hoveredPlanet c) = true.

(** ** Sample runs *)

(** The finger held over Earth: a first frame, and one two seconds later. *)
Definition dwellFrames : list (Env * Landmarks) :=
  [ (still 0 (Some "earth"%string), pointHand);
    (still 2000 (Some "earth"%string), pointHand) ].

(** Earth chosen from the planet bar. *)
Definition earthSelected : Controller :=
  step constructor (still 0 None, manualSelectPlanetOp (Some "earth"%string)).

(** A fist held from time 1000 on and sampled every 80 ms (12.5 frames per
    second), until 720 ms into the hold. *)
Definition fistHold : list (Env * Landmarks) :=
  map (fun t => (still t None, fistHand))
    [1000; 1080; 1160; 1240; 1320; 1400; 1480; 1560; 1640; 1720]%Z.

(** The gesture duration and the following planet after each frame of a fist
    hold that started at [start], the frames read at the times [ts]: the
    window is looked at on every frame. *)
Fixpoint holdTrace (start : Z) (selected following : option Planet)
    (ts : list Z) : list (Z * option Planet) :=
  match ts with
  | [] => []
  | t :: ts' =>
      let duration := (t - start)%Z in
      let following' :=
        if ((500 <? duration)%Z && (duration <? 700)%Z)%bool then
          if truthy selected then
            if Planet_eqb following selected then None else selected
          else following
        else following in
      (duration, following') :: holdTrace start selected following' ts'
  end.

(** ** More readings of a run of frames *)

(** The controller a sequence of frames ends in. *)
Definition framesEnd (frames : list (Env * Landmarks)) (c : Controller)
    : Controller :=
  fold_left (fun c f => after (exec (processHand (Some (snd f))) (fst f) c))
    frames c.

(** The labels carried by the gesture events of a list of calls. *)
Definition gestureEmitted (cs : list Call) : list Gesture :=
  flat_map (fun c => match c with emit (gesture g) => [g] | _ => [] end) cs.

(** The labels of a sequence that differ from the label before them, the
    first one compared with [current]. *)
Fixpoint labelChanges (current : option Gesture) (labels : list Gesture)
    : list Gesture :=
  match labels with
  | [] => []
  | g :: labels' =>
      (if same_gesture g current then [] else [g])
      ++ labelChanges (Some g) labels'
  end.




(** A frame whose label is known and is not point. *)
Definition otherThanPoint (f : Env * Landmarks) : Prop :=
  wellFormed (snd f) /\
  exists g, label (snd f) = Some g /\ g <> point.

(** Thumb stretched out and four fingers raised: the open palm. *)
Definition palmHand : Landmarks := hand 0 0 0.1 0.2 (-0.1) (-0.1) (-0.1) (-0.1).

(** The controller after one frame pointing at Earth at time 0. *)
Definition hoveringEarth : Controller :=
  after (exec (processHand (Some pointHand)) (still 0 (Some "earth"%string))
           constructor).


(** ** The event system of the controller ([on], [off], [emit])

    [this.callbacks] is an object with one array of subscribers for each of
    the four events; its own keys never change.  A subscriber is a function
    compared by identity, here a number.  Looking up a name that is not an
    own key goes to [Object.prototype]: the names it defines give a truthy
    value that is no array, every other name gives [undefined]. *)
Module EventBus.

Definition Callback : Type := nat.

Record Callbacks : Type := mkCallbacks {
  on_gesture : list Callback;
  on_planetSelected : list Callback;
  on_planetFollowing : list Callback;
  on_cameraReset : list Callback
}.

(** [this.callbacks] as the constructor builds it. *)
Definition empty : Callbacks := mkCallbacks [] [] [] [].

(** The property names every object inherits from [Object.prototype]. *)
Definition Object_prototype : list string :=
  [ "constructor"; "__defineGetter__"; "__defineSetter__"; "hasOwnProperty";
    "__lookupGetter__"; "__lookupSetter__"; "isPrototypeOf";
    "propertyIsEnumerable"; "toString"; "valueOf"; "__proto__";
    "toLocaleString" ]%string.

(** The value of [this.callbacks[event]]. *)
Inductive Slot : Type :=
| subscribers (l : list Callback)
| inherited
| undefined.

Definition slot (event : string) (cbs : Callbacks) : Slot :=
  if String.eqb event "gesture" then subscribers (on_gesture cbs)
  else if String.eqb event "planetSelected" then subscribers (on_planetSelected cbs)
  else if String.eqb event "planetFollowing" then subscribers (on_planetFollowing cbs)
  else if String.eqb event "cameraReset" then subscribers (on_cameraReset cbs)
  else if existsb (String.eqb event) Object_prototype then inherited
  else undefined.

(** The array of [event] replaced by [l] (the arrays are mutated in place;
    a name that is no own key has no array). *)
Definition store (event : string) (l : list Callback) (cbs : Callbacks)
    : Callbacks :=
  if String.eqb event "gesture" then
    mkCallbacks l (on_planetSelected cbs) (on_planetFollowing cbs) (on_cameraReset cbs)
  else if String.eqb event "planetSelected" then
    mkCallbacks (on_gesture cbs) l (on_planetFollowing cbs) (on_cameraReset cbs)
  else if String.eqb event "planetFollowing" then
    mkCallbacks (on_gesture cbs) (on_planetSelected cbs) l (on_cameraReset cbs)
  else if String.eqb event "cameraReset" then
    mkCallbacks (on_gesture cbs) (on_planetSelected cbs) (on_planetFollowing cbs) l
  else cbs.

(** [l.indexOf(callback)] then [l.splice(index, 1)] when it is found: the
    first occurrence goes. *)
Fixpoint removeFirst (callback : Callback) (l : list Callback) : list Callback :=
  match l with
  | [] => []
  | x :: l' => if Nat.eqb x callback then l' else x :: removeFirst callback l'
  end.

(** The three methods; [None] is the [TypeError] raised when the value
    looked up is truthy and has no [push], [indexOf] or [forEach]. *)
Definition on (event : string) (callback : Callback) (cbs : Callbacks)
    : option Callbacks :=
  match slot event cbs with
  | subscribers l => Some (store event (l ++ [callback]) cbs)
  | inherited => None
  | undefined => Some cbs
  end.

Definition off (event : string) (callback : Callback) (cbs : Callbacks)
    : option Callbacks :=
  match slot event cbs with
  | subscribers l => Some (store event (removeFirst callback l) cbs)
  | inherited => None
  | undefined => Some cbs
  end.

(** [emit(event, data)]: the subscribers called with [data], in the order
    [forEach] calls them (subscribers that return and leave the arrays
    alone). *)
Definition emit (event : string) (cbs : Callbacks) : option (list Callback) :=
  match slot event cbs with
  | subscribers l => Some l
  | inherited => None
  | undefined => Some []
  end.

(** [on] then [off] of the same subscriber. *)
Definition onThenOff (event : string) (callback : Callback) (cbs : Callbacks)
    : option Callbacks :=
  match on event callback cbs with
  | Some cbs' => off event callback cbs'
  | None => None
  end.

End EventBus.

(** ** The camera of the scene subsystem ([SolarSystem])

    The orbit the camera is on and the orbit it glides to, the planet it
    follows, and the methods of [SolarSystem] that write them: the methods
    the controller calls, and the smoothing step of the render loop. *)
Module Camera.

Record CameraOrbit : Type := mkCameraOrbit {
  radius : R;
  theta : R;
  phi : R;
  targetRadius : R;
  targetTheta : R;
  targetPhi : R
}.

(** The two numbers of a planet's data the camera reads. *)
Record PlanetData : Type := mkPlanetData {
  data_size : R;
  data_distance : R
}.

(** [PLANET_DATA], a planet's [size] and [distance] only. *)
Definition PLANET_DATA : list (string * PlanetData) :=
  [ ("sun", mkPlanetData 5 0);
    ("mercury", mkPlanetData 0.4 10);
    ("venus", mkPlanetData 0.9 14);
    ("earth", mkPlanetData 1 18);
    ("mars", mkPlanetData 0.5 24);
    ("jupiter", mkPlanetData 3 38);
    ("saturn", mkPlanetData 2.5 52);
    ("uranus", mkPlanetData 1.8 66);
    ("neptune", mkPlanetData 1.7 78) ]%string.

(** The value of [this.planets[planetName]]: [createPlanets] makes one
    entry for each key of [PLANET_DATA]; [null] is looked up as the key
    "null"; a name [Object.prototype] defines gives a truthy value without
    [data] or [mesh]. *)
Inductive Entry : Type :=
| planetEntry (data : PlanetData)
| inheritedEntry
| noEntry.

Definition key (planetName : option Planet) : string :=
  match planetName with
  | Some name => name
  | None => "null"%string
  end.

Fixpoint dataOf (name : string) (table : list (string * PlanetData))
    : option PlanetData :=
  match table with
  | [] => None
  | (k, d) :: table' => if String.eqb name k then Some d else dataOf name table'
  end.

Definition lookup (planetName : option Planet) : Entry :=
  match dataOf (key planetName) PLANET_DATA with
  | Some d => planetEntry d
  | None =>
      if existsb (String.eqb (key planetName)) EventBus.Object_prototype
      then inheritedEntry else noEntry
  end.

(** A name that is a key of [PLANET_DATA]. *)
Definition registered (planetName : option Planet) : bool :=
  match planetName with
  | Some name => match dataOf name PLANET_DATA with Some _ => true | None => false end
  | None => false
  end.

(** The camera state: the orbit, the planet followed, and for each planet
    the angle [Math.atan2(pos.z, pos.x)] of its mesh, which the render loop
    moves and [focusOnPlanet] reads. *)
Record View : Type := mkView {
  cameraOrbit : CameraOrbit;
  followingPlanet : option Planet;
  azimuth : string -> R
}.

(** The view the constructor sets up. *)
Definition initial (angles : string -> R) : View :=
  mkView (mkCameraOrbit 80 0 (PI / 6) 80 0 (PI / 6)) None angles.

Definition withTargetRadius (r : R) (o : CameraOrbit) : CameraOrbit :=
  mkCameraOrbit (radius o) (theta o) (phi o) r (targetTheta o) (targetPhi o).

Definition withTargetAngles (t p : R) (o : CameraOrbit) : CameraOrbit :=
  mkCameraOrbit (radius o) (theta o) (phi o) (targetRadius o) t p.

(** [Math.max(lo, Math.min(hi, x))] *)
Definition clamp (lo hi x : R) : R := Rmax lo (Rmin hi x).

Definition setRotation (t p : R) (v : View) : View :=
  mkView (withTargetAngles t (clamp 0.1 (PI - 0.1) p) (cameraOrbit v))
    (followingPlanet v) (azimuth v).

Definition setZoom (r : R) (v : View) : View :=
  mkView (withTargetRadius (clamp 20 200 r) (cameraOrbit v))
    (followingPlanet v) (azimuth v).

Definition adjustRotation (deltaTheta deltaPhi : R) (v : View) : View :=
  let o := cameraOrbit v in
  mkView (withTargetAngles (targetTheta o + deltaTheta)
            (clamp 0.1 (PI - 0.1) (targetPhi o + deltaPhi)) o)
    (followingPlanet v) (azimuth v).

Definition adjustZoom (delta : R) (v : View) : View :=
  let o := cameraOrbit v in
  mkView (withTargetRadius (clamp 20 200 (targetRadius o + delta)) o)
    (followingPlanet v) (azimuth v).

(** [followPlanet] and [focusOnPlanet] read [data] or [mesh] of the entry:
    [None] is the [TypeError] on an inherited name. *)
Definition followPlanet (planetName : option Planet) (v : View) : option View :=
  match lookup planetName with
  | planetEntry d =>
      Some (mkView (withTargetRadius (data_size d * 8) (cameraOrbit v))
              planetName (azimuth v))
  | inheritedEntry => None
  | noEntry => Some v
  end.

Definition stopFollowing (v : View) : View :=
  mkView (withTargetRadius 80 (cameraOrbit v)) None (azimuth v).

Definition resetView (v : View) : View :=
  mkView (withTargetRadius 80 (withTargetAngles 0 (PI / 6) (cameraOrbit v)))
    None (azimuth v).

Definition focusOnPlanet (planetName : option Planet) (v : View) : option View :=
  match lookup planetName with
  | planetEntry d =>
      let o := cameraOrbit v in
      Some (mkView
              (withTargetRadius (data_distance d + data_size d * 5)
                 (withTargetAngles (azimuth v (key planetName)) (targetPhi o) o))
              (followingPlanet v) (azimuth v))
  | inheritedEntry => None
  | noEntry => Some v
  end.

(** The camera part of [update]: each coordinate moves 5% of the way to its
    target. *)
Definition smoothing : R := 0.05.

Definition update (v : View) : View :=
  let o := cameraOrbit v in
  mkView
    (mkCameraOrbit
       (radius o + (targetRadius o - radius o) * smoothing)
       (theta o + (targetTheta o - theta o) * smoothing)
       (phi o + (targetPhi o - phi o) * smoothing)
       (targetRadius o) (targetTheta o) (targetPhi o))
    (followingPlanet v) (azimuth v).

Fixpoint updates (n : nat) (v : View) : View :=
  match n with
  | O => v
  | S n' => updates n' (update v)
  end.

(** [highlightPlanet] scales the mesh of the entry: it raises on a truthy
    inherited name and writes nothing of the camera. *)
Definition highlightRaises (planetName : option Planet) : bool :=
  truthy planetName
  && match lookup planetName with inheritedEntry => true | _ => false end.




(** [Math.floor], [Math.round] (halves go up) and the remainder [%] of
    numbers (the quotient is truncated towards zero), on real numbers. *)
Definition Math_floor (x : R) : Z := (up x - 1)%Z.

Definition Math_round (x : R) : Z := Math_floor (x + 1 / 2).

Definition Math_trunc (x : R) : Z :=
  if Rle_dec 0 x then Math_floor x else (- Math_floor (- x))%Z.

Definition remainder (x m : R) : R := x - m * IZR (Math_trunc (x / m)).

Record CameraInfo : Type := mkCameraInfo {
  info_rotation : Z;
  info_elevation : Z;
  info_zoom : Z
}.

Definition getCameraInfo (v : View) : CameraInfo :=
  let o := cameraOrbit v in
  mkCameraInfo
    (Math_round (remainder (theta o * 180 / PI) 360))
    (Math_round (90 - phi o * 180 / PI))
    (Math_round ((1 - (radius o - 20) / 180) * 100)).

End Camera.

(** What one call of the controller does to the camera; [None] when the
    method of the scene raises. *)
Definition cameraPerform (c : Call) (v : Camera.View) : option Camera.View :=
  match c with
  | adjustRotation deltaTheta deltaPhi =>
      Some (Camera.adjustRotation deltaTheta deltaPhi v)
  | adjustZoom delta => Some (Camera.adjustZoom delta v)
  | highlightPlanet p => if Camera.highlightRaises p then None else Some v
  | selectPlanet p => if Camera.highlightRaises p then None else Some v
  | focusOnPlanet p => Camera.focusOnPlanet p v
  | followPlanet p => Camera.followPlanet p v
  | stopFollowing => Some (Camera.stopFollowing v)
  | resetView => Some (Camera.resetView v)
  | emit _ => Some v
  end.

Fixpoint cameraPerformAll (cs : list Call) (v : Camera.View)
    : option Camera.View :=
  match cs with
  | [] => Some v
  | c :: cs' =>
      match cameraPerform c v with
      | Some v' => cameraPerformAll cs' v'
      | None => None
      end
  end.

(** ** The controller and the camera together *)

(** The calls a sequence of operations makes, in order. *)
Fixpoint issuedBy (xs : list (Env * Op)) (c : Controller) : list Call :=
  match xs with
  | [] => []
  | x :: xs' => issued (exec (method (snd x)) (fst x) c) ++ issuedBy xs' (step c x)
  end.

(** An operation whose planet names are keys of [PLANET_DATA]: the hit test
    answers no planet or such a key (it reads the names off the registry),
    and the names given to the manual entry points are such keys. *)
Definition namesRegistered (x : Env * Op) : Prop :=
  (forall sx sy,
     getPlanetAtScreenPosition (fst x) sx sy = None \/
     Camera.registered (getPlanetAtScreenPosition (fst x) sx sy) = true) /\
  match snd x with
  | manualSelectPlanetOp p => Camera.registered p = true
  | manualFollowPlanetOp p => Camera.registered p = true
  | _ => True
  end.

(** A call the scene answers without raising and, for [followPlanet], with
    a planet it knows. *)
Definition callOk (c : Call) : bool :=
  match c with
  | highlightPlanet p => negb (Camera.highlightRaises p)
  | selectPlanet p => negb (Camera.highlightRaises p)
  | focusOnPlanet p => Camera.registered p
  | followPlanet p => Camera.registered p
  | _ => true
  end.

(** The planet the scene follows after one call that is [callOk]. *)
Definition followAfter (f : option Planet) (c : Call) : option Planet :=
  match c with
  | followPlanet p => p
  | stopFollowing => None
  | resetView => None
  | _ => f
  end.

(** The selected planet is none or a key of [PLANET_DATA]. *)
Definition selectedRegistered (c : Controller) : Prop :=
  selectedPlanet c = None \/ Camera.registered (selectedPlanet c) = true.

(** ** The hand tracker ([HandTracker])

    The tracker receives the results of the hand detector, smooths the
    landmarks and tells its subscribers.  The canvas it draws on is outside
    the model, and so is [lastLandmarks], which is written and never read.
    A [z] that is missing and a [z] that is not a number are one value
    here, [None]: sums with either are not a number, and the controller reads
    both as 0. *)
Module HandTracker.

Record Tracker : Type := mkTracker {
  handDetected : bool;
  smoothedLandmarks : option Landmarks
}.

Definition constructor : Tracker := mkTracker false None.

Definition smoothingFactor : R := 0.5.

Definition lerp (a b t : R) : R := a + (b - a) * t.

Definition lerp_z (a b : option R) (t : R) : option R :=
  match a, b with
  | Some a, Some b => Some (lerp a b t)
  | _, _ => None
  end.

(** One turn of the loop of [smoothLandmarks]. *)
Definition smoothPoint (smoothed lm : Landmark) : Landmark :=
  mkLandmark (lerp (pt_x smoothed) (pt_x lm) smoothingFactor)
    (lerp (pt_y smoothed) (pt_y lm) smoothingFactor)
    (lerp_z (pt_z smoothed) (pt_z lm) smoothingFactor).

(** The loop of [smoothLandmarks], over the points of [landmarks]: it writes
    the smoothed points in place, and raises when the smoothed array has no
    point left for one of [landmarks]. *)
Fixpoint smoothLoop (smoothed landmarks : Landmarks) {struct landmarks}
    : option unit * Landmarks :=
  match landmarks with
  | [] => (Some tt, smoothed)
  | lm :: landmarks' =>
      match smoothed with
      | [] => (None, [])
      | s :: smoothed' =>
          let out := smoothLoop smoothed' landmarks' in
          (fst out, smoothPoint s lm :: snd out)
      end
  end.

Definition smoothLandmarks (landmarks : Landmarks) (t : Tracker)
    : option unit * Tracker :=
  match smoothedLandmarks t with
  | None => (Some tt, mkTracker (handDetected t) (Some landmarks))
  | Some smoothed =>
      let out := smoothLoop smoothed landmarks in
      (fst out, mkTracker (handDetected t) (Some (snd out)))
  end.


Definition connections : list (nat * nat) :=
  [ (0, 1); (1, 2); (2, 3); (3, 4);
    (0, 5); (5, 6); (6, 7); (7, 8);
    (0, 9); (9, 10); (10, 11); (11, 12);
    (0, 13); (13, 14); (14, 15); (15, 16);
    (0, 17); (17, 18); (18, 19); (19, 20);
    (5, 9); (9, 13); (13, 17) ]%nat.

(** [drawHand] reads the two ends of every connection; what it draws is
    outside the model. *)
Definition drawHand (landmarks : Landmarks) : option unit :=
  if forallb
       (fun ij =>
          match at_index landmarks (fst ij), at_index landmarks (snd ij) with
          | Some _, Some _ => true
          | _, _ => false
          end)
       connections
  then Some tt else None.

(** What the tracker emits: ['handDetected'] with [this.smoothedLandmarks],
    or ['handLost']. *)
Inductive Emitted : Type :=
| detected (data : option Landmarks)
| lost.

Section Subscribers.

(** The subscribers of the two events: [notify x ev s] is the run of the
    callbacks on the event [ev], on their own state [s], when the outside is
    [x]; [None] when one raises. *)
Variable X : Type.
Variable S : Type.
Variable notify : X -> Emitted -> S -> option unit * S.

Record Result : Type := mkResult {
  finished : option unit;
  trackerAfter : Tracker;
  subscribersAfter : S;
  emitted : list Emitted
}.

(** [onResults(results)]; [results] is [results.multiHandLandmarks[0]], or
    [None] when there is no such array or it is empty. *)
Definition onResults (x : X) (results : option Landmarks) (t : Tracker) (s : S)
    : Result :=
  match results with
  | Some landmarks =>
      match smoothLandmarks landmarks t with
      | (None, t1) => mkResult None t1 s []
      | (Some _, t1) =>
          match drawHand landmarks with
          | None => mkResult None t1 s []
          | Some _ =>
              let t2 := mkTracker true (smoothedLandmarks t1) in
              let out := notify x (detected (smoothedLandmarks t2)) s in
              mkResult (fst out) t2 (snd out) [detected (smoothedLandmarks t2)]
          end
      end
  | None =>
      if handDetected t then
        let t1 := mkTracker false (smoothedLandmarks t) in
        match notify x lost s with
        | (Some _, s') => mkResult (Some tt) (mkTracker false None) s' [lost]
        | (None, s') => mkResult None t1 s' [lost]
        end
      else mkResult (Some tt) (mkTracker (handDetected t) None) s []
  end.

(** The events a sequence of results makes the tracker emit, in order. *)
Fixpoint emittedBy (frames : list (X * option Landmarks)) (t : Tracker) (s : S)
    : list Emitted :=
  match frames with
  | [] => []
  | f :: frames' =>
      let r := onResults (fst f) (snd f) t s in
      emitted r ++ emittedBy frames' (trackerAfter r) (subscribersAfter r)
  end.

End Subscribers.

Arguments mkResult {S}.
Arguments finished {S}.
Arguments trackerAfter {S}.
Arguments subscribersAfter {S}.
Arguments emitted {S}.
Arguments onResults {X S}.
Arguments emittedBy {X S}.

(** [getLandmarks()] and [isHandDetected()] *)
Definition getLandmarks (t : Tracker) : option Landmarks := smoothedLandmarks t.

Definition isHandDetected (t : Tracker) : bool := handDetected t.

(** A [handLost] is emitted only while a hand is detected. *)
Fixpoint paired (hand : bool) (evs : list Emitted) : bool :=
  match evs with
  | [] => true
  | detected _ :: evs' => paired true evs'
  | lost :: evs' => hand && paired false evs'
  end.

End HandTracker.

(** ** The application ([main.js])

    [setupEventListeners] subscribes [processHand] to ['handDetected'] and
    [onHandLost] to ['handLost']; the indicator they update is outside the
    model.  The state of the subscribers is the controller and the calls it
    has made. *)
Definition listeners (e : Env) (ev : HandTracker.Emitted)
    (s : Controller * list Call) : option unit * (Controller * list Call) :=
  let o := match ev with
           | HandTracker.detected landmarks => exec (processHand landmarks) e (fst s)
           | HandTracker.lost => exec onHandLost e (fst s)
           end in
  (returned o, (after o, snd s ++ issued o)).

Record App : Type := mkApp {
  handTracker : HandTracker.Tracker;
  gestureController : Controller
}.

Definition newApp : App := mkApp HandTracker.constructor constructor.

(** What happens to the application: the detector delivers results, or the
    user interface calls the controller. *)
Inductive Input : Type :=
| cameraResults (results : option Landmarks)
| control (op : Op).

(** The user interface calls the manual entry points only; the frame entry
    points are the tracker's. *)
Definition fromUserInterface (i : Input) : bool :=
  match i with
  | control (processHandOp _) => false
  | control onHandLostOp => false
  | _ => true
  end.

Definition appStep (a : App) (x : Env * Input) : App :=
  match snd x with
  | cameraResults results =>
      let r := HandTracker.onResults listeners (fst x) results (handTracker a)
                 (gestureController a, []) in
      mkApp (HandTracker.trackerAfter r) (fst (HandTracker.subscribersAfter r))
  | control op => mkApp (handTracker a) (step (gestureController a) (fst x, op))
  end.

(** The tracker and the controller agree on whether a hand is there. *)
Definition handAgreed (a : App) : Prop :=
  (HandTracker.handDetected (handTracker a) = true
   <-> currentGesture (gestureController a) <> None) /\
  (HandTracker.handDetected (handTracker a) = false ->
   isPinching (gestureController a) = false /\
   truthy (hoveredPlanet (gestureController a)) = false).

(** ** The user interface ([UIController]): what it calls on the controller

    The panels, the notifications and the rest of the page are outside the
    model: an action on them is kept by its name only. *)
Module UIController.

Inductive Action : Type :=
| page (what : string)
| controller (op : Op).

(** [resetView()] *)
Definition resetView : list Action :=
  [controller manualResetOp; page "hidePlanetInfo"; page "showNotification"].

Definition planetNames : list string :=
  ["sun"; "mercury"; "venus"; "earth"; "mars"; "jupiter"; "saturn"; "uranus";
   "neptune"]%string.

(** [parseInt(e.key)] on the nine case labels. *)
Definition digit (key : string) : option nat :=
  if (key =? "1")%string then Some 1%nat
  else if (key =? "2")%string then Some 2%nat
  else if (key =? "3")%string then Some 3%nat
  else if (key =? "4")%string then Some 4%nat
  else if (key =? "5")%string then Some 5%nat
  else if (key =? "6")%string then Some 6%nat
  else if (key =? "7")%string then Some 7%nat
  else if (key =? "8")%string then Some 8%nat
  else if (key =? "9")%string then Some 9%nat
  else None.

(** [handleKeyboard(e)], from [e.key] and [e.ctrlKey]. *)
Definition handleKeyboard (key : string) (ctrlKey : bool) : list Action :=
  if (key =? "Escape")%string then [page "closeAllPanels"]
  else if (key =? "h")%string || (key =? "H")%string then [page "togglePanel controls"]
  else if (key =? "s")%string || (key =? "S")%string then
    if negb ctrlKey then [page "togglePanel settings"] else []
  else if (key =? "r")%string || (key =? "R")%string then resetView
  else if (key =? "m")%string || (key =? "M")%string then [page "toggleSound"]
  else if (key =? " ")%string then page "preventDefault" :: resetView
  else
    match digit key with
    | Some d =>
        let index := (d - 1)%nat in
        if (index <? List.length planetNames)%nat then
          match nth_error planetNames index with
          | Some planetName =>
              [controller (manualSelectPlanetOp (Some planetName));
               page "showPlanetInfo"]
          | None =>
              [controller (manualSelectPlanetOp None); page "showPlanetInfo"]
          end
        else []
    | None => []
    end.






End UIController.

(** ** The scene between the controller and the render loop *)

(** What reaches the camera: a tick of the render loop ([update]) or a call
    of the controller. *)
Inductive SceneInput : Type :=
| renderTick
| sceneCall (c : Call).

Definition sceneStep (i : SceneInput) (v : Camera.View) : option Camera.View :=
  match i with
  | renderTick => Some (Camera.update v)
  | sceneCall c => cameraPerform c v
  end.

Fixpoint sceneRun (inputs : list SceneInput) (v : Camera.View)
    : option Camera.View :=
  match inputs with
  | [] => Some v
  | i :: inputs' =>
      match sceneStep i v with
      | Some v' => sceneRun inputs' v'
      | None => None
      end
  end.

(** The two calls that set the target radius from the data of a planet. *)
Definition radiusFromPlanet (i : SceneInput) : bool :=
  match i with
  | sceneCall (followPlanet _) => true
  | sceneCall (focusOnPlanet _) => true
  | _ => false
  end.

Definition elevationInRange (v : Camera.View) : Prop :=
  0.1 <= Camera.phi (Camera.cameraOrbit v) <= PI - 0.1 /\
  0.1 <= Camera.targetPhi (Camera.cameraOrbit v) <= PI - 0.1.

Definition radiusInRange (v : Camera.View) : Prop :=
  20 <= Camera.radius (Camera.cameraOrbit v) <= 200 /\
  20 <= Camera.targetRadius (Camera.cameraOrbit v) <= 200.
(** * Proofs *)

(** ** Comparisons *)

Lemma Rltb_true (a b : R) : Rltb a b = true <-> a < b.
Proof. unfold Rltb. destruct (Rlt_dec a b); split; intros; easy. Qed.

Lemma Rltb_false (a b : R) : Rltb a b = false <-> ~ a < b.
Proof. unfold Rltb. destruct (Rlt_dec a b); split; intros; easy. Qed.

(** Unfold the monad and run what can be run. *)
Ltac run_monad :=
  unfold bind, lift, get, assign, ask, ret, call, Date_now; cbn.

(** ** Frames of 21 points *)

(** A frame of 21 points has every landmark the controller reads. *)
Lemma wellFormed_points (landmarks : Landmarks) :
  wellFormed landmarks ->
  exists p0 p1 p2 p3 p4 p5 p6 p7 p8 p9 p10 p11 p12 p13 p14 p15 p16 p17 p18 p19 p20,
    landmarks = [p0; p1; p2; p3; p4; p5; p6; p7; p8; p9; p10; p11; p12; p13;
                 p14; p15; p16; p17; p18; p19; p20].
Proof.
  unfold wellFormed. intros H.
  do 21 (destruct landmarks as [|? landmarks]; [discriminate H|]).
  destruct landmarks; [|discriminate H].
  repeat eexists.
Qed.

Lemma wellFormed_measured (landmarks : Landmarks) :
  wellFormed landmarks ->
  exists center thumbTip indexTip t i m r p,
    getPalmCenter landmarks = Some center /\
    at_index landmarks LANDMARKS.THUMB_TIP = Some thumbTip /\
    at_index landmarks LANDMARKS.INDEX_TIP = Some indexTip /\
    isThumbExtended landmarks = Some t /\
    isFingerExtended landmarks index = Some i /\
    isFingerExtended landmarks middle = Some m /\
    isFingerExtended landmarks ring = Some r /\
    isFingerExtended landmarks pinky = Some p.
Proof.
  intros H. apply wellFormed_points in H.
  destruct H as (p0 & p1 & p2 & p3 & p4 & p5 & p6 & p7 & p8 & p9 & p10 & p11
                 & p12 & p13 & p14 & p15 & p16 & p17 & p18 & p19 & p20 & ->).
  unfold getPalmCenter, isThumbExtended, isFingerExtended, at_index. cbn.
  repeat eexists.
Qed.

Lemma wellFormed_label (landmarks : Landmarks) :
  wellFormed landmarks -> exists g, label landmarks = Some g.
Proof.
  intros H. destruct (wellFormed_measured landmarks H)
    as (center & thumbTip & indexTip & t & i & m & r & p
        & _ & Ht & Hi & E1 & E2 & E3 & E4 & E5).
  unfold label, pinchReading. rewrite E1, E2, E3, E4, E5, Ht, Hi. eauto.
Qed.

(** ** The classifier and the frame entry point, as functions of the frame *)

(** The classifier returns the label of the frame, whatever the controller
    holds, and raises exactly when a measurement does. *)
Lemma detectGesture_label (landmarks : Landmarks) (e : Env) (r : Run) :
  fst (detectGesture landmarks e r) = label landmarks.
Proof.
  unfold detectGesture, label, pinchReading. run_monad.
  destruct (isThumbExtended landmarks) as [t|]; cbn; [|reflexivity].
  destruct (isFingerExtended landmarks index) as [i|]; cbn; [|reflexivity].
  destruct (isFingerExtended landmarks middle) as [m|]; cbn; [|reflexivity].
  destruct (isFingerExtended landmarks ring) as [g|]; cbn; [|reflexivity].
  destruct (isFingerExtended landmarks pinky) as [p|]; cbn; [|reflexivity].
  destruct (at_index landmarks LANDMARKS.THUMB_TIP) as [a|]; cbn; [|reflexivity].
  destruct (at_index landmarks LANDMARKS.INDEX_TIP) as [b|]; cbn; [|reflexivity].
  unfold classify_by_priority, PINCH_THRESHOLD.
  destruct (Rltb (distance a b) 0.08); cbn.
  - destruct (isPinching (this r)); reflexivity.
  - destruct t, i, m, g, p; reflexivity.
Qed.

(** The controller after the classifier has run. *)
Lemma detectGesture_run (landmarks : Landmarks) (e : Env) (r : Run) (g : Gesture)
    (d : R) :
  label landmarks = Some g ->
  pinchReading landmarks = Some d ->
  detectGesture landmarks e r
  = (Some g, mkRun (afterDetect e d (this r)) (clock_reads r) (calls r)).
Proof.
  unfold detectGesture, label, pinchReading, afterDetect. run_monad.
  destruct (isThumbExtended landmarks) as [t|]; cbn; [|discriminate].
  destruct (isFingerExtended landmarks index) as [i|]; cbn; [|discriminate].
  destruct (isFingerExtended landmarks middle) as [m|]; cbn; [|discriminate].
  destruct (isFingerExtended landmarks ring) as [g'|]; cbn; [|discriminate].
  destruct (isFingerExtended landmarks pinky) as [p|]; cbn; [|discriminate].
  destruct (at_index landmarks LANDMARKS.THUMB_TIP) as [a|]; cbn; [|discriminate].
  destruct (at_index landmarks LANDMARKS.INDEX_TIP) as [b|]; cbn; [|discriminate].
  intros Hg Hd. injection Hg as <-. injection Hd as <-.
  unfold classify_by_priority, PINCH_THRESHOLD.
  destruct (Rltb (distance a b) 0.08); cbn.
  - destruct (isPinching (this r)); reflexivity.
  - destruct t, i, m, g', p; reflexivity.
Qed.

Lemma currentGesture_afterDetect (e : Env) (d : R) (c : Controller) :
  currentGesture (afterDetect e d c) = currentGesture c.
Proof.
  unfold afterDetect.
  destruct (Rltb d PINCH_THRESHOLD), (isPinching c); reflexivity.
Qed.

(** [processHand] up to the dispatch on the label. *)
Lemma processHand_run (landmarks : Landmarks) (e : Env) (c : Controller)
    (center : Vec2) (d : R) (g : Gesture) :
  getPalmCenter landmarks = Some center ->
  pinchReading landmarks = Some d ->
  label landmarks = Some g ->
  processHand (Some landmarks) e (mkRun c 0 [])
  = handleGesture landmarks g e (beforeHandle e center d g c).
Proof.
  intros Hc Hd Hg. unfold processHand.
  unfold bind at 1. unfold get at 1. cbn [this].
  unfold bind at 1. unfold assign at 1. cbn [this clock_reads calls].
  unfold bind at 1. unfold lift at 1. rewrite Hc.
  unfold bind at 1. unfold assign at 1. cbn [this clock_reads calls].
  unfold bind at 1. unfold get at 1. cbn [this].
  unfold bind at 1. unfold get at 1. cbn [this].
  unfold bind at 1. unfold assign at 1. cbn [this clock_reads calls].
  unfold bind at 1.
  rewrite (detectGesture_run landmarks e _ g d Hg Hd). cbn [this clock_reads calls].
  unfold beforeHandle, timed.
  change (set_handVelocity _ _) with (tracked center c).
  set (c2 := afterDetect e d (tracked center c)).
  run_monad.
  destruct (same_gesture g (currentGesture c2)); cbn; reflexivity.
Qed.

(** ** Sample frames and their labels *)

Lemma distance_on_axis (a b : R) : distance (on_axis a) (on_axis b) = Rabs (a - b).
Proof.
  unfold distance, on_axis, z_or_0; cbn.
  replace ((0 - 0) * (0 - 0) + (a - b) * (a - b) + (0 - 0) * (0 - 0))
    with (Rsqr (a - b)) by (unfold Rsqr; ring).
  apply sqrt_Rsqr_abs.
Qed.

Ltac solve_R := unfold Rabs; repeat destruct Rcase_abs; lra.

Ltac decide_Rltb :=
  repeat match goal with
    | |- context [Rltb ?a ?b] =>
        first [ rewrite (proj2 (Rltb_true a b)) by solve_R
              | rewrite (proj2 (Rltb_false a b)) by solve_R ]
    end.

Ltac measure_hand :=
  unfold label, pinchReading, isThumbExtended, isFingerExtended, getPalmCenter,
    at_index, hand; cbn;
  rewrite ?distance_on_axis;
  unfold classify_by_priority, Rgtb; decide_Rltb; cbn.

Lemma wellFormed_hand (px py a b i m r p : R) : wellFormed (hand px py a b i m r p).
Proof. reflexivity. Qed.

Lemma pinchReading_pinchHand (d : R) :
  0 <= d -> pinchReading (pinchHand d) = Some d.
Proof.
  intros H. unfold pinchReading, pinchHand, hand, at_index. cbn.
  rewrite distance_on_axis. f_equal. solve_R.
Qed.

Lemma label_pinchHand (d : R) :
  0 <= d < 0.08 -> label (pinchHand d) = Some pinch.
Proof.
  intros H. unfold pinchHand. measure_hand. reflexivity.
Qed.

Lemma label_fistHand : label fistHand = Some fist.
Proof. unfold fistHand. measure_hand. reflexivity. Qed.

Lemma pinchReading_fistHand : pinchReading fistHand = Some 0.1.
Proof.
  unfold pinchReading, fistHand, hand, at_index. cbn.
  rewrite distance_on_axis. f_equal. solve_R.
Qed.

Lemma label_pointHand : label pointHand = Some point.
Proof. unfold pointHand. measure_hand. reflexivity. Qed.

Lemma pinchReading_pointHand : pinchReading pointHand = Some 0.2.
Proof.
  unfold pinchReading, pointHand, hand, at_index. cbn.
  rewrite distance_on_axis. f_equal. solve_R.
Qed.

Lemma label_twoFingerHand (px py : R) : label (twoFingerHand px py) = Some rotate.
Proof. unfold twoFingerHand. measure_hand. reflexivity. Qed.

Lemma getPalmCenter_hand (px py a b i m r p : R) :
  getPalmCenter (hand px py a b i m r p) = Some {| vx := px; vy := py |}.
Proof.
  unfold getPalmCenter, hand, at_index. cbn. f_equal. f_equal; field.
Qed.

(** ** The gesture classifier *)

(** C1.  On every frame of 21 points the classifier returns one label, and
    that label is the one the priority order pinch, fist, point, palm, rotate
    picks from the thumb-tip/index-tip distance of the frame and its five
    finger states, whatever the controller holds. *)
Theorem detectGesture_priority (landmarks : Landmarks) :
  wellFormed landmarks ->
  exists thumbTip indexTip t i m r p,
    at_index landmarks LANDMARKS.THUMB_TIP = Some thumbTip /\
    at_index landmarks LANDMARKS.INDEX_TIP = Some indexTip /\
    isThumbExtended landmarks = Some t /\
    isFingerExtended landmarks index = Some i /\
    isFingerExtended landmarks middle = Some m /\
    isFingerExtended landmarks ring = Some r /\
    isFingerExtended landmarks pinky = Some p /\
    forall (e : Env) (c : Controller),
      returned (exec (detectGesture landmarks) e c)
      = Some (classify_by_priority (distance thumbTip indexTip) t i m r p).
Proof.
  intros H.
  destruct (wellFormed_measured landmarks H)
    as (center & thumbTip & indexTip & t & i & m & r & p
        & _ & Ht & Hi & E1 & E2 & E3 & E4 & E5).
  exists thumbTip, indexTip, t, i, m, r, p.
  repeat (split; [assumption|]).
  intros e c. unfold exec. cbn [returned].
  rewrite detectGesture_label. unfold label, pinchReading.
  rewrite E1, E2, E3, E4, E5, Ht, Hi. reflexivity.
Qed.

Lemma detectGesture_priority_witness :
  wellFormed fistHand /\
  exists thumbTip indexTip t i m r p,
    at_index fistHand LANDMARKS.THUMB_TIP = Some thumbTip /\
    at_index fistHand LANDMARKS.INDEX_TIP = Some indexTip /\
    isThumbExtended fistHand = Some t /\
    isFingerExtended fistHand index = Some i /\
    isFingerExtended fistHand middle = Some m /\
    isFingerExtended fistHand ring = Some r /\
    isFingerExtended fistHand pinky = Some p /\
    forall (e : Env) (c : Controller),
      returned (exec (detectGesture fistHand) e c)
      = Some (classify_by_priority (distance thumbTip indexTip) t i m r p).
Proof.
  split; [reflexivity|].
  apply (detectGesture_priority fistHand). reflexivity.
Defined.

(** ** Running one frame *)

Ltac split_ifs :=
  repeat match goal with
    | |- context [if ?b then _ else _] => destruct b eqn:?; cbn
    end.

Ltac open_frame :=
  unfold beforeHandle, timed, afterDetect, tracked; cbn.

Lemma processHand_exec (landmarks : Landmarks) (e : Env) (c : Controller)
    (center : Vec2) (d : R) (g : Gesture) :
  getPalmCenter landmarks = Some center ->
  pinchReading landmarks = Some d ->
  label landmarks = Some g ->
  exec (processHand (Some landmarks)) e c
  = let out := handleGesture landmarks g e (beforeHandle e center d g c) in
    mkOutcome (fst out) (this (snd out)) (calls (snd out)).
Proof.
  intros Hc Hd Hg. unfold exec.
  rewrite (processHand_run landmarks e c center d g Hc Hd Hg). reflexivity.
Qed.

Lemma wellFormed_readings (landmarks : Landmarks) :
  wellFormed landmarks ->
  exists center d g,
    getPalmCenter landmarks = Some center /\
    pinchReading landmarks = Some d /\
    label landmarks = Some g.
Proof.
  intros H. destruct (wellFormed_measured landmarks H)
    as (center & thumbTip & indexTip & t & i & m & r & p
        & Hc & Ht & Hi & E1 & E2 & E3 & E4 & E5).
  exists center, (distance thumbTip indexTip),
    (classify_by_priority (distance thumbTip indexTip) t i m r p).
  unfold label, pinchReading. rewrite E1, E2, E3, E4, E5, Ht, Hi. auto.
Qed.

Lemma pinchReading_tips (landmarks : Landmarks) (d : R) :
  pinchReading landmarks = Some d ->
  exists thumbTip indexTip,
    at_index landmarks LANDMARKS.THUMB_TIP = Some thumbTip /\
    at_index landmarks LANDMARKS.INDEX_TIP = Some indexTip /\
    d = distance thumbTip indexTip.
Proof.
  unfold pinchReading.
  destruct (at_index landmarks LANDMARKS.THUMB_TIP) as [a|]; [|discriminate].
  destruct (at_index landmarks LANDMARKS.INDEX_TIP) as [b|]; [|discriminate].
  intros [= <-]. eauto.
Qed.

(** The fields of the controller when [handleGesture] is reached. *)
Ltac frame_field := intros; open_frame; split_ifs; reflexivity.

Lemma rotationSensitivity_beforeHandle (e : Env) (center : Vec2) (d : R) (g : Gesture)
    (c : Controller) :
  rotationSensitivity (this (beforeHandle e center d g c)) = rotationSensitivity c.
Proof. frame_field. Qed.

Lemma zoomSensitivity_beforeHandle (e : Env) (center : Vec2) (d : R) (g : Gesture)
    (c : Controller) :
  zoomSensitivity (this (beforeHandle e center d g c)) = zoomSensitivity c.
Proof. frame_field. Qed.

Lemma hoveredPlanet_beforeHandle (e : Env) (center : Vec2) (d : R) (g : Gesture)
    (c : Controller) :
  hoveredPlanet (this (beforeHandle e center d g c)) = hoveredPlanet c.
Proof. frame_field. Qed.

Lemma selectedPlanet_beforeHandle (e : Env) (center : Vec2) (d : R) (g : Gesture)
    (c : Controller) :
  selectedPlanet (this (beforeHandle e center d g c)) = selectedPlanet c.
Proof. frame_field. Qed.

Lemma followingPlanet_beforeHandle (e : Env) (center : Vec2) (d : R) (g : Gesture)
    (c : Controller) :
  followingPlanet (this (beforeHandle e center d g c)) = followingPlanet c.
Proof. frame_field. Qed.

Lemma hoverStartTime_beforeHandle (e : Env) (center : Vec2) (d : R) (g : Gesture)
    (c : Controller) :
  hoverStartTime (this (beforeHandle e center d g c)) = hoverStartTime c.
Proof. frame_field. Qed.

Lemma hoverDuration_beforeHandle (e : Env) (center : Vec2) (d : R) (g : Gesture)
    (c : Controller) :
  hoverDuration (this (beforeHandle e center d g c)) = hoverDuration c.
Proof. frame_field. Qed.

Lemma previousPinchDistance_beforeHandle (e : Env) (center : Vec2) (d : R)
    (g : Gesture) (c : Controller) :
  previousPinchDistance (this (beforeHandle e center d g c)) = pinchDistance c.
Proof. frame_field. Qed.

Lemma pinchDistance_beforeHandle (e : Env) (center : Vec2) (d : R)
    (g : Gesture) (c : Controller) :
  pinchDistance (this (beforeHandle e center d g c)) = d.
Proof. frame_field. Qed.

Lemma isPinching_beforeHandle (e : Env) (center : Vec2) (d : R)
    (g : Gesture) (c : Controller) :
  isPinching (this (beforeHandle e center d g c)) = Rltb d PINCH_THRESHOLD.
Proof.
  intros; open_frame. destruct (isPinching c) eqn:E; split_ifs; rewrite ?E; reflexivity.
Qed.

Lemma basePinchDistance_beforeHandle (e : Env) (center : Vec2) (d : R)
    (g : Gesture) (c : Controller) :
  basePinchDistance (this (beforeHandle e center d g c))
  = if Rltb d PINCH_THRESHOLD && negb (isPinching c)
    then cameraOrbit_radius e else basePinchDistance c.
Proof. frame_field. Qed.

Lemma handVelocity_beforeHandle (e : Env) (center : Vec2) (d : R)
    (g : Gesture) (c : Controller) :
  handVelocity (this (beforeHandle e center d g c))
  = {| vx := vx center - vx (handPosition c);
       vy := vy center - vy (handPosition c) |}.
Proof. frame_field. Qed.

Lemma handPosition_beforeHandle (e : Env) (center : Vec2) (d : R)
    (g : Gesture) (c : Controller) :
  handPosition (this (beforeHandle e center d g c)) = center.
Proof. frame_field. Qed.

Lemma currentGesture_beforeHandle (e : Env) (center : Vec2) (d : R)
    (g : Gesture) (c : Controller) :
  currentGesture (this (beforeHandle e center d g c)) = Some g.
Proof.
  intros; open_frame; split_ifs; try reflexivity;
    match goal with
    | H : same_gesture _ _ = true |- _ =>
        unfold same_gesture in H; cbn in H;
        destruct (currentGesture c) as [g'|]; [|discriminate H];
        destruct g, g'; try discriminate H; reflexivity
    end.
Qed.

Lemma sceneCalls_beforeHandle (e : Env) (center : Vec2) (d : R)
    (g : Gesture) (c : Controller) :
  sceneCalls (calls (beforeHandle e center d g c)) = [].
Proof. frame_field. Qed.

Lemma calls_beforeHandle (e : Env) (center : Vec2) (d : R)
    (g : Gesture) (c : Controller) :
  calls (beforeHandle e center d g c)
  = if same_gesture g (currentGesture c) then [] else [emit (gesture g)].
Proof.
  unfold beforeHandle, timed. rewrite currentGesture_afterDetect.
  unfold tracked; cbn. destruct (same_gesture g (currentGesture c)); reflexivity.
Qed.

Lemma gestureDuration_beforeHandle (e : Env) (center : Vec2) (d : R)
    (g : Gesture) (c : Controller) :
  gestureDuration (this (beforeHandle e center d g c))
  = if same_gesture g (currentGesture c)
    then (Date_now_at e 0 - gestureStartTime c)%Z
    else (Date_now_at e 1 - Date_now_at e 0)%Z.
Proof.
  unfold beforeHandle, timed. rewrite currentGesture_afterDetect.
  unfold tracked; cbn. destruct (same_gesture g (currentGesture c)); cbn.
  - unfold afterDetect. split_ifs; reflexivity.
  - reflexivity.
Qed.

Lemma clock_reads_beforeHandle (e : Env) (center : Vec2) (d : R)
    (g : Gesture) (c : Controller) :
  clock_reads (beforeHandle e center d g c)
  = if same_gesture g (currentGesture c) then 1%nat else 2%nat.
Proof.
  unfold beforeHandle, timed. rewrite currentGesture_afterDetect.
  unfold tracked; cbn. destruct (same_gesture g (currentGesture c)); reflexivity.
Qed.

(** ** Camera commands *)

(** C5.  A frame classified as pinch issues one command to the scene, the
    zoom by minus (this frame's thumb-index distance minus the distance the
    previous evaluation stored) times the zoom sensitivity, whose default is
    100; when the distance shrinks from 0.05 to 0.03 the zoom delta equals
    0.02 times the sensitivity and is positive for a positive sensitivity. *)
Theorem pinch_zoom_delta (landmarks : Landmarks) (e : Env) (c : Controller) :
  wellFormed landmarks ->
  label landmarks = Some pinch ->
  exists d,
    pinchReading landmarks = Some d /\
    let o := exec (processHand (Some landmarks)) e c in
    returned o = Some tt /\
    previousPinchDistance (after o) = pinchDistance c /\
    sceneCalls (issued o)
    = [adjustZoom (- (d - pinchDistance c) * zoomSensitivity c)] /\
    zoomSensitivity constructor = 100 /\
    (pinchDistance c = 0.05 -> d = 0.03 ->
     exists delta,
       sceneCalls (issued o) = [adjustZoom delta] /\
       delta = 0.02 * zoomSensitivity c /\
       (0 < zoomSensitivity c -> 0 < delta)).
Proof.
  intros H Hg.
  destruct (wellFormed_readings landmarks H) as (center & d & g & Hc & Hd & Hg').
  exists d. split; [assumption|].
  destruct (pinchReading_tips landmarks d Hd) as (a & b & Ha & Hb & ->).
  rewrite (processHand_exec landmarks e c center _ pinch Hc Hd Hg).
  cbv zeta. unfold handleGesture, handlePinch. run_monad. rewrite Ha, Hb. cbn.
  rewrite previousPinchDistance_beforeHandle, zoomSensitivity_beforeHandle.
  unfold sceneCalls. rewrite filter_app.
  fold (sceneCalls (calls (beforeHandle e center (distance a b) pinch c))).
  rewrite sceneCalls_beforeHandle. cbn.
  repeat split.
  intros Hp Hd3. rewrite Hp, Hd3.
  exists (0.02 * zoomSensitivity c). repeat split.
  - do 2 f_equal. lra.
  - intros Hz. lra.
Qed.

Lemma pinch_zoom_delta_witness :
  wellFormed (pinchHand 0.03) /\
  label (pinchHand 0.03) = Some pinch /\
  sceneCalls
    (issued (exec (processHand (Some (pinchHand 0.03))) (still 0 None)
               (set_pinchDistance 0.05 constructor)))
  = [adjustZoom (0.02 * 100)].
Proof.
  assert (W : wellFormed (pinchHand 0.03)) by reflexivity.
  assert (L : label (pinchHand 0.03) = Some pinch) by (apply label_pinchHand; lra).
  split; [exact W|]. split; [exact L|].
  destruct (pinch_zoom_delta (pinchHand 0.03) (still 0 None)
              (set_pinchDistance 0.05 constructor) W L)
    as (d & Hd & _ & _ & _ & _ & Hs).
  rewrite pinchReading_pinchHand in Hd by lra. injection Hd as <-.
  destruct (Hs eq_refl eq_refl) as (delta & -> & -> & _). reflexivity.
Defined.

(** C6.  A frame classified as rotate issues one command to the scene, the
    rotation by (minus the hand velocity on x times the rotation sensitivity,
    the hand velocity on y times the rotation sensitivity), the velocity
    being the palm centre of this frame minus the previous hand position and
    the default sensitivity 3; a move of +0.05 on x with no move on y gives
    deltaTheta = -0.05 times the sensitivity and deltaPhi = 0. *)
Theorem rotate_rotation_delta (landmarks : Landmarks) (e : Env) (c : Controller) :
  wellFormed landmarks ->
  label landmarks = Some rotate ->
  exists center,
    getPalmCenter landmarks = Some center /\
    let o := exec (processHand (Some landmarks)) e c in
    returned o = Some tt /\
    handVelocity (after o)
    = {| vx := vx center - vx (handPosition c);
         vy := vy center - vy (handPosition c) |} /\
    sceneCalls (issued o)
    = [adjustRotation (- vx (handVelocity (after o)) * rotationSensitivity c)
                      (vy (handVelocity (after o)) * rotationSensitivity c)] /\
    rotationSensitivity constructor = 3 /\
    (vx center = vx (handPosition c) + 0.05 ->
     vy center = vy (handPosition c) ->
     sceneCalls (issued o)
     = [adjustRotation (- 0.05 * rotationSensitivity c) 0]).
Proof.
  intros H Hg.
  destruct (wellFormed_readings landmarks H) as (center & d & g & Hc & Hd & Hg').
  exists center. split; [assumption|].
  rewrite (processHand_exec landmarks e c center d rotate Hc Hd Hg).
  cbv zeta. unfold handleGesture, handleRotation. run_monad.
  rewrite handVelocity_beforeHandle, rotationSensitivity_beforeHandle. cbn.
  unfold sceneCalls. rewrite filter_app.
  fold (sceneCalls (calls (beforeHandle e center d rotate c))).
  rewrite sceneCalls_beforeHandle. cbn.
  repeat split.
  - do 2 f_equal. ring.
  - intros Hx Hy. rewrite Hx, Hy. do 2 f_equal; lra.
Qed.

Lemma rotate_rotation_delta_witness :
  wellFormed (twoFingerHand 0.55 0.5) /\
  label (twoFingerHand 0.55 0.5) = Some rotate /\
  sceneCalls
    (issued (exec (processHand (Some (twoFingerHand 0.55 0.5))) (still 0 None)
               constructor))
  = [adjustRotation (- 0.05 * 3) 0].
Proof.
  assert (W : wellFormed (twoFingerHand 0.55 0.5)) by reflexivity.
  assert (L : label (twoFingerHand 0.55 0.5) = Some rotate)
    by apply label_twoFingerHand.
  split; [exact W|]. split; [exact L|].
  destruct (rotate_rotation_delta (twoFingerHand 0.55 0.5) (still 0 None)
              constructor W L)
    as (center & Hc & _ & _ & _ & _ & Hs).
  unfold twoFingerHand in Hc. rewrite getPalmCenter_hand in Hc.
  injection Hc as <-.
  apply Hs; cbn; lra.
Defined.

(** ** The pinch state *)

Lemma zoomIssued_app (xs ys : list Call) :
  zoomIssued (xs ++ ys) = zoomIssued xs ++ zoomIssued ys.
Proof. apply flat_map_app. Qed.

Ltac open_handlers :=
  unfold handleGesture, handleRotation, handlePinch, handlePoint, handleFist,
    handlePalm; run_monad.

Lemma handleGesture_zoomIssued (landmarks : Landmarks) (g : Gesture) (e : Env)
    (r : Run) :
  g <> pinch ->
  zoomIssued (calls (snd (handleGesture landmarks g e r))) = zoomIssued (calls r).
Proof.
  intros Hg. destruct g; try congruence; open_handlers.
  - rewrite zoomIssued_app. cbn. apply app_nil_r.
  - split_ifs; rewrite ?zoomIssued_app; cbn; rewrite ?app_nil_r; reflexivity.
  - destruct (at_index landmarks LANDMARKS.INDEX_TIP) as [tip|]; cbn; [|reflexivity].
    split_ifs; rewrite ?zoomIssued_app; cbn; rewrite ?app_nil_r; reflexivity.
  - split_ifs; rewrite ?zoomIssued_app; cbn; rewrite ?app_nil_r; reflexivity.
Qed.

Lemma zoomIssued_beforeHandle (e : Env) (center : Vec2) (d : R) (g : Gesture)
    (c : Controller) :
  zoomIssued (calls (beforeHandle e center d g c)) = [].
Proof.
  rewrite calls_beforeHandle. destruct (same_gesture g (currentGesture c)); reflexivity.
Qed.

(** The zoom deltas one frame issues, from the label of the frame. *)
Lemma processHand_zoomIssued (landmarks : Landmarks) (e : Env) (c : Controller)
    (center : Vec2) (d : R) (g : Gesture) :
  getPalmCenter landmarks = Some center ->
  pinchReading landmarks = Some d ->
  label landmarks = Some g ->
  zoomIssued (issued (exec (processHand (Some landmarks)) e c))
  = match g with
    | pinch => [- (d - pinchDistance c) * zoomSensitivity c]
    | _ => []
    end.
Proof.
  intros Hc Hd Hg.
  rewrite (processHand_exec landmarks e c center d g Hc Hd Hg). cbv zeta.
  cbn [issued].
  destruct (Gesture_eqb g pinch) eqn:E.
  - destruct g; try discriminate E.
    destruct (pinchReading_tips landmarks d Hd) as (a & b & Ha & Hb & ->).
    open_handlers. rewrite Ha, Hb. cbn.
    rewrite previousPinchDistance_beforeHandle, zoomSensitivity_beforeHandle.
    rewrite zoomIssued_app, zoomIssued_beforeHandle. reflexivity.
  - rewrite handleGesture_zoomIssued by (intros ->; discriminate E).
    rewrite zoomIssued_beforeHandle. destruct g; try reflexivity; discriminate E.
Qed.

(** C9.  Every evaluation of the classifier on a frame of 21 points, whatever
    label wins, moves the stored pinch distance into the previous distance,
    stores the distance of this frame, and sets the active flag to whether
    that distance is below 0.08; the base distance takes the camera's radius
    exactly when the pinch becomes active (the distance is below 0.08 and
    the flag was off) and is kept otherwise; and the zoom deltas of a frame
    do not depend on the base distance. *)
Theorem detectGesture_pinch_state (landmarks : Landmarks) (e : Env)
    (c : Controller) :
  wellFormed landmarks ->
  exists d g,
    pinchReading landmarks = Some d /\
    let o := exec (detectGesture landmarks) e c in
    returned o = Some g /\
    issued o = [] /\
    previousPinchDistance (after o) = pinchDistance c /\
    pinchDistance (after o) = d /\
    isPinching (after o) = Rltb d 0.08 /\
    basePinchDistance (after o)
    = (if Rltb d 0.08 && negb (isPinching c)
       then cameraOrbit_radius e else basePinchDistance c) /\
    (forall base,
       zoomIssued (issued (exec (handlePinch landmarks) e
                             (set_basePinchDistance base c)))
       = zoomIssued (issued (exec (handlePinch landmarks) e c))) /\
    (forall base,
       zoomIssued (issued (exec (processHand (Some landmarks)) e
                             (set_basePinchDistance base c)))
       = zoomIssued (issued (exec (processHand (Some landmarks)) e c))).
Proof.
  intros H.
  destruct (wellFormed_readings landmarks H) as (center & d & g & Hc & Hd & Hg).
  exists d, g. split; [assumption|]. cbv zeta.
  assert (Z1 : forall base,
             zoomIssued (issued (exec (handlePinch landmarks) e
                                   (set_basePinchDistance base c)))
             = zoomIssued (issued (exec (handlePinch landmarks) e c))).
  { intros base. unfold exec, handlePinch. run_monad.
    destruct (at_index landmarks LANDMARKS.THUMB_TIP); cbn; [|reflexivity].
    destruct (at_index landmarks LANDMARKS.INDEX_TIP); cbn; reflexivity. }
  assert (Z2 : forall base,
             zoomIssued (issued (exec (processHand (Some landmarks)) e
                                   (set_basePinchDistance base c)))
             = zoomIssued (issued (exec (processHand (Some landmarks)) e c))).
  { intros base.
    rewrite (processHand_zoomIssued landmarks e c center d g Hc Hd Hg).
    rewrite (processHand_zoomIssued landmarks e _ center d g Hc Hd Hg).
    reflexivity. }
  do 6 (split;
        [ unfold exec; rewrite (detectGesture_run landmarks e _ g d Hg Hd);
          cbn; unfold afterDetect, PINCH_THRESHOLD;
          destruct (isPinching c) eqn:E; split_ifs; rewrite ?E; reflexivity | ]).
  split; assumption.
Qed.

Lemma detectGesture_pinch_state_witness :
  wellFormed fistHand /\
  exists d g,
    pinchReading fistHand = Some d /\
    let o := exec (detectGesture fistHand) (still 0 None) constructor in
    returned o = Some g /\
    issued o = [] /\
    previousPinchDistance (after o) = pinchDistance constructor /\
    pinchDistance (after o) = d /\
    isPinching (after o) = Rltb d 0.08 /\
    basePinchDistance (after o)
    = (if Rltb d 0.08 && negb (isPinching constructor)
       then cameraOrbit_radius (still 0 None)
       else basePinchDistance constructor) /\
    (forall base,
       zoomIssued (issued (exec (handlePinch fistHand) (still 0 None)
                             (set_basePinchDistance base constructor)))
       = zoomIssued (issued (exec (handlePinch fistHand) (still 0 None)
                               constructor))) /\
    (forall base,
       zoomIssued (issued (exec (processHand (Some fistHand)) (still 0 None)
                             (set_basePinchDistance base constructor)))
       = zoomIssued (issued (exec (processHand (Some fistHand)) (still 0 None)
                               constructor))).
Proof.
  split; [reflexivity|].
  apply (detectGesture_pinch_state fistHand (still 0 None) constructor).
  reflexivity.
Defined.

(** ** Frames that raise *)

Lemma detectGesture_raises (landmarks : Landmarks) (e : Env) (r : Run) :
  label landmarks = None -> detectGesture landmarks e r = (None, r).
Proof.
  unfold detectGesture, label, pinchReading. run_monad.
  destruct (isThumbExtended landmarks) as [t|]; cbn; [|reflexivity].
  destruct (isFingerExtended landmarks index) as [i|]; cbn; [|reflexivity].
  destruct (isFingerExtended landmarks middle) as [m|]; cbn; [|reflexivity].
  destruct (isFingerExtended landmarks ring) as [g|]; cbn; [|reflexivity].
  destruct (isFingerExtended landmarks pinky) as [p|]; cbn; [|reflexivity].
  destruct (at_index landmarks LANDMARKS.THUMB_TIP) as [a|]; cbn; [|reflexivity].
  destruct (at_index landmarks LANDMARKS.INDEX_TIP) as [b|]; cbn; [|reflexivity].
  discriminate.
Qed.

Lemma label_pinchReading (landmarks : Landmarks) (g : Gesture) :
  label landmarks = Some g -> exists d, pinchReading landmarks = Some d.
Proof.
  unfold label.
  destruct (isThumbExtended landmarks); [|discriminate].
  destruct (isFingerExtended landmarks index); [|discriminate].
  destruct (isFingerExtended landmarks middle); [|discriminate].
  destruct (isFingerExtended landmarks ring); [|discriminate].
  destruct (isFingerExtended landmarks pinky); [|discriminate].
  destruct (pinchReading landmarks) as [d|]; [|discriminate].
  eauto.
Qed.

Lemma processHand_raises (landmarks : Landmarks) (e : Env) (c : Controller)
    (center : Vec2) :
  getPalmCenter landmarks = Some center ->
  label landmarks = None ->
  processHand (Some landmarks) e (mkRun c 0 [])
  = (None, mkRun (tracked center c) 0 []).
Proof.
  intros Hc Hg. unfold processHand.
  unfold bind at 1. unfold get at 1. cbn [this].
  unfold bind at 1. unfold assign at 1. cbn [this clock_reads calls].
  unfold bind at 1. unfold lift at 1. rewrite Hc.
  unfold bind at 1. unfold assign at 1. cbn [this clock_reads calls].
  unfold bind at 1. unfold get at 1. cbn [this].
  unfold bind at 1. unfold get at 1. cbn [this].
  unfold bind at 1. unfold assign at 1. cbn [this clock_reads calls].
  unfold bind at 1. rewrite (detectGesture_raises landmarks e _ Hg).
  reflexivity.
Qed.

(** A frame either raises before any call is made, with only the hand
    position fields written, or reaches [handleGesture]. *)
Lemma processHand_cases (landmarks : Landmarks) (e : Env) (c : Controller) :
  (exists c',
     exec (processHand (Some landmarks)) e c = mkOutcome None c' [] /\
     (c' = set_previousHandPosition (handPosition c) c \/
      exists center, c' = tracked center c)) \/
  (exists center d g,
     getPalmCenter landmarks = Some center /\
     pinchReading landmarks = Some d /\
     label landmarks = Some g /\
     exec (processHand (Some landmarks)) e c
     = let out := handleGesture landmarks g e (beforeHandle e center d g c) in
       mkOutcome (fst out) (this (snd out)) (calls (snd out))).
Proof.
  destruct (getPalmCenter landmarks) as [center|] eqn:Hc.
  - destruct (label landmarks) as [g|] eqn:Hg.
    + destruct (label_pinchReading landmarks g Hg) as (d & Hd).
      right. exists center, d, g.
      split; [reflexivity|]. split; [assumption|]. split; [reflexivity|].
      apply processHand_exec; assumption.
    + left. exists (tracked center c). split; [|right; eauto].
      unfold exec. rewrite (processHand_raises landmarks e c center Hc Hg).
      reflexivity.
  - left. exists (set_previousHandPosition (handPosition c) c). split; [|left; reflexivity].
    unfold exec, processHand. run_monad. rewrite Hc. reflexivity.
Qed.

(** ** The hover target outside the point gesture *)

Lemma performAll_app (xs ys : list Call) (s : SolarSystem.Scene) :
  SolarSystem.performAll (xs ++ ys) s
  = SolarSystem.performAll ys (SolarSystem.performAll xs s).
Proof. apply fold_left_app. Qed.

Lemma performAll_beforeHandle (e : Env) (center : Vec2) (d : R) (g : Gesture)
    (c : Controller) (s : SolarSystem.Scene) :
  SolarSystem.performAll (calls (beforeHandle e center d g c)) s = s.
Proof.
  rewrite calls_beforeHandle. destruct (same_gesture g (currentGesture c)); reflexivity.
Qed.

(** A handler other than [handlePoint] neither writes the hover target nor
    calls a method of the scene that moves the highlight. *)
Lemma handleGesture_keeps_hover (landmarks : Landmarks) (g : Gesture) (e : Env)
    (r : Run) :
  g <> point ->
  let r' := snd (handleGesture landmarks g e r) in
  hoveredPlanet (this r') = hoveredPlanet (this r) /\
  forall s, SolarSystem.performAll (calls r') s = SolarSystem.performAll (calls r) s.
Proof.
  intros Hg. destruct g; try congruence; open_handlers.
  - split; [reflexivity|]. intros s. rewrite performAll_app. reflexivity.
  - destruct (at_index landmarks LANDMARKS.THUMB_TIP); cbn; [|auto].
    destruct (at_index landmarks LANDMARKS.INDEX_TIP); cbn; [|auto].
    split; [reflexivity|]. intros s. rewrite performAll_app. reflexivity.
  - split_ifs; (split; [reflexivity|]); intros s;
      rewrite ?performAll_app; reflexivity.
  - split_ifs; (split; [reflexivity|]); intros s;
      rewrite ?performAll_app; reflexivity.
Qed.

(** [handlePoint] forgets the hover target only when the hit test answers
    no planet. *)
Lemma handlePoint_clears (landmarks : Landmarks) (e : Env) (r : Run) :
  hoveredPlanet (this r) <> None ->
  hoveredPlanet (this (snd (handlePoint landmarks e r))) = None ->
  exists hit, pointedPlanet e landmarks = Some hit /\ truthy hit = false.
Proof.
  unfold handlePoint, pointedPlanet. run_monad.
  destruct (at_index landmarks LANDMARKS.INDEX_TIP) as [indexTip|]; cbn.
  - set (planet := getPlanetAtScreenPosition e _ _).
    destruct (truthy planet) eqn:T; cbn.
    + destruct (Planet_eqb (hoveredPlanet (this r)) planet) eqn:Q; cbn.
      * intros Hh. split_ifs; intros Hn; cbn in Hn; congruence.
      * intros _. split_ifs; intros Hn; cbn in Hn; rewrite Hn in T; discriminate T.
    + intros _ _. eauto.
  - intros Hh Hn. congruence.
Qed.

(** C10.  A frame of 21 points whose label is not point leaves the hover
    target as it was and makes no call that moves the scene's highlight; and
    an operation that turns a hover target into none is [onHandLost] or a
    frame classified as point whose hit test answers no planet. *)
Theorem hover_survives_other_gestures :
  (forall (landmarks : Landmarks) (e : Env) (c : Controller) (g : Gesture),
     wellFormed landmarks ->
     label landmarks = Some g ->
     g <> point ->
     let o := exec (processHand (Some landmarks)) e c in
     hoveredPlanet (after o) = hoveredPlanet c /\
     forall s, SolarSystem.performAll (issued o) s = s) /\
  (forall (e : Env) (op : Op) (c : Controller),
     hoveredPlanet c <> None ->
     hoveredPlanet (step c (e, op)) = None ->
     op = onHandLostOp \/
     exists landmarks hit,
       op = processHandOp (Some landmarks) /\
       label landmarks = Some point /\
       pointedPlanet e landmarks = Some hit /\
       truthy hit = false).
Proof.
  split.
  - intros landmarks e c g H Hg Hne.
    destruct (wellFormed_readings landmarks H) as (center & d & g' & Hc & Hd & Hg').
    rewrite (processHand_exec landmarks e c center d g Hc Hd Hg). cbv zeta.
    cbn [after issued].
    destruct (handleGesture_keeps_hover landmarks g e
                (beforeHandle e center d g c) Hne) as (E1 & E2).
    rewrite E1, hoveredPlanet_beforeHandle. split; [reflexivity|].
    intros s. rewrite E2. apply performAll_beforeHandle.
  - intros e op c Hh. unfold step. cbn [fst snd].
    destruct op as [[landmarks|]| | | | | | |]; cbn [method].
    + destruct (processHand_cases landmarks e c)
        as [(c' & -> & [-> | (center & ->)]) | (center & d & g & Hc & Hd & Hg & ->)];
        cbn; try congruence.
      destruct (Gesture_eqb g point) eqn:E.
      * destruct g; try discriminate E. cbn [handleGesture].
        intros Hn. right.
        destruct (handlePoint_clears landmarks e (beforeHandle e center d point c))
          as (hit & Hp & Ht).
        { rewrite hoveredPlanet_beforeHandle. assumption. }
        { assumption. }
        exists landmarks, hit. auto.
      * destruct (handleGesture_keeps_hover landmarks g e
                    (beforeHandle e center d g c)) as (E1 & _).
        { intros ->. discriminate E. }
        rewrite E1, hoveredPlanet_beforeHandle. congruence.
    + cbn. congruence.
    + auto.
    + cbn. congruence.
    + cbn. congruence.
    + cbn. congruence.
    + cbn. congruence.
    + cbn. congruence.
    + cbn. congruence.
Qed.

Lemma hover_survives_other_gestures_witness :
  hoveredPlanet
    (after (exec (processHand (Some fistHand)) (still 0 None)
              (set_hoveredPlanet (Some "earth"%string) constructor)))
  = Some "earth"%string /\
  (onHandLostOp = onHandLostOp \/
   exists landmarks hit,
     onHandLostOp = processHandOp (Some landmarks) /\
     label landmarks = Some point /\
     pointedPlanet (still 0 None) landmarks = Some hit /\
     truthy hit = false).
Proof.
  split.
  - apply (proj1 hover_survives_other_gestures fistHand (still 0 None)
             (set_hoveredPlanet (Some "earth"%string) constructor) fist).
    + reflexivity.
    + apply label_fistHand.
    + discriminate.
  - apply (proj2 hover_survives_other_gestures (still 0 None) onHandLostOp
             (set_hoveredPlanet (Some "earth"%string) constructor)).
    + discriminate.
    + reflexivity.
Defined.

(** ** Hand lost and missing frames *)

Lemma handlePoint_hover_target (landmarks : Landmarks) (e : Env) (r : Run) :
  hoverTargetOk (this r) ->
  hoverTargetOk (this (snd (handlePoint landmarks e r))).
Proof.
  unfold hoverTargetOk, handlePoint. run_monad.
  destruct (at_index landmarks LANDMARKS.INDEX_TIP) as [indexTip|]; cbn; [|auto].
  set (planet := getPlanetAtScreenPosition e _ _).
  destruct (truthy planet) eqn:T; cbn.
  - destruct (Planet_eqb (hoveredPlanet (this r)) planet) eqn:Q; cbn;
      intros H; split_ifs; auto.
  - intros [H | H].
    + rewrite H. cbn. auto.
    + rewrite H. cbn. auto.
Qed.

Lemma step_hover_target (e : Env) (op : Op) (c : Controller) :
  hoverTargetOk c -> hoverTargetOk (step c (e, op)).
Proof.
  intros H. unfold step. cbn [fst snd].
  destruct op as [[landmarks|]| | | | | | |]; cbn [method]; try exact H.
  - destruct (processHand_cases landmarks e c)
      as [(c' & -> & [-> | (center & ->)]) | (center & d & g & Hc & Hd & Hg & ->)];
      try exact H.
    cbv zeta. cbn [after].
    assert (H0 : hoverTargetOk (this (beforeHandle e center d g c))).
    { unfold hoverTargetOk. rewrite hoveredPlanet_beforeHandle. exact H. }
    destruct (Gesture_eqb g point) eqn:E.
    + destruct g; try discriminate E. cbn [handleGesture].
      apply handlePoint_hover_target. exact H0.
    + destruct (handleGesture_keeps_hover landmarks g e
                  (beforeHandle e center d g c)) as (E1 & _).
      { intros ->. discriminate E. }
      unfold hoverTargetOk. rewrite E1. exact H0.
  - unfold hoverTargetOk, exec, onHandLost. run_monad.
    destruct (truthy (hoveredPlanet c)) eqn:T; cbn; auto.
Qed.

(** Every controller reached from the constructor keeps the invariant. *)
Lemma reachable_hover_target (xs : list (Env * Op)) :
  hoverTargetOk (fold_left step xs constructor).
Proof.
  assert (G : forall c, hoverTargetOk c -> hoverTargetOk (fold_left step xs c)).
  { induction xs as [|[e op] xs IH]; intros c H; [exact H|].
    cbn [fold_left]. apply IH, step_hover_target, H. }
  apply G. left. reflexivity.
Qed.

(** C7.  [onHandLost] returns, sets the current gesture to none and the
    pinch flag to off, and, when a planet is hovered, tells the scene to
    clear the highlight and forgets the hover target; it writes no other
    field, so the selected and the following planet stay, and the scene's
    highlight ends cleared.  On every controller reached from the
    constructor the hover target is none afterwards. *)
Theorem onHandLost_effect (e : Env) (c : Controller) :
  let o := exec onHandLost e c in
  returned o = Some tt /\
  currentGesture (after o) = None /\
  isPinching (after o) = false /\
  hoveredPlanet (after o)
  = (if truthy (hoveredPlanet c) then None else hoveredPlanet c) /\
  truthy (hoveredPlanet (after o)) = false /\
  issued o = (if truthy (hoveredPlanet c) then [highlightPlanet None] else []) /\
  (forall s : SolarSystem.Scene,
     SolarSystem.hovered (SolarSystem.performAll (issued o) s)
     = if truthy (hoveredPlanet c) then None else SolarSystem.hovered s) /\
  selectedPlanet (after o) = selectedPlanet c /\
  followingPlanet (after o) = followingPlanet c /\
  after o
  = set_hoveredPlanet (hoveredPlanet (after o))
      (set_isPinching false (set_currentGesture None c)) /\
  (forall xs : list (Env * Op),
     hoveredPlanet (after (exec onHandLost e (fold_left step xs constructor)))
     = None).
Proof.
  cbv zeta. repeat split.
  1-10: unfold exec, onHandLost; run_monad;
    destruct (truthy (hoveredPlanet c)) eqn:E; cbn; rewrite ?E; reflexivity.
  intros xs. destruct (reachable_hover_target xs) as [H | H];
    unfold exec, onHandLost; run_monad; rewrite ?H; cbn; auto.
Qed.

(** C8.  A null or missing landmark argument: [processHand] returns without
    raising, leaves every field of the controller as it was, and issues no
    call and no event. *)
Theorem processHand_null (e : Env) (c : Controller) :
  let o := exec (processHand None) e c in
  returned o = Some tt /\
  after o = c /\
  issued o = [] /\
  step c (e, processHandOp None) = c /\
  forall s : SolarSystem.Scene, SolarSystem.performAll (issued o) s = s.
Proof.
  unfold step, exec, processHand, ret. cbn.
  repeat split.
Qed.

(** ** The following planet *)

(** A handler leaves [following] as it was, clears it, or sets it to the
    selected planet. *)
Lemma handleGesture_following (landmarks : Landmarks) (g : Gesture) (e : Env)
    (r : Run) :
  let r' := snd (handleGesture landmarks g e r) in
  followingPlanet (this r') = followingPlanet (this r) \/
  followingPlanet (this r') = None \/
  followingPlanet (this r') = selectedPlanet (this r).
Proof.
  destruct g; open_handlers.
  - auto.
  - destruct (at_index landmarks LANDMARKS.THUMB_TIP); cbn; [|auto].
    destruct (at_index landmarks LANDMARKS.INDEX_TIP); cbn; auto.
  - split_ifs; auto.
  - destruct (at_index landmarks LANDMARKS.INDEX_TIP); cbn; [|auto].
    split_ifs; auto.
  - split_ifs; auto.
Qed.

Lemma step_following (e : Env) (op : Op) (c : Controller) :
  isManualFollow op = false ->
  followingPlanet (step c (e, op)) = followingPlanet c \/
  followingPlanet (step c (e, op)) = None \/
  followingPlanet (step c (e, op)) = selectedPlanet c.
Proof.
  intros Hop. unfold step. cbn [fst snd].
  destruct op as [[landmarks|]| | | | | | |]; cbn [method]; try discriminate Hop;
    try (cbn; auto; fail).
  - destruct (processHand_cases landmarks e c)
      as [(c' & -> & [-> | (center & ->)]) | (center & d & g & Hc & Hd & Hg & ->)];
      cbn; auto.
    pose proof (handleGesture_following landmarks g e (beforeHandle e center d g c)) as F.
    cbv zeta in F.
    rewrite followingPlanet_beforeHandle, selectedPlanet_beforeHandle in F.
    exact F.
  - left. unfold exec, onHandLost. run_monad.
    destruct (truthy (hoveredPlanet c)); reflexivity.
Qed.

Lemma following_in_history (xs : list (Env * Op)) :
  forallb (fun x => negb (isManualFollow (snd x))) xs = true ->
  forall (c : Controller) (sel : list (option Planet)),
    followingPlanet c = None \/ In (followingPlanet c) sel
    \/ followingPlanet c = selectedPlanet c ->
    let c' := fold_left step xs c in
    followingPlanet c' = None \/
    In (followingPlanet c') (sel ++ map selectedPlanet (visited xs c)).
Proof.
  induction xs as [|[e op] xs IH]; intros Hxs c sel Hc.
  - cbn. destruct Hc as [Hc | [Hc | Hc]]; auto.
    + right. apply in_or_app. auto.
    + right. apply in_or_app. right. left. congruence.
  - cbn in Hxs. apply andb_true_iff in Hxs. destruct Hxs as (Hop & Hxs).
    apply negb_true_iff in Hop.
    specialize (IH Hxs (step c (e, op)) (sel ++ [selectedPlanet c])).
    cbv zeta in IH. rewrite <- app_assoc in IH.
    cbn [fold_left visited map]. apply IH.
    destruct (step_following e op c Hop) as [F | [F | F]]; rewrite F.
    + destruct Hc as [Hc | [Hc | Hc]]; auto.
      * right. left. apply in_or_app. auto.
      * right. left. apply in_or_app. right. left. congruence.
    + auto.
    + right. left. apply in_or_app. right. left. reflexivity.
Qed.

(** C4, as the code has it.  After any sequence of operations from the
    constructor's state that does not call [manualFollowPlanet], the
    following planet is none or is the selected planet of a controller the
    sequence went through; [manualFollowPlanet] itself sets the following
    planet to its argument, selected or not. *)
Theorem following_was_selected :
  (forall xs : list (Env * Op),
     forallb (fun x => negb (isManualFollow (snd x))) xs = true ->
     let c' := fold_left step xs constructor in
     followingPlanet c' = None \/
     In (followingPlanet c') (map selectedPlanet (visited xs constructor))) /\
  (forall (e : Env) (planetName : option Planet) (c : Controller),
     followingPlanet (step c (e, manualFollowPlanetOp planetName)) = planetName /\
     selectedPlanet (step c (e, manualFollowPlanetOp planetName))
     = selectedPlanet c).
Proof.
  split.
  - intros xs Hxs.
    apply (following_in_history xs Hxs constructor []).
    left. reflexivity.
  - intros e planetName c. split; reflexivity.
Qed.

(** C4 as stated fails: [manualFollowPlanet] makes the controller follow a
    planet that was never selected. *)
Lemma following_never_selected :
  let xs := [(still 0 None, manualFollowPlanetOp (Some "mars"%string))] in
  followingPlanet (fold_left step xs constructor) = Some "mars"%string /\
  map selectedPlanet (visited xs constructor) = [None; None].
Proof. split; reflexivity. Qed.

Lemma following_was_selected_witness :
  let xs := [(still 0 None, manualSelectPlanetOp (Some "earth"%string));
             (still 0 None, processHandOp (Some fistHand));
             (still 600 None, processHandOp (Some fistHand))] in
  forallb (fun x => negb (isManualFollow (snd x))) xs = true /\
  (followingPlanet (fold_left step xs constructor) = None \/
   In (followingPlanet (fold_left step xs constructor))
     (map selectedPlanet (visited xs constructor))).
Proof.
  split; [reflexivity|].
  apply (proj1 following_was_selected). reflexivity.
Defined.

(** ** Dwell selection *)

Lemma Planet_eqb_eq (p q : option Planet) : Planet_eqb p q = true <-> p = q.
Proof.
  destruct p as [a|], q as [b|]; cbn; split; intros H;
    try discriminate; try reflexivity.
  - apply String.eqb_eq in H. congruence.
  - injection H as ->. apply String.eqb_refl.
Qed.

Lemma Planet_eqb_neq (p q : option Planet) : Planet_eqb p q = false <-> p <> q.
Proof.
  split.
  - intros H E. apply Planet_eqb_eq in E. congruence.
  - intros H. destruct (Planet_eqb p q) eqn:E; [|reflexivity].
    apply Planet_eqb_eq in E. contradiction.
Qed.

Lemma planetSelectedEmitted_app (xs ys : list Call) :
  planetSelectedEmitted (xs ++ ys)
  = planetSelectedEmitted xs ++ planetSelectedEmitted ys.
Proof. apply flat_map_app. Qed.

(** [handlePoint] over a planet: the hover target, the dwell clock, and the
    selection it commits. *)
Lemma handlePoint_hit (landmarks : Landmarks) (e : Env) (r : Run)
    (planet : option Planet) :
  pointedPlanet e landmarks = Some planet ->
  truthy planet = true ->
  let r' := snd (handlePoint landmarks e r) in
  let commit := ((1500 <? hoverDuration (this r'))%Z
                 && negb (Planet_eqb (selectedPlanet (this r)) planet))%bool in
  fst (handlePoint landmarks e r) = Some tt /\
  hoveredPlanet (this r') = planet /\
  hoverStartTime (this r')
  = (if Planet_eqb (hoveredPlanet (this r)) planet then hoverStartTime (this r)
     else Date_now_at e (clock_reads r)) /\
  hoverDuration (this r')
  = (Date_now_at e (if Planet_eqb (hoveredPlanet (this r)) planet
                    then clock_reads r else S (clock_reads r))
     - hoverStartTime (this r'))%Z /\
  selectedPlanet (this r') = (if commit then planet else selectedPlanet (this r)) /\
  followingPlanet (this r') = followingPlanet (this r) /\
  planetSelectedEmitted (calls r')
  = planetSelectedEmitted (calls r) ++ (if commit then [planet] else []).
Proof.
  unfold pointedPlanet, handlePoint. run_monad.
  destruct (at_index landmarks LANDMARKS.INDEX_TIP) as [indexTip|]; cbn;
    [|discriminate].
  intros [= <-] T. rewrite T. cbn.
  set (planet := getPlanetAtScreenPosition e _ _).
  destruct (Planet_eqb (hoveredPlanet (this r)) planet) eqn:Q; cbn.
  - apply Planet_eqb_eq in Q.
    destruct ((1500 <? Date_now_at e (clock_reads r) - hoverStartTime (this r))%Z
              && negb (Planet_eqb (selectedPlanet (this r)) planet))%bool eqn:K;
      cbn; rewrite ?K; repeat split; auto;
      rewrite ?planetSelectedEmitted_app; cbn; rewrite ?app_nil_r; reflexivity.
  - destruct ((1500 <? Date_now_at e (S (clock_reads r))
                       - Date_now_at e (clock_reads r))%Z
              && negb (Planet_eqb (selectedPlanet (this r)) planet))%bool eqn:K;
      cbn; rewrite ?K; repeat split; auto;
      rewrite ?planetSelectedEmitted_app; cbn; rewrite ?app_nil_r; reflexivity.
Qed.

Lemma planetSelectedEmitted_beforeHandle (e : Env) (center : Vec2) (d : R)
    (g : Gesture) (c : Controller) :
  planetSelectedEmitted (calls (beforeHandle e center d g c)) = [].
Proof.
  rewrite calls_beforeHandle. destruct (same_gesture g (currentGesture c)); reflexivity.
Qed.

(** One frame classified as point over a planet. *)
Lemma point_frame (p : Planet) (e : Env) (landmarks : Landmarks) (c : Controller) :
  truthy (Some p) = true ->
  pointsAt p (e, landmarks) ->
  let o := exec (processHand (Some landmarks)) e c in
  let commit := ((1500 <? hoverDuration (after o))%Z
                 && negb (Planet_eqb (selectedPlanet c) (Some p)))%bool in
  returned o = Some tt /\
  hoveredPlanet (after o) = Some p /\
  (exists k k',
     hoverStartTime (after o)
     = (if Planet_eqb (hoveredPlanet c) (Some p) then hoverStartTime c
        else Date_now_at e k) /\
     hoverDuration (after o) = (Date_now_at e k' - hoverStartTime (after o))%Z) /\
  selectedPlanet (after o) = (if commit then Some p else selectedPlanet c) /\
  followingPlanet (after o) = followingPlanet c /\
  planetSelectedEmitted (issued o) = (if commit then [Some p] else []).
Proof.
  intros T (H & Hg & Hp). cbn [fst snd] in *.
  destruct (wellFormed_readings landmarks H) as (center & d & g & Hc & Hd & _).
  rewrite (processHand_exec landmarks e c center d point Hc Hd Hg).
  cbv zeta. cbn [handleGesture returned after issued].
  destruct (handlePoint_hit landmarks e (beforeHandle e center d point c)
              (Some p) Hp T) as (R0 & R1 & R2 & R3 & R4 & R5 & R6).
  rewrite hoveredPlanet_beforeHandle, hoverStartTime_beforeHandle in R2.
  rewrite hoveredPlanet_beforeHandle in R3.
  rewrite selectedPlanet_beforeHandle in R4.
  rewrite followingPlanet_beforeHandle in R5.
  rewrite selectedPlanet_beforeHandle, planetSelectedEmitted_beforeHandle in R6.
  repeat split; try assumption.
  eexists _, _. split; [exact R2 | exact R3].
Qed.

(** Once the planet is selected, frames pointing at it emit no selection. *)
Lemma dwell_when_selected (p : Planet) (frames : list (Env * Landmarks)) :
  truthy (Some p) = true ->
  Forall (pointsAt p) frames ->
  forall c : Controller,
    selectedPlanet c = Some p ->
    planetSelectedEmitted (flat_map issued (processFrames frames c)) = [].
Proof.
  intros T HF. induction HF as [|[e landmarks] frames Hf _ IH]; intros c Hs.
  - reflexivity.
  - cbn [processFrames flat_map]. rewrite planetSelectedEmitted_app.
    destruct (point_frame p e landmarks c T Hf) as (_ & _ & _ & S1 & _ & S2).
    rewrite Hs in S1, S2.
    rewrite (proj2 (Planet_eqb_eq (Some p) (Some p)) eq_refl) in S1, S2.
    rewrite andb_false_r in S1, S2.
    rewrite S2, IH; [reflexivity | exact S1].
Qed.

Lemma dwell_when_unselected (p : Planet) (frames : list (Env * Landmarks)) :
  truthy (Some p) = true ->
  Forall (pointsAt p) frames ->
  forall c : Controller,
    selectedPlanet c <> Some p ->
    planetSelectedEmitted (flat_map issued (processFrames frames c))
    = if existsb (fun o => (1500 <? hoverDuration (after o))%Z)
           (processFrames frames c)
      then [Some p] else [].
Proof.
  intros T HF. induction HF as [|[e landmarks] frames Hf HF IH]; intros c Hs.
  - reflexivity.
  - cbn [processFrames flat_map existsb]. rewrite planetSelectedEmitted_app.
    destruct (point_frame p e landmarks c T Hf) as (_ & _ & _ & S1 & _ & S2).
    rewrite (proj2 (Planet_eqb_neq (selectedPlanet c) (Some p)) Hs) in S1, S2.
    rewrite andb_true_r in S1, S2.
    set (o := exec (processHand (Some landmarks)) e c) in *.
    destruct (1500 <? hoverDuration (after o))%Z; cbn [orb].
    + rewrite S2, (dwell_when_selected p frames T HF _ S1). reflexivity.
    + rewrite S2, IH; [reflexivity | rewrite S1; exact Hs].
Qed.

(** C3, as the code has it.  Over frames classified as point that all hit
    the same planet, a frame whose hover duration is at most 1500 ms emits no
    [planetSelected]; and when the planet is not the selected one at the
    start, the whole run emits no [planetSelected] if no frame's hover
    duration exceeds 1500 ms and exactly one, carrying that planet, if some
    frame's does; when the planet is already selected no frame emits one. *)
Theorem dwell_selection (p : Planet) (frames : list (Env * Landmarks))
    (c : Controller) :
  truthy (Some p) = true ->
  Forall (pointsAt p) frames ->
  let os := processFrames frames c in
  Forall (fun o => (hoverDuration (after o) <= 1500)%Z ->
                   planetSelectedEmitted (issued o) = []) os /\
  (selectedPlanet c <> Some p ->
   planetSelectedEmitted (flat_map issued os)
   = if existsb (fun o => (1500 <? hoverDuration (after o))%Z) os
     then [Some p] else []) /\
  (selectedPlanet c = Some p ->
   planetSelectedEmitted (flat_map issued os) = []).
Proof.
  intros T HF. cbv zeta. split; [|split].
  - revert c. induction HF as [|[e landmarks] frames Hf HF IH]; intros c.
    + constructor.
    + cbn [processFrames]. constructor; [|apply IH].
      intros Hd.
      destruct (point_frame p e landmarks c T Hf) as (_ & _ & _ & _ & _ & S2).
      rewrite S2. apply Z.ltb_ge in Hd. rewrite Hd. reflexivity.
  - apply dwell_when_unselected; assumption.
  - apply dwell_when_selected; assumption.
Qed.

Lemma pointsAt_dwellFrames : Forall (pointsAt "earth"%string) dwellFrames.
Proof.
  repeat constructor; cbn [fst snd]; apply label_pointHand.
Qed.

Lemma dwellFrames_durations (c : Controller) :
  hoveredPlanet c = None ->
  map (fun o => hoverDuration (after o)) (processFrames dwellFrames c)
  = [0%Z; 2000%Z].
Proof.
  intros Hh. pose proof pointsAt_dwellFrames as HF.
  inversion HF as [|f1 fs1 Hf1 HF1]; subst.
  inversion HF1 as [|f2 fs2 Hf2 _]; subst.
  unfold dwellFrames. cbn [processFrames map].
  destruct (point_frame "earth"%string _ _ c eq_refl Hf1)
    as (_ & A1 & (k1 & k1' & A2 & A3) & _).
  remember (exec (processHand (Some pointHand)) (still 0 (Some "earth"%string)) c)
    as o1 eqn:Eo1. clear Eo1.
  destruct (point_frame "earth"%string _ _ (after o1) eq_refl Hf2)
    as (_ & B1 & (k2 & k2' & B2 & B3) & _).
  remember (exec (processHand (Some pointHand)) (still 2000 (Some "earth"%string))
              (after o1)) as o2 eqn:Eo2. clear Eo2.
  rewrite Hh in A2. cbn in A2. rewrite A2 in A3. cbn in A3.
  rewrite A1 in B2. cbn in B2.
  rewrite B2, A2 in B3. cbn in B3.
  rewrite A3, B3. reflexivity.
Qed.

Lemma existsb_durations (os : list (Outcome unit)) :
  existsb (fun o => (1500 <? hoverDuration (after o))%Z) os
  = existsb (fun d => (1500 <? d)%Z) (map (fun o => hoverDuration (after o)) os).
Proof.
  induction os as [|o os IH]; [reflexivity|]. cbn [existsb map]. rewrite IH. reflexivity.
Qed.

Lemma dwell_selection_witness :
  truthy (Some "earth"%string) = true /\
  Forall (pointsAt "earth"%string) dwellFrames /\
  selectedPlanet constructor <> Some "earth"%string /\
  map (fun o => hoverDuration (after o)) (processFrames dwellFrames constructor)
  = [0%Z; 2000%Z] /\
  planetSelectedEmitted (flat_map issued (processFrames dwellFrames constructor))
  = [Some "earth"%string].
Proof.
  assert (D := dwellFrames_durations constructor eq_refl).
  assert (N : selectedPlanet constructor <> Some "earth"%string) by discriminate.
  split; [reflexivity|]. split; [exact pointsAt_dwellFrames|].
  split; [exact N|]. split; [exact D|].
  destruct (dwell_selection "earth"%string dwellFrames constructor eq_refl
              pointsAt_dwellFrames) as (_ & E & _).
  rewrite (E N), existsb_durations, D. reflexivity.
Defined.

(** C3 as stated fails: the finger dwells two seconds over Earth, which is
    already the selected planet, and no [planetSelected] is emitted. *)
Lemma dwell_over_selected_planet :
  Forall (pointsAt "earth"%string) dwellFrames /\
  selectedPlanet earthSelected = Some "earth"%string /\
  map (fun o => hoverDuration (after o)) (processFrames dwellFrames earthSelected)
  = [0%Z; 2000%Z] /\
  planetSelectedEmitted (flat_map issued (processFrames dwellFrames earthSelected))
  = [].
Proof.
  split; [exact pointsAt_dwellFrames|]. split; [reflexivity|].
  split; [apply dwellFrames_durations; reflexivity|].
  apply (dwell_when_selected "earth"%string dwellFrames eq_refl pointsAt_dwellFrames).
  reflexivity.
Qed.

(** ** The follow toggle *)

Lemma gestureStartTime_beforeHandle (e : Env) (center : Vec2) (d : R)
    (g : Gesture) (c : Controller) :
  gestureStartTime (this (beforeHandle e center d g c))
  = if same_gesture g (currentGesture c) then gestureStartTime c
    else Date_now_at e 0.
Proof.
  unfold beforeHandle, timed. rewrite currentGesture_afterDetect.
  unfold tracked; cbn. destruct (same_gesture g (currentGesture c)); cbn.
  - unfold afterDetect. split_ifs; reflexivity.
  - reflexivity.
Qed.

(** One frame classified as fist: the gesture clock, and one toggle of
    [following] whenever the duration is inside the window. *)
Lemma fist_frame (e : Env) (landmarks : Landmarks) (c : Controller) :
  wellFormed landmarks ->
  label landmarks = Some fist ->
  let o := exec (processHand (Some landmarks)) e c in
  returned o = Some tt /\
  currentGesture (after o) = Some fist /\
  gestureStartTime (after o)
  = (if same_gesture fist (currentGesture c) then gestureStartTime c
     else Date_now_at e 0) /\
  gestureDuration (after o)
  = (if same_gesture fist (currentGesture c)
     then (Date_now_at e 0 - gestureStartTime c)%Z
     else (Date_now_at e 1 - Date_now_at e 0)%Z) /\
  selectedPlanet (after o) = selectedPlanet c /\
  followingPlanet (after o)
  = (if ((500 <? gestureDuration (after o))%Z
         && (gestureDuration (after o) <? 700)%Z)%bool
     then toggledOnce c else followingPlanet c).
Proof.
  intros H Hg.
  destruct (wellFormed_readings landmarks H) as (center & d & g & Hc & Hd & _).
  rewrite (processHand_exec landmarks e c center d fist Hc Hd Hg).
  cbv zeta. cbn [handleGesture returned after issued].
  pose proof (gestureDuration_beforeHandle e center d fist c) as D.
  pose proof (gestureStartTime_beforeHandle e center d fist c) as S0.
  pose proof (currentGesture_beforeHandle e center d fist c) as G.
  pose proof (selectedPlanet_beforeHandle e center d fist c) as S1.
  pose proof (followingPlanet_beforeHandle e center d fist c) as F.
  remember (beforeHandle e center d fist c) as r eqn:Er. clear Er.
  unfold toggledOnce. rewrite <- D, <- S0, <- S1, <- F.
  unfold handleFist. run_monad.
  destruct ((500 <? gestureDuration (this r))%Z
            && (gestureDuration (this r) <? 700)%Z)%bool eqn:W; cbn.
  - destruct (truthy (selectedPlanet (this r))) eqn:T; cbn.
    + destruct (Planet_eqb (followingPlanet (this r)) (selectedPlanet (this r)));
        cbn; rewrite W; repeat split; assumption.
    + rewrite W. repeat split; assumption.
  - rewrite W. repeat split; assumption.
Qed.

Lemma fist_hold_step (t : Z) (c : Controller) :
  currentGesture c = Some fist ->
  let o := exec (processHand (Some fistHand)) (still t None) c in
  currentGesture (after o) = Some fist /\
  gestureStartTime (after o) = gestureStartTime c /\
  gestureDuration (after o) = (t - gestureStartTime c)%Z /\
  selectedPlanet (after o) = selectedPlanet c /\
  followingPlanet (after o)
  = (if ((500 <? t - gestureStartTime c)%Z && (t - gestureStartTime c <? 700)%Z)%bool
     then toggledOnce c else followingPlanet c).
Proof.
  intros Hg.
  destruct (fist_frame (still t None) fistHand c (wellFormed_hand _ _ _ _ _ _ _ _)
              label_fistHand) as (_ & A1 & A2 & A3 & A4 & A5).
  cbv zeta.
  remember (exec (processHand (Some fistHand)) (still t None) c) as o eqn:E.
  clear E. rewrite Hg in A2, A3. cbn in A2, A3. rewrite A3 in A5.
  repeat split; assumption.
Qed.

Lemma processFrames_cons (e : Env) (landmarks : Landmarks)
    (frames : list (Env * Landmarks)) (c : Controller) :
  processFrames ((e, landmarks) :: frames) c
  = exec (processHand (Some landmarks)) e c
    :: processFrames frames (after (exec (processHand (Some landmarks)) e c)).
Proof. reflexivity. Qed.

(** A fist hold in progress, frame after frame. *)
Lemma fist_hold_run (ts : list Z) :
  forall c : Controller,
    currentGesture c = Some fist ->
    map (fun o => (gestureDuration (after o), followingPlanet (after o)))
      (processFrames (map (fun t => (still t None, fistHand)) ts) c)
    = holdTrace (gestureStartTime c) (selectedPlanet c) (followingPlanet c) ts.
Proof.
  induction ts as [|t ts IH]; intros c Hg; [reflexivity|].
  cbn [map processFrames holdTrace].
  destruct (fist_hold_step t c Hg) as (B1 & B2 & B3 & B4 & B5).
  rewrite (IH _ B1), B2, B3, B4, B5. unfold toggledOnce. reflexivity.
Qed.

(** C2, on the code.  Earth is selected and a fist is held, sampled every
    80 ms: the frames at 560 ms and at 640 ms into the hold both fall in the
    window, each toggles [following], and the hold ends following nothing,
    where one toggle would leave the controller following Earth. *)
Lemma follow_toggle_fires_twice :
  let os := processFrames fistHold earthSelected in
  Forall (fun f => wellFormed (snd f) /\ label (snd f) = Some fist) fistHold /\
  selectedPlanet earthSelected = Some "earth"%string /\
  followingPlanet earthSelected = None /\
  map (fun o => (gestureDuration (after o), followingPlanet (after o))) os
  = [ (0, None); (80, None); (160, None); (240, None); (320, None);
      (400, None); (480, None); (560, Some "earth"%string); (640, None);
      (720, None) ]%Z /\
  toggledOnce earthSelected = Some "earth"%string.
Proof.
  cbv zeta.
  split; [repeat constructor; apply label_fistHand|].
  split; [reflexivity|]. split; [reflexivity|]. split; [|reflexivity].
  unfold fistHold. cbn [map]. rewrite processFrames_cons. cbn [map].
  destruct (fist_frame (still 1000 None) fistHand earthSelected
              (wellFormed_hand _ _ _ _ _ _ _ _) label_fistHand)
    as (_ & A1 & A2 & A3 & A4 & A5).
  remember (exec (processHand (Some fistHand)) (still 1000 None) earthSelected)
    as o1 eqn:E1. clear E1.
  cbn in A2, A3, A4. rewrite A3 in A5. cbn in A5.
  pose proof (fist_hold_run
                [1080; 1160; 1240; 1320; 1400; 1480; 1560; 1640; 1720]%Z
                (after o1) A1) as R.
  cbn [map] in R. rewrite R, A2, A3, A4, A5. reflexivity.
Qed.

(** * Further properties of the controller *)

(** ** Frames with too few points *)

Lemma at_index_in_range (landmarks : Landmarks) (i : nat) :
  (i < List.length landmarks)%nat -> exists p, at_index landmarks i = Some p.
Proof.
  intros H. unfold at_index.
  destruct (nth_error landmarks i) as [p|] eqn:E; [eauto|].
  apply nth_error_None in E. apply Nat.lt_nge in H. contradiction.
Qed.

Lemma at_index_out_of_range (landmarks : Landmarks) (i : nat) :
  (List.length landmarks <= i)%nat -> at_index landmarks i = None.
Proof. intros H. apply nth_error_None. exact H. Qed.

(** With 21 points or more every reading of a frame succeeds. *)
Lemma enough_points_readings (landmarks : Landmarks) :
  (21 <= List.length landmarks)%nat ->
  exists center d g thumbTip indexTip,
    getPalmCenter landmarks = Some center /\
    pinchReading landmarks = Some d /\
    label landmarks = Some g /\
    at_index landmarks LANDMARKS.THUMB_TIP = Some thumbTip /\
    at_index landmarks LANDMARKS.INDEX_TIP = Some indexTip.
Proof.
  intros H.
  assert (A : forall i, (i <= 20)%nat -> exists p, at_index landmarks i = Some p).
  { intros i Hi. apply at_index_in_range.
    apply Nat.le_lt_trans with (m := 20%nat); [exact Hi | exact H]. }
  unfold getPalmCenter, label, pinchReading, isThumbExtended, isFingerExtended,
    fingerMap, tip, pip,
    LANDMARKS.WRIST, LANDMARKS.INDEX_MCP, LANDMARKS.PINKY_MCP,
    LANDMARKS.THUMB_TIP, LANDMARKS.THUMB_IP, LANDMARKS.THUMB_MCP,
    LANDMARKS.INDEX_TIP, LANDMARKS.INDEX_PIP, LANDMARKS.MIDDLE_TIP,
    LANDMARKS.MIDDLE_PIP, LANDMARKS.RING_TIP, LANDMARKS.RING_PIP,
    LANDMARKS.PINKY_TIP, LANDMARKS.PINKY_PIP.
  destruct (A 0%nat) as (p0 & ->); [repeat constructor|].
  destruct (A 2%nat) as (p2 & ->); [repeat constructor|].
  destruct (A 3%nat) as (p3 & ->); [repeat constructor|].
  destruct (A 4%nat) as (p4 & ->); [repeat constructor|].
  destruct (A 5%nat) as (p5 & ->); [repeat constructor|].
  destruct (A 6%nat) as (p6 & ->); [repeat constructor|].
  destruct (A 8%nat) as (p8 & ->); [repeat constructor|].
  destruct (A 10%nat) as (p10 & ->); [repeat constructor|].
  destruct (A 12%nat) as (p12 & ->); [repeat constructor|].
  destruct (A 14%nat) as (p14 & ->); [repeat constructor|].
  destruct (A 16%nat) as (p16 & ->); [repeat constructor|].
  destruct (A 17%nat) as (p17 & ->); [repeat constructor|].
  destruct (A 18%nat) as (p18 & ->); [repeat constructor|].
  destruct (A 20%nat) as (p20 & ->); [repeat constructor|].
  repeat eexists.
Qed.

(** With fewer than 21 points the pinky tip is missing and no label is
    reached. *)
Lemma few_points_no_label (landmarks : Landmarks) :
  (List.length landmarks < 21)%nat -> label landmarks = None.
Proof.
  intros H. unfold label.
  assert (E : isFingerExtended landmarks pinky = None).
  { unfold isFingerExtended, fingerMap, tip, LANDMARKS.PINKY_TIP.
    rewrite at_index_out_of_range; [reflexivity|].
    apply Nat.lt_succ_r. exact H. }
  rewrite E.
  destruct (isThumbExtended landmarks); [|reflexivity].
  destruct (isFingerExtended landmarks index); [|reflexivity].
  destruct (isFingerExtended landmarks middle); [|reflexivity].
  destruct (isFingerExtended landmarks ring); reflexivity.
Qed.

(** A handler returns when the two tips it may read are there. *)
Lemma handleGesture_returns (landmarks : Landmarks) (g : Gesture) (e : Env)
    (r : Run) (thumbTip indexTip : Landmark) :
  at_index landmarks LANDMARKS.THUMB_TIP = Some thumbTip ->
  at_index landmarks LANDMARKS.INDEX_TIP = Some indexTip ->
  fst (handleGesture landmarks g e r) = Some tt.
Proof.
  intros Ht Hi. destruct g; open_handlers; rewrite ?Ht, ?Hi; cbn;
    split_ifs; reflexivity.
Qed.

(** X1.  [processHand] returns on every frame of 21 points or more, and on
    a frame of fewer points it raises before anything is classified: no call
    is made, no event is emitted, and only the three hand position fields
    may have been written. *)
Theorem processHand_needs_21_points (landmarks : Landmarks) (e : Env)
    (c : Controller) :
  let o := exec (processHand (Some landmarks)) e c in
  if (21 <=? List.length landmarks)%nat then returned o = Some tt
  else
    returned o = None /\
    issued o = [] /\
    after o
    = set_handVelocity (handVelocity (after o))
        (set_handPosition (handPosition (after o))
           (set_previousHandPosition (previousHandPosition (after o)) c)).
Proof.
  cbv zeta. destruct (21 <=? List.length landmarks)%nat eqn:L.
  - apply Nat.leb_le in L.
    destruct (enough_points_readings landmarks L)
      as (center & d & g & thumbTip & indexTip & Hc & Hd & Hg & Ht & Hi).
    rewrite (processHand_exec landmarks e c center d g Hc Hd Hg).
    cbv zeta. cbn [returned].
    apply (handleGesture_returns landmarks g e _ thumbTip indexTip Ht Hi).
  - apply Nat.leb_gt in L. apply few_points_no_label in L.
    destruct (processHand_cases landmarks e c)
      as [(c' & -> & [-> | (center & ->)]) | (center & d & g & _ & _ & Hg & _)].
    + repeat split.
    + repeat split.
    + congruence.
Qed.

(** ** Gesture events *)

Lemma gestureEmitted_app (xs ys : list Call) :
  gestureEmitted (xs ++ ys) = gestureEmitted xs ++ gestureEmitted ys.
Proof. apply flat_map_app. Qed.

(** A handler emits no gesture event and does not write the gesture
    fields. *)
Lemma handleGesture_gesture_fields (landmarks : Landmarks) (g : Gesture)
    (e : Env) (r : Run) :
  let r' := snd (handleGesture landmarks g e r) in
  gestureEmitted (calls r') = gestureEmitted (calls r) /\
  currentGesture (this r') = currentGesture (this r) /\
  previousGesture (this r') = previousGesture (this r) /\
  gestureStartTime (this r') = gestureStartTime (this r).
Proof.
  destruct g; open_handlers.
  - rewrite gestureEmitted_app. cbn. rewrite app_nil_r. auto.
  - destruct (at_index landmarks LANDMARKS.THUMB_TIP); cbn; [|auto].
    destruct (at_index landmarks LANDMARKS.INDEX_TIP); cbn; [|auto].
    rewrite gestureEmitted_app. cbn. rewrite app_nil_r. auto.
  - split_ifs; rewrite ?gestureEmitted_app; cbn; rewrite ?app_nil_r; auto.
  - destruct (at_index landmarks LANDMARKS.INDEX_TIP); cbn; [|auto].
    split_ifs; rewrite ?gestureEmitted_app; cbn; rewrite ?app_nil_r; auto.
  - split_ifs; rewrite ?gestureEmitted_app; cbn; rewrite ?app_nil_r; auto.
Qed.

Lemma previousGesture_beforeHandle (e : Env) (center : Vec2) (d : R)
    (g : Gesture) (c : Controller) :
  previousGesture (this (beforeHandle e center d g c))
  = if same_gesture g (currentGesture c) then previousGesture c
    else currentGesture c.
Proof.
  unfold beforeHandle, timed. rewrite currentGesture_afterDetect.
  unfold tracked; cbn. destruct (same_gesture g (currentGesture c)); cbn.
  - unfold afterDetect. split_ifs; reflexivity.
  - unfold afterDetect. split_ifs; reflexivity.
Qed.

(** One frame: the gesture event and the gesture fields. *)
Lemma frame_gesture (landmarks : Landmarks) (e : Env) (c : Controller)
    (g : Gesture) :
  label landmarks = Some g ->
  getPalmCenter landmarks <> None ->
  let o := exec (processHand (Some landmarks)) e c in
  gestureEmitted (issued o)
  = (if same_gesture g (currentGesture c) then [] else [g]) /\
  currentGesture (after o) = Some g /\
  previousGesture (after o)
  = (if same_gesture g (currentGesture c) then previousGesture c
     else currentGesture c) /\
  gestureStartTime (after o)
  = (if same_gesture g (currentGesture c) then gestureStartTime c
     else Date_now_at e 0).
Proof.
  intros Hg Hc.
  destruct (getPalmCenter landmarks) as [center|] eqn:Ec; [|congruence].
  destruct (label_pinchReading landmarks g Hg) as (d & Hd).
  rewrite (processHand_exec landmarks e c center d g Ec Hd Hg).
  cbv zeta. cbn [after issued].
  destruct (handleGesture_gesture_fields landmarks g e (beforeHandle e center d g c))
    as (E1 & E2 & E3 & E4).
  rewrite E1, E2, E3, E4.
  rewrite calls_beforeHandle, currentGesture_beforeHandle,
    previousGesture_beforeHandle, gestureStartTime_beforeHandle.
  destruct (same_gesture g (currentGesture c)); auto.
Qed.

Lemma label_getPalmCenter (landmarks : Landmarks) (g : Gesture) :
  label landmarks = Some g -> getPalmCenter landmarks <> None.
Proof.
  intros Hg.
  destruct (Nat.le_gt_cases 21 (List.length landmarks)) as [L | L].
  - destruct (enough_points_readings landmarks L) as (center & _ & _ & _ & _ & Hc & _).
    congruence.
  - apply few_points_no_label in L. congruence.
Qed.

Lemma last_cons_default {A : Type} (x : A) (xs : list A) (d d' y : A) :
  last (x :: xs) d = last (y :: x :: xs) d'.
Proof.
  revert x y. induction xs as [|z xs IH]; intros x y; [reflexivity|].
  change (last (x :: z :: xs) d) with (last (z :: xs) d).
  change (last (y :: x :: z :: xs) d') with (last (x :: z :: xs) d').
  apply IH.
Qed.

(** X2.  Over any sequence of frames whose labels are [labels], the gesture
    events emitted are exactly the labels that differ from the label of the
    frame before (the first one from the current gesture): one event per
    change of label, none while the label repeats; and the run ends with the
    last label as the current gesture. *)
Theorem gesture_events_are_label_changes (frames : list (Env * Landmarks))
    (labels : list Gesture) (c : Controller) :
  map (fun f => label (snd f)) frames = map Some labels ->
  gestureEmitted (flat_map issued (processFrames frames c))
  = labelChanges (currentGesture c) labels /\
  currentGesture (framesEnd frames c) = last (map Some labels) (currentGesture c).
Proof.
  revert labels c.
  induction frames as [|[e landmarks] frames IH]; intros labels c H.
  - destruct labels; [|discriminate H]. split; reflexivity.
  - destruct labels as [|g labels]; [discriminate H|].
    cbn [map snd] in H. injection H as Hg H.
    rewrite processFrames_cons. cbn [flat_map].
    rewrite gestureEmitted_app.
    unfold framesEnd. cbn [fold_left fst snd].
    fold (framesEnd frames (after (exec (processHand (Some landmarks)) e c))).
    destruct (frame_gesture landmarks e c g Hg (label_getPalmCenter landmarks g Hg))
      as (E1 & E2 & _).
    destruct (IH labels (after (exec (processHand (Some landmarks)) e c)) H)
      as (I1 & I2).
    rewrite E1, I1, I2, E2. split; [reflexivity|].
    destruct labels as [|g0 labels]; [reflexivity|].
    cbn [map]. apply last_cons_default.
Qed.

Lemma gesture_events_are_label_changes_witness :
  let frames := [ (still 0 None, fistHand); (still 40 None, fistHand);
                  (still 80 None, pointHand); (still 120 None, fistHand) ] in
  map (fun f => label (snd f)) frames = map Some [fist; fist; point; fist] /\
  gestureEmitted (flat_map issued (processFrames frames constructor))
  = [fist; point; fist].
Proof.
  cbv zeta.
  assert (H : map (fun f => label (snd f))
                [ (still 0 None, fistHand); (still 40 None, fistHand);
                  (still 80 None, pointHand); (still 120 None, fistHand) ]
              = map Some [fist; fist; point; fist]).
  { cbn [map snd]. rewrite label_fistHand, label_pointHand. reflexivity. }
  split; [exact H|].
  rewrite (proj1 (gesture_events_are_label_changes _ _ constructor H)).
  reflexivity.
Defined.

(** ** The view reset *)

Lemma label_palmHand : label palmHand = Some palm.
Proof.
  unfold palmHand, label, pinchReading, isThumbExtended, isFingerExtended,
    getPalmCenter, at_index, hand; cbn.
  rewrite !distance_on_axis.
  replace (Rabs (0.2 - 0.1)) with 0.1 by solve_R.
  replace (Rabs (0.1 - 0)) with 0.1 by solve_R.
  replace (Rabs (0.2 - -0.1)) with 0.3 by solve_R.
  replace (0.1 / 0.1) with 1 by (field; lra).
  destruct (Req_dec_T 0.1 0) as [E | _]; [lra|].
  unfold classify_by_priority, Rgtb. decide_Rltb. reflexivity.
Qed.

(** X3.  A frame classified as palm resets the view exactly when the
    gesture duration it computes lies strictly between 1000 and 1200 ms:
    then it calls [resetView], clears the selected and the following planet
    and emits [cameraReset] and [planetFollowing(null)], on every such
    frame of a hold; otherwise it calls nothing.  Either way the hover
    target and its dwell clock are left as they were. *)
Theorem palm_frame_reset (landmarks : Landmarks) (e : Env) (c : Controller) :
  wellFormed landmarks ->
  label landmarks = Some palm ->
  let o := exec (processHand (Some landmarks)) e c in
  let inWindow := ((1000 <? gestureDuration (after o))%Z
                   && (gestureDuration (after o) <? 1200)%Z)%bool in
  issued o
  = (if same_gesture palm (currentGesture c) then [] else [emit (gesture palm)])
    ++ (if inWindow
        then [resetView; emit cameraReset; emit (planetFollowing None)]
        else []) /\
  selectedPlanet (after o) = (if inWindow then None else selectedPlanet c) /\
  followingPlanet (after o) = (if inWindow then None else followingPlanet c) /\
  hoveredPlanet (after o) = hoveredPlanet c /\
  hoverStartTime (after o) = hoverStartTime c.
Proof.
  intros H Hg.
  destruct (wellFormed_readings landmarks H) as (center & d & g & Hc & Hd & _).
  rewrite (processHand_exec landmarks e c center d palm Hc Hd Hg).
  cbv zeta. cbn [handleGesture after issued].
  pose proof (calls_beforeHandle e center d palm c) as K.
  pose proof (selectedPlanet_beforeHandle e center d palm c) as S1.
  pose proof (followingPlanet_beforeHandle e center d palm c) as F.
  pose proof (hoveredPlanet_beforeHandle e center d palm c) as Hh.
  pose proof (hoverStartTime_beforeHandle e center d palm c) as Hs.
  remember (beforeHandle e center d palm c) as r eqn:Er. clear Er.
  rewrite <- K, <- S1, <- F, <- Hh, <- Hs.
  unfold handlePalm. run_monad.
  destruct ((1000 <? gestureDuration (this r))%Z
            && (gestureDuration (this r) <? 1200)%Z)%bool eqn:W; cbn; rewrite W.
  - repeat split. rewrite <- !app_assoc. reflexivity.
  - rewrite app_nil_r. repeat split.
Qed.

Lemma palm_frame_reset_witness :
  wellFormed palmHand /\
  label palmHand = Some palm /\
  hoveredPlanet
    (after (exec (processHand (Some palmHand)) (still 0 None)
              (set_hoveredPlanet (Some "earth"%string) constructor)))
  = Some "earth"%string.
Proof.
  split; [reflexivity|]. split; [exact label_palmHand|].
  destruct (palm_frame_reset palmHand (still 0 None)
              (set_hoveredPlanet (Some "earth"%string) constructor)
              (wellFormed_hand _ _ _ _ _ _ _ _) label_palmHand)
    as (_ & _ & _ & E & _).
  exact E.
Defined.

(** ** The dwell clock *)

Lemma handleGesture_other_dwell (landmarks : Landmarks) (g : Gesture) (e : Env)
    (r : Run) :
  g <> point ->
  let r' := snd (handleGesture landmarks g e r) in
  hoveredPlanet (this r') = hoveredPlanet (this r) /\
  hoverStartTime (this r') = hoverStartTime (this r) /\
  (selectedPlanet (this r') = selectedPlanet (this r)
   \/ selectedPlanet (this r') = None).
Proof.
  intros Hg. destruct g; try congruence; open_handlers.
  - auto.
  - destruct (at_index landmarks LANDMARKS.THUMB_TIP); cbn; [|auto].
    destruct (at_index landmarks LANDMARKS.INDEX_TIP); cbn; auto.
  - split_ifs; auto.
  - split_ifs; auto.
Qed.

(** Frames other than point keep the hover target and its clock, and never
    select a planet. *)
Lemma other_frames_keep_dwell (p : Planet) (others : list (Env * Landmarks)) :
  Forall otherThanPoint others ->
  forall c : Controller,
    hoveredPlanet c = Some p ->
    selectedPlanet c <> Some p ->
    hoveredPlanet (framesEnd others c) = Some p /\
    hoverStartTime (framesEnd others c) = hoverStartTime c /\
    selectedPlanet (framesEnd others c) <> Some p.
Proof.
  intros HF. induction HF as [|[e landmarks] others Hf _ IH]; intros c Hh Hs.
  - auto.
  - destruct Hf as (W & g & Hg & Hne). cbn [fst snd] in *.
    unfold framesEnd. cbn [fold_left fst snd].
    fold (framesEnd others (after (exec (processHand (Some landmarks)) e c))).
    destruct (wellFormed_readings landmarks W) as (center & d & g' & Hc & Hd & _).
    pose proof (processHand_exec landmarks e c center d g Hc Hd Hg) as E.
    cbv zeta in E.
    destruct (handleGesture_other_dwell landmarks g e
                (beforeHandle e center d g c) Hne) as (A1 & A2 & A3).
    rewrite hoveredPlanet_beforeHandle in A1.
    rewrite hoverStartTime_beforeHandle in A2.
    rewrite selectedPlanet_beforeHandle in A3.
    remember (exec (processHand (Some landmarks)) e c) as o eqn:Eo.
    assert (B1 : hoveredPlanet (after o) = Some p)
      by (rewrite E; cbn [after]; congruence).
    assert (B2 : hoverStartTime (after o) = hoverStartTime c)
      by (rewrite E; cbn [after]; congruence).
    assert (B3 : selectedPlanet (after o) <> Some p).
    { rewrite E; cbn [after]. destruct A3 as [A3 | A3]; rewrite A3;
        [exact Hs | discriminate]. }
    destruct (IH (after o) B1 B3) as (I1 & I2 & I3).
    rewrite I2, B2. auto.
Qed.

(** X4.  The dwell clock is not restarted by leaving the point gesture: if a
    planet is the hover target and is not selected, then after any frames
    of other gestures, the first frame that points at it again when more
    than 1500 ms have passed since the hover began selects it at once. *)
Theorem dwell_clock_survives (p : Planet) (others : list (Env * Landmarks))
    (e : Env) (landmarks : Landmarks) (c : Controller) :
  truthy (Some p) = true ->
  hoveredPlanet c = Some p ->
  selectedPlanet c <> Some p ->
  Forall otherThanPoint others ->
  pointsAt p (e, landmarks) ->
  (forall k, (1500 < Date_now_at e k - hoverStartTime c)%Z) ->
  let o := exec (processHand (Some landmarks)) e (framesEnd others c) in
  planetSelectedEmitted (issued o) = [Some p] /\
  selectedPlanet (after o) = Some p /\
  hoverStartTime (after o) = hoverStartTime c.
Proof.
  intros T Hh Hs HF Hp Hk.
  destruct (other_frames_keep_dwell p others HF c Hh Hs) as (A1 & A2 & A3).
  destruct (point_frame p e landmarks (framesEnd others c) T Hp)
    as (_ & _ & (k & k' & B1 & B2) & B3 & _ & B4).
  cbv zeta.
  remember (exec (processHand (Some landmarks)) e (framesEnd others c)) as o eqn:Eo.
  rewrite A1 in B1.
  rewrite (proj2 (Planet_eqb_eq (Some p) (Some p)) eq_refl) in B1.
  rewrite A2 in B1. rewrite B1 in B2.
  assert (D : (1500 <? hoverDuration (after o))%Z = true).
  { rewrite B2. apply Z.ltb_lt. apply Hk. }
  rewrite D in B3, B4.
  rewrite (proj2 (Planet_eqb_neq _ _) A3) in B3, B4. cbn in B3, B4.
  auto.
Qed.

Lemma pointsAt_earth (t : Z) :
  pointsAt "earth"%string (still t (Some "earth"%string), pointHand).
Proof. repeat split. apply label_pointHand. Qed.

Lemma hoveringEarth_fields :
  hoveredPlanet hoveringEarth = Some "earth"%string /\
  hoverStartTime hoveringEarth = 0%Z /\
  selectedPlanet hoveringEarth = None.
Proof.
  unfold hoveringEarth.
  destruct (point_frame "earth"%string _ _ constructor eq_refl (pointsAt_earth 0))
    as (_ & A1 & (k & k' & A2 & A3) & A4 & _).
  remember (exec (processHand (Some pointHand)) (still 0 (Some "earth"%string))
              constructor) as o eqn:Eo. clear Eo.
  cbn in A2. rewrite A2 in A3. cbn in A3. rewrite A3 in A4. cbn in A4.
  auto.
Qed.

Lemma dwell_clock_survives_witness :
  let others := [ (still 100 None, fistHand); (still 1200 None, palmHand) ] in
  truthy (Some "earth"%string) = true /\
  hoveredPlanet hoveringEarth = Some "earth"%string /\
  selectedPlanet hoveringEarth <> Some "earth"%string /\
  Forall otherThanPoint others /\
  pointsAt "earth"%string (still 2000 (Some "earth"%string), pointHand) /\
  planetSelectedEmitted
    (issued (exec (processHand (Some pointHand))
               (still 2000 (Some "earth"%string))
               (framesEnd others hoveringEarth)))
  = [Some "earth"%string].
Proof.
  cbv zeta.
  destruct hoveringEarth_fields as (F1 & F2 & F3).
  assert (N : selectedPlanet hoveringEarth <> Some "earth"%string)
    by (rewrite F3; discriminate).
  assert (O : Forall otherThanPoint
                [ (still 100 None, fistHand); (still 1200 None, palmHand) ]).
  { repeat constructor; cbn [snd].
    - exists fist. split; [apply label_fistHand | discriminate].
    - exists palm. split; [apply label_palmHand | discriminate]. }
  split; [reflexivity|]. split; [exact F1|]. split; [exact N|].
  split; [exact O|]. split; [apply pointsAt_earth|].
  apply (dwell_clock_survives "earth"%string _ _ _ hoveringEarth eq_refl F1 N O
           (pointsAt_earth 2000)).
  intros k. rewrite F2. cbn. reflexivity.
Defined.

(** ** Moving the hand as a whole *)








(** A handler does not write the hand position fields. *)
Lemma handleGesture_hand_fields (landmarks : Landmarks) (g : Gesture) (e : Env)
    (r : Run) :
  let r' := snd (handleGesture landmarks g e r) in
  handPosition (this r') = handPosition (this r) /\
  handVelocity (this r') = handVelocity (this r) /\
  pinchDistance (this r') = pinchDistance (this r) /\
  rotationSensitivity (this r') = rotationSensitivity (this r) /\
  zoomSensitivity (this r') = zoomSensitivity (this r) /\
  isPinching (this r') = isPinching (this r).
Proof.
  destruct g; open_handlers.
  - repeat split.
  - destruct (at_index landmarks LANDMARKS.THUMB_TIP); cbn; [|repeat split].
    destruct (at_index landmarks LANDMARKS.INDEX_TIP); cbn; repeat split.
  - split_ifs; repeat split.
  - destruct (at_index landmarks LANDMARKS.INDEX_TIP); cbn; [|repeat split].
    split_ifs; repeat split.
  - split_ifs; repeat split.
Qed.

(** The hand fields after a frame. *)
Lemma frame_hand_fields (landmarks : Landmarks) (e : Env) (c : Controller)
    (center : Vec2) (d : R) (g : Gesture) :
  getPalmCenter landmarks = Some center ->
  pinchReading landmarks = Some d ->
  label landmarks = Some g ->
  let o := exec (processHand (Some landmarks)) e c in
  handPosition (after o) = center /\
  handVelocity (after o)
  = {| vx := vx center - vx (handPosition c);
       vy := vy center - vy (handPosition c) |} /\
  pinchDistance (after o) = d /\
  rotationSensitivity (after o) = rotationSensitivity c /\
  zoomSensitivity (after o) = zoomSensitivity c /\
  isPinching (after o) = Rltb d PINCH_THRESHOLD.
Proof.
  intros Hc Hd Hg.
  rewrite (processHand_exec landmarks e c center d g Hc Hd Hg).
  cbv zeta. cbn [after].
  destruct (handleGesture_hand_fields landmarks g e (beforeHandle e center d g c))
    as (E1 & E2 & E3 & E4 & E5 & E6).
  rewrite E1, E2, E3, E4, E5, E6.
  rewrite handPosition_beforeHandle, handVelocity_beforeHandle,
    pinchDistance_beforeHandle, rotationSensitivity_beforeHandle,
    zoomSensitivity_beforeHandle, isPinching_beforeHandle.
  repeat split.
Qed.



(** ** The pinch flag *)

Lemma label_pinch_iff (landmarks : Landmarks) (g : Gesture) (d : R) :
  label landmarks = Some g ->
  pinchReading landmarks = Some d ->
  (Rltb d PINCH_THRESHOLD = true <-> g = pinch).
Proof.
  unfold label. intros Hg Hd. rewrite Hd in Hg.
  destruct (isThumbExtended landmarks) as [t|]; [|discriminate].
  destruct (isFingerExtended landmarks index) as [i|]; [|discriminate].
  destruct (isFingerExtended landmarks middle) as [m|]; [|discriminate].
  destruct (isFingerExtended landmarks ring) as [r|]; [|discriminate].
  destruct (isFingerExtended landmarks pinky) as [p|]; [|discriminate].
  injection Hg as <-. unfold classify_by_priority, PINCH_THRESHOLD.
  destruct (Rltb d 0.08).
  - split; reflexivity.
  - split; [discriminate|]. destruct t, i, m, r, p; discriminate.
Qed.

Lemma step_pinch_flag (e : Env) (op : Op) (c : Controller) :
  (isPinching c = true <-> currentGesture c = Some pinch) ->
  (isPinching (step c (e, op)) = true
   <-> currentGesture (step c (e, op)) = Some pinch).
Proof.
  intros H. unfold step. cbn [fst snd].
  destruct op as [[landmarks|]| | | | | | |]; cbn [method]; try exact H.
  - destruct (processHand_cases landmarks e c)
      as [(c' & -> & [-> | (center & ->)]) | (center & d & g & Hc & Hd & Hg & _)];
      try exact H.
    destruct (frame_hand_fields landmarks e c center d g Hc Hd Hg)
      as (_ & _ & _ & _ & _ & P).
    destruct (frame_gesture landmarks e c g Hg (label_getPalmCenter landmarks g Hg))
      as (_ & G & _).
    cbv zeta in P, G. rewrite P, G.
    rewrite (label_pinch_iff landmarks g d Hg Hd).
    split; [intros -> | intros [= ->]]; reflexivity.
  - unfold exec, onHandLost. run_monad.
    destruct (truthy (hoveredPlanet c)); cbn; split; discriminate.
Qed.

(** X7.  In every controller reached from the constructor, by any
    operations, the pinch flag is on exactly when the current gesture is
    pinch. *)
Theorem pinching_iff_pinch_gesture (xs : list (Env * Op)) :
  let c := fold_left step xs constructor in
  isPinching c = true <-> currentGesture c = Some pinch.
Proof.
  cbv zeta.
  assert (G : forall c,
             (isPinching c = true <-> currentGesture c = Some pinch) ->
             (isPinching (fold_left step xs c) = true
              <-> currentGesture (fold_left step xs c) = Some pinch)).
  { induction xs as [|[e op] xs IH]; intros c H; [exact H|].
    cbn [fold_left]. apply IH, step_pinch_flag, H. }
  apply G. cbn. split; discriminate.
Qed.

(** ** Camera deltas add up *)








(** ** The distance between two points *)





(** * The event system *)

Lemma slot_store_same (event : string) (l l' : list EventBus.Callback)
    (cbs : EventBus.Callbacks) :
  EventBus.slot event cbs = EventBus.subscribers l ->
  EventBus.slot event (EventBus.store event l' cbs) = EventBus.subscribers l'.
Proof.
  unfold EventBus.slot, EventBus.store.
  destruct (String.eqb event "gesture") eqn:E1; [reflexivity|].
  destruct (String.eqb event "planetSelected") eqn:E2; [reflexivity|].
  destruct (String.eqb event "planetFollowing") eqn:E3; [reflexivity|].
  destruct (String.eqb event "cameraReset") eqn:E4; [reflexivity|].
  destruct (existsb (String.eqb event) EventBus.Object_prototype); discriminate.
Qed.

Lemma slot_store_other (event other : string) (l : list EventBus.Callback)
    (cbs : EventBus.Callbacks) :
  other <> event ->
  EventBus.slot other (EventBus.store event l cbs) = EventBus.slot other cbs.
Proof.
  intros Hne. unfold EventBus.slot, EventBus.store.
  destruct (String.eqb_spec event "gesture") as [-> | N1].
  { rewrite (proj2 (String.eqb_neq other "gesture") Hne). reflexivity. }
  destruct (String.eqb_spec event "planetSelected") as [-> | N2].
  { rewrite (proj2 (String.eqb_neq other "planetSelected") Hne). reflexivity. }
  destruct (String.eqb_spec event "planetFollowing") as [-> | N3].
  { rewrite (proj2 (String.eqb_neq other "planetFollowing") Hne). reflexivity. }
  destruct (String.eqb_spec event "cameraReset") as [-> | N4].
  { rewrite (proj2 (String.eqb_neq other "cameraReset") Hne). reflexivity. }
  reflexivity.
Qed.

Lemma store_same (event : string) (l : list EventBus.Callback)
    (cbs : EventBus.Callbacks) :
  EventBus.slot event cbs = EventBus.subscribers l ->
  EventBus.store event l cbs = cbs.
Proof.
  unfold EventBus.slot, EventBus.store. destruct cbs as [g s f r]. cbn.
  destruct (String.eqb event "gesture"); [intros [= ->]; reflexivity|].
  destruct (String.eqb event "planetSelected"); [intros [= ->]; reflexivity|].
  destruct (String.eqb event "planetFollowing"); [intros [= ->]; reflexivity|].
  destruct (String.eqb event "cameraReset"); [intros [= ->]; reflexivity|].
  reflexivity.
Qed.

Lemma store_store (event : string) (l l' : list EventBus.Callback)
    (cbs : EventBus.Callbacks) :
  EventBus.store event l' (EventBus.store event l cbs) = EventBus.store event l' cbs.
Proof.
  unfold EventBus.store.
  destruct (String.eqb event "gesture"); [reflexivity|].
  destruct (String.eqb event "planetSelected"); [reflexivity|].
  destruct (String.eqb event "planetFollowing"); [reflexivity|].
  destruct (String.eqb event "cameraReset"); reflexivity.
Qed.

Lemma emit_slot (event : string) (cbs : EventBus.Callbacks) :
  EventBus.emit event cbs
  = match EventBus.slot event cbs with
    | EventBus.subscribers l => Some l
    | EventBus.inherited => None
    | EventBus.undefined => Some []
    end.
Proof. reflexivity. Qed.

(** X10.  [on] appends: a subscriber registered for one of the four events
    is called last on the next [emit] of that event, after those registered
    before it, and the subscribers of the other events are not touched.  A
    name that is no event is ignored by [on], [off] and [emit], unless
    [Object.prototype] defines it: then each of the three raises. *)
Theorem on_subscribes_last (event : string) (callback : EventBus.Callback)
    (cbs : EventBus.Callbacks) :
  match EventBus.slot event cbs with
  | EventBus.subscribers l =>
      exists cbs',
        EventBus.on event callback cbs = Some cbs' /\
        EventBus.emit event cbs' = Some (l ++ [callback]) /\
        forall other, other <> event ->
                      EventBus.emit other cbs' = EventBus.emit other cbs
  | EventBus.inherited =>
      EventBus.on event callback cbs = None /\
      EventBus.off event callback cbs = None /\
      EventBus.emit event cbs = None
  | EventBus.undefined =>
      EventBus.on event callback cbs = Some cbs /\
      EventBus.off event callback cbs = Some cbs /\
      EventBus.emit event cbs = Some []
  end.
Proof.
  unfold EventBus.on, EventBus.off. rewrite emit_slot.
  destruct (EventBus.slot event cbs) as [l| |] eqn:S; [|auto|auto].
  eexists. split; [reflexivity|]. split.
  - rewrite emit_slot, (slot_store_same event l _ cbs S). reflexivity.
  - intros other Hne. rewrite !emit_slot, slot_store_other by exact Hne.
    reflexivity.
Qed.


Lemma removeFirst_appended (callback : EventBus.Callback)
    (l : list EventBus.Callback) :
  ~ In callback l -> EventBus.removeFirst callback (l ++ [callback]) = l.
Proof.
  induction l as [|x l IH]; intros H; cbn.
  - rewrite Nat.eqb_refl. reflexivity.
  - destruct (Nat.eqb_spec x callback) as [-> | N].
    + exfalso. apply H. left. reflexivity.
    + rewrite IH; [reflexivity|]. intros Hin. apply H. right. exact Hin.
Qed.

Lemma count_removeFirst (callback x : EventBus.Callback)
    (l : list EventBus.Callback) :
  count_occ Nat.eq_dec (EventBus.removeFirst callback l) x
  = if Nat.eqb x callback then Nat.pred (count_occ Nat.eq_dec l x)
    else count_occ Nat.eq_dec l x.
Proof.
  induction l as [|y l IH]; cbn.
  - destruct (Nat.eqb x callback); reflexivity.
  - destruct (Nat.eqb_spec y callback) as [-> | N].
    + destruct (Nat.eq_dec callback x) as [<- | M].
      * rewrite Nat.eqb_refl. reflexivity.
      * rewrite (proj2 (Nat.eqb_neq x callback)); [reflexivity|].
        intros ->. apply M. reflexivity.
    + cbn. rewrite IH. destruct (Nat.eq_dec y x) as [<- | M].
      * rewrite (proj2 (Nat.eqb_neq y callback) N). reflexivity.
      * reflexivity.
Qed.


Lemma count_appended (callback x : EventBus.Callback)
    (l : list EventBus.Callback) :
  count_occ Nat.eq_dec (l ++ [callback]) x
  = (count_occ Nat.eq_dec l x + if Nat.eqb x callback then 1 else 0)%nat.
Proof.
  rewrite count_occ_app. cbn.
  destruct (Nat.eq_dec callback x) as [<- | M].
  - rewrite Nat.eqb_refl. reflexivity.
  - rewrite (proj2 (Nat.eqb_neq x callback)); [reflexivity|].
    intros ->. apply M. reflexivity.
Qed.

(** X11.  [on] followed by [off] of the same subscriber: when it was not
    subscribed to the event before, the registrations are exactly as they
    were; in any case every subscriber has as many registrations for every
    event as before ([off] takes the earliest one away, so a subscriber
    that was already registered ends last in the order of calls). *)
Theorem on_off_round_trip (event : string) (callback : EventBus.Callback)
    (cbs : EventBus.Callbacks) :
  match EventBus.onThenOff event callback cbs with
  | Some cbs' =>
      (forall other x,
         option_map (fun l => count_occ Nat.eq_dec l x) (EventBus.emit other cbs')
         = option_map (fun l => count_occ Nat.eq_dec l x) (EventBus.emit other cbs)) /\
      (forall l, EventBus.emit event cbs = Some l -> ~ In callback l -> cbs' = cbs) /\
      (forall l, EventBus.emit event cbs = Some l -> In callback l ->
                 EventBus.emit event cbs'
                 = Some (EventBus.removeFirst callback l ++ [callback]))
  | None => EventBus.slot event cbs = EventBus.inherited
  end.
Proof.
  unfold EventBus.onThenOff, EventBus.on, EventBus.off.
  destruct (EventBus.slot event cbs) as [l| |] eqn:S; [| reflexivity |].
  - rewrite (slot_store_same event l _ cbs S), store_store.
    split; [|split].
    + intros other x. rewrite !emit_slot.
      destruct (String.eqb_spec other event) as [-> | N].
      * rewrite (slot_store_same event l _ cbs S), S. cbn. f_equal.
        rewrite count_removeFirst, count_appended.
        destruct (Nat.eqb x callback); [|apply Nat.add_0_r].
        rewrite Nat.add_1_r. reflexivity.
      * rewrite slot_store_other by exact N. reflexivity.
    + intros l0 E Hn. rewrite emit_slot, S in E. injection E as <-.
      rewrite removeFirst_appended by exact Hn. apply store_same. exact S.
    + intros l0 E Hin. rewrite emit_slot, S in E. injection E as <-.
      rewrite emit_slot, (slot_store_same event l _ cbs S). f_equal.
      clear S. induction l as [|y l IH]; [contradiction|]. cbn.
      destruct (Nat.eqb_spec y callback) as [-> | N]; [reflexivity|].
      cbn [app]. f_equal. apply IH. destruct Hin as [-> | Hin]; [contradiction | exact Hin].
  - rewrite S. split; [reflexivity|]. split; [reflexivity|].
    intros l E Hin. rewrite emit_slot, S in E. injection E as <-.
    contradiction.
Qed.



(** * The camera *)

Lemma clamp_range (lo hi x : R) :
  lo <= hi -> lo <= Camera.clamp lo hi x <= hi.
Proof.
  intros H. unfold Camera.clamp, Rmax, Rmin.
  destruct (Rle_dec hi x); destruct (Rle_dec lo _); lra.
Qed.

Lemma clamp_inside (lo hi x : R) : lo <= x <= hi -> Camera.clamp lo hi x = x.
Proof.
  intros H. unfold Camera.clamp, Rmax, Rmin.
  destruct (Rle_dec hi x); destruct (Rle_dec lo _); lra.
Qed.

Lemma clamp_below (lo hi x : R) : lo <= hi -> x <= lo -> Camera.clamp lo hi x = lo.
Proof.
  intros H Hx. unfold Camera.clamp, Rmax, Rmin.
  destruct (Rle_dec hi x); destruct (Rle_dec lo _); lra.
Qed.

Lemma clamp_above (lo hi x : R) : lo <= hi -> hi <= x -> Camera.clamp lo hi x = hi.
Proof.
  intros H Hx. unfold Camera.clamp, Rmax, Rmin.
  destruct (Rle_dec hi x); destruct (Rle_dec lo _); lra.
Qed.

(** Whatever the target radius was (the follow and focus methods set it
    without a bound), [adjustZoom] and [setZoom] leave it between 20 and
    200: the sum is taken as it is when it lies in that range and is cut to
    the nearer bound otherwise; the orbit the camera is on, the target
    angles and the planet followed are not written. *)
Lemma zoom_stays_in_range (delta : R) (v : Camera.View) :
  let o := Camera.cameraOrbit v in
  let o' := Camera.cameraOrbit (Camera.adjustZoom delta v) in
  20 <= Camera.targetRadius o' <= 200 /\
  (20 <= Camera.targetRadius o + delta <= 200 ->
   Camera.targetRadius o' = Camera.targetRadius o + delta) /\
  (Camera.targetRadius o + delta <= 20 -> Camera.targetRadius o' = 20) /\
  (200 <= Camera.targetRadius o + delta -> Camera.targetRadius o' = 200) /\
  20 <= Camera.targetRadius (Camera.cameraOrbit (Camera.setZoom delta v)) <= 200 /\
  Camera.adjustZoom delta v
  = Camera.mkView (Camera.withTargetRadius (Camera.targetRadius o') o)
      (Camera.followingPlanet v) (Camera.azimuth v).
Proof.
  cbv zeta. unfold Camera.adjustZoom, Camera.setZoom. cbn.
  split; [apply clamp_range; lra|].
  split; [apply clamp_inside|].
  split; [apply clamp_below; lra|].
  split; [apply clamp_above; lra|].
  split; [apply clamp_range; lra | reflexivity].
Qed.

Lemma PI_above_3 : 3 < PI.
Proof. pose proof PI2_3_2. lra. Qed.

(** [adjustRotation] and [setRotation] keep the target elevation between
    0.1 and pi - 0.1, cutting it to the nearer bound, and put no bound on
    the target azimuth: [adjustRotation] adds its delta to it exactly. *)
Lemma rotation_elevation_in_range (deltaTheta deltaPhi : R) (v : Camera.View) :
  let o := Camera.cameraOrbit v in
  let o' := Camera.cameraOrbit (Camera.adjustRotation deltaTheta deltaPhi v) in
  0.1 <= Camera.targetPhi o' <= PI - 0.1 /\
  (0.1 <= Camera.targetPhi o + deltaPhi <= PI - 0.1 ->
   Camera.targetPhi o' = Camera.targetPhi o + deltaPhi) /\
  Camera.targetTheta o' = Camera.targetTheta o + deltaTheta /\
  Camera.targetRadius o' = Camera.targetRadius o /\
  0.1 <= Camera.targetPhi
           (Camera.cameraOrbit (Camera.setRotation deltaTheta deltaPhi v))
      <= PI - 0.1.
Proof.
  cbv zeta. unfold Camera.adjustRotation, Camera.setRotation. cbn.
  pose proof PI_above_3 as P.
  split; [apply clamp_range; lra|].
  split; [apply clamp_inside|].
  split; [reflexivity|]. split; [reflexivity|].
  apply clamp_range; lra.
Qed.

Lemma update_orbit (v : Camera.View) :
  let o := Camera.cameraOrbit v in
  let o' := Camera.cameraOrbit (Camera.update v) in
  Camera.radius o' - Camera.targetRadius o'
  = 0.95 * (Camera.radius o - Camera.targetRadius o) /\
  Camera.theta o' - Camera.targetTheta o'
  = 0.95 * (Camera.theta o - Camera.targetTheta o) /\
  Camera.phi o' - Camera.targetPhi o'
  = 0.95 * (Camera.phi o - Camera.targetPhi o) /\
  Camera.targetRadius o' = Camera.targetRadius o /\
  Camera.targetTheta o' = Camera.targetTheta o /\
  Camera.targetPhi o' = Camera.targetPhi o.
Proof.
  cbv zeta. unfold Camera.update, Camera.smoothing. cbn.
  repeat split; lra.
Qed.


Lemma registered_lookup (p : option Planet) :
  Camera.registered p = true -> exists d, Camera.lookup p = Camera.planetEntry d.
Proof.
  unfold Camera.registered, Camera.lookup. destruct p as [name|]; [|discriminate].
  cbn [Camera.key]. destruct (Camera.dataOf name Camera.PLANET_DATA) as [d|];
    [eauto | discriminate].
Qed.

Lemma registered_truthy (p : option Planet) :
  Camera.registered p = true -> truthy p = true.
Proof.
  unfold Camera.registered, truthy. destruct p as [name|]; [|discriminate].
  destruct (String.eqb_spec name EmptyString) as [-> | N]; [|reflexivity].
  cbn. discriminate.
Qed.

Lemma registered_not_raising (p : option Planet) :
  p = None \/ Camera.registered p = true -> Camera.highlightRaises p = false.
Proof.
  unfold Camera.highlightRaises. intros [-> | H]; [reflexivity|].
  destruct (registered_lookup p H) as (d & ->). apply andb_false_r.
Qed.

(** X15.  [followPlanet] sets the target radius to eight times the size of
    the planet, outside the range the zoom keeps: for Mercury, Venus,
    Earth, Mars, Uranus and Neptune that is below 20, so the first zoom
    command while one of them is followed, whatever its delta, moves the
    target radius up to 20 or more, and a zoom in (a delta of zero or less)
    to exactly 20. *)
Theorem follow_radius_below_zoom_range (name : string) (delta : R)
    (v : Camera.View) :
  In name ["mercury"; "venus"; "earth"; "mars"; "uranus"; "neptune"]%string ->
  exists (d : Camera.PlanetData) (v' : Camera.View),
    Camera.lookup (Some name) = Camera.planetEntry d /\
    Camera.followPlanet (Some name) v = Some v' /\
    Camera.followingPlanet v' = Some name /\
    Camera.targetRadius (Camera.cameraOrbit v') = Camera.data_size d * 8 /\
    Camera.targetRadius (Camera.cameraOrbit v') < 20 /\
    20 <= Camera.targetRadius (Camera.cameraOrbit (Camera.adjustZoom delta v')) /\
    (delta <= 0 ->
     Camera.targetRadius (Camera.cameraOrbit (Camera.adjustZoom delta v')) = 20).
Proof.
  intros H. cbn in H.
  destruct H as [<- | [<- | [<- | [<- | [<- | [<- | []]]]]]];
    unfold Camera.followPlanet; cbn;
    eexists; eexists;
    (split; [reflexivity|]); (split; [reflexivity|]); (split; [reflexivity|]);
    (split; [reflexivity|]); cbn;
    (split; [lra|]);
    (split; [apply clamp_range; lra | intros Hd; apply clamp_below; lra]).
Qed.

Lemma follow_radius_below_zoom_range_witness :
  In "earth"%string
    ["mercury"; "venus"; "earth"; "mars"; "uranus"; "neptune"]%string /\
  exists v',
    Camera.followPlanet (Some "earth"%string) (Camera.initial (fun _ => 0)) = Some v' /\
    Camera.targetRadius (Camera.cameraOrbit v') < 20 /\
    Camera.targetRadius (Camera.cameraOrbit (Camera.adjustZoom (-1) v')) = 20.
Proof.
  assert (I : In "earth"%string
                ["mercury"; "venus"; "earth"; "mars"; "uranus"; "neptune"]%string)
    by (cbn; auto).
  split; [exact I|].
  destruct (follow_radius_below_zoom_range "earth"%string (-1)
              (Camera.initial (fun _ => 0)) I)
    as (d & v' & _ & E & _ & _ & L & _ & Z).
  exists v'. split; [exact E|]. split; [exact L|]. apply Z. lra.
Defined.

(** ** The following planet of the controller and of the scene *)

Lemma cameraPerformAll_ok (cs : list Call) (v : Camera.View) :
  forallb callOk cs = true ->
  exists v', cameraPerformAll cs v = Some v' /\
    Camera.followingPlanet v' = fold_left followAfter cs (Camera.followingPlanet v).
Proof.
  revert v. induction cs as [|c cs IH]; intros v H.
  - exists v. split; reflexivity.
  - cbn [forallb] in H. apply andb_true_iff in H. destruct H as (Hc & Hcs).
    assert (S : exists v1, cameraPerform c v = Some v1 /\
               Camera.followingPlanet v1 = followAfter (Camera.followingPlanet v) c).
    { destruct c; cbn [callOk] in Hc; cbn [cameraPerform followAfter];
        try (eexists; split; reflexivity).
      - apply negb_true_iff in Hc. rewrite Hc. eexists; split; reflexivity.
      - apply negb_true_iff in Hc. rewrite Hc. eexists; split; reflexivity.
      - destruct (registered_lookup p Hc) as (d & L).
        unfold Camera.focusOnPlanet. rewrite L. eexists; split; reflexivity.
      - destruct (registered_lookup p Hc) as (d & L).
        unfold Camera.followPlanet. rewrite L. eexists; split; reflexivity. }
    destruct S as (v1 & E1 & F1).
    destruct (IH v1 Hcs) as (v' & E & F).
    exists v'. cbn [cameraPerformAll fold_left]. rewrite E1. split; [exact E|].
    rewrite F, F1. reflexivity.
Qed.

Ltac close_calls :=
  repeat rewrite <- app_assoc; cbn [app];
  first [ eexists; split; [reflexivity|]
        | exists []; split; [symmetry; apply app_nil_r|] ].

Lemma handleGesture_camera_calls (landmarks : Landmarks) (g : Gesture) (e : Env)
    (r : Run) :
  (forall sx sy, getPlanetAtScreenPosition e sx sy = None \/
                 Camera.registered (getPlanetAtScreenPosition e sx sy) = true) ->
  selectedRegistered (this r) ->
  let r' := snd (handleGesture landmarks g e r) in
  exists extra,
    calls r' = calls r ++ extra /\
    forallb callOk extra = true /\
    fold_left followAfter extra (followingPlanet (this r)) = followingPlanet (this r') /\
    selectedRegistered (this r').
Proof.
  intros Hhit Hsel. unfold selectedRegistered in *.
  destruct g; open_handlers.
  - close_calls. auto.
  - destruct (at_index landmarks LANDMARKS.THUMB_TIP); cbn;
      [destruct (at_index landmarks LANDMARKS.INDEX_TIP); cbn|];
      close_calls; auto.
  - destruct ((500 <? gestureDuration (this r))%Z
              && (gestureDuration (this r) <? 700)%Z); cbn;
      [|close_calls; auto].
    destruct (truthy (selectedPlanet (this r))) eqn:T; cbn; [|close_calls; auto].
    destruct Hsel as [N | Reg]; [rewrite N in T; discriminate T|].
    destruct (Planet_eqb (followingPlanet (this r)) (selectedPlanet (this r)));
      cbn; close_calls; cbn; rewrite ?Reg; auto.
  - destruct (at_index landmarks LANDMARKS.INDEX_TIP) as [indexTip|]; cbn;
      [|close_calls; auto].
    set (planet := getPlanetAtScreenPosition e _ _).
    assert (Hp : planet = None \/ Camera.registered planet = true) by apply Hhit.
    pose proof (registered_not_raising planet Hp) as NR.
    destruct (truthy planet) eqn:T; cbn.
    + destruct Hp as [N | Reg]; [rewrite N in T; discriminate T|].
      split_ifs; close_calls; cbn; rewrite ?NR, ?Reg; cbn; auto.
    + split_ifs; close_calls; cbn; auto.
  - split_ifs; close_calls; cbn; auto.
Qed.

Lemma step_camera_calls (e : Env) (op : Op) (c : Controller) :
  namesRegistered (e, op) ->
  selectedRegistered c ->
  forallb callOk (issued (exec (method op) e c)) = true /\
  fold_left followAfter (issued (exec (method op) e c)) (followingPlanet c)
  = followingPlanet (step c (e, op)) /\
  selectedRegistered (step c (e, op)).
Proof.
  intros (Hhit & Hop) Hsel. cbn [fst snd] in Hhit, Hop.
  unfold step. cbn [fst snd].
  destruct op as [[landmarks|]| | | | | | |]; cbn [method];
    try (cbn; repeat split; auto; fail).
  - destruct (processHand_cases landmarks e c)
      as [(c' & -> & [-> | (center & ->)]) | (center & d & g & Hc & Hd & Hg & ->)];
      try (cbn; repeat split; auto; fail).
    cbv zeta. cbn [after issued].
    destruct (handleGesture_camera_calls landmarks g e (beforeHandle e center d g c) Hhit)
      as (extra & E & Ok & F & S).
    { unfold selectedRegistered. rewrite selectedPlanet_beforeHandle. exact Hsel. }
    rewrite followingPlanet_beforeHandle in F.
    rewrite E, calls_beforeHandle.
    destruct (same_gesture g (currentGesture c)); cbn [app forallb callOk fold_left followAfter];
      repeat split; assumption.
  - unfold exec, onHandLost. run_monad.
    destruct (truthy (hoveredPlanet c)); cbn; repeat split; auto.
  - pose proof (registered_not_raising planetName (or_intror Hop)) as NR.
    unfold selectedRegistered. cbn. rewrite NR, Hop. cbn. repeat split; auto.
  - unfold selectedRegistered. cbn. rewrite Hop. repeat split; auto.
  - unfold selectedRegistered. cbn. repeat split; auto.
Qed.

Lemma issuedBy_camera_calls (xs : list (Env * Op)) :
  Forall namesRegistered xs ->
  forall c, selectedRegistered c ->
    forallb callOk (issuedBy xs c) = true /\
    fold_left followAfter (issuedBy xs c) (followingPlanet c)
    = followingPlanet (fold_left step xs c).
Proof.
  induction 1 as [|[e op] xs Hx Hxs IH]; intros c Hsel.
  - split; reflexivity.
  - destruct (step_camera_calls e op c Hx Hsel) as (Ok & F & S).
    destruct (IH _ S) as (Ok' & F').
    cbn [issuedBy fold_left fst snd]. rewrite forallb_app, fold_left_app.
    rewrite Ok, Ok', F, F'. split; reflexivity.
Qed.

(** X16.  Controller and scene agree on the planet followed.  Take any
    sequence of operations from the constructor's state in which the hit test
    answers no planet or a key of [PLANET_DATA] and the manual entry points
    are given keys of [PLANET_DATA].  Then no call the controller makes
    raises in the scene, and after the scene has run them all, in order, from
    its initial view, the planet it follows is the controller's
    [followingPlanet]. *)
Theorem scene_follows_what_controller_follows (xs : list (Env * Op))
    (angles : string -> R) :
  Forall namesRegistered xs ->
  exists v,
    cameraPerformAll (issuedBy xs constructor) (Camera.initial angles) = Some v /\
    Camera.followingPlanet v = followingPlanet (fold_left step xs constructor).
Proof.
  intros H.
  destruct (issuedBy_camera_calls xs H constructor) as (Ok & F).
  { left. reflexivity. }
  destruct (cameraPerformAll_ok (issuedBy xs constructor) (Camera.initial angles) Ok)
    as (v & E & Fv).
  exists v. split; [exact E|]. rewrite Fv. exact F.
Qed.

Lemma scene_follows_what_controller_follows_witness :
  let xs := [ (still 0 None, manualSelectPlanetOp (Some "earth"%string));
              (still 10 None, manualFollowPlanetOp (Some "earth"%string));
              (still 20 None, manualZoomOp 5) ] in
  Forall namesRegistered xs /\
  exists v,
    cameraPerformAll (issuedBy xs constructor) (Camera.initial (fun _ => 0)) = Some v /\
    Camera.followingPlanet v = Some "earth"%string.
Proof.
  intros xs.
  assert (H : Forall namesRegistered xs).
  { repeat constructor. }
  split; [exact H|].
  destruct (scene_follows_what_controller_follows xs (fun _ => 0) H) as (v & E & F).
  exists v. split; [exact E|]. rewrite F. reflexivity.
Defined.

(** ** The hand tracker *)

Lemma smoothLoop_length (smoothed landmarks : Landmarks) :
  List.length (snd (HandTracker.smoothLoop smoothed landmarks))
  = List.length smoothed.
Proof.
  revert smoothed. induction landmarks as [|lm landmarks IH]; intros smoothed.
  - reflexivity.
  - destruct smoothed as [|s smoothed]; [reflexivity|].
    cbn [HandTracker.smoothLoop snd List.length]. rewrite IH. reflexivity.
Qed.

Lemma smoothLoop_returns (smoothed landmarks : Landmarks) :
  fst (HandTracker.smoothLoop smoothed landmarks)
  = if (List.length landmarks <=? List.length smoothed)%nat then Some tt else None.
Proof.
  revert smoothed. induction landmarks as [|lm landmarks IH]; intros smoothed.
  - reflexivity.
  - destruct smoothed as [|s smoothed]; [reflexivity|].
    cbn [HandTracker.smoothLoop fst List.length]. rewrite IH. reflexivity.
Qed.

Lemma connections_in_hand (ij : nat * nat) :
  In ij HandTracker.connections -> (fst ij <= 20)%nat /\ (snd ij <= 20)%nat.
Proof.
  unfold HandTracker.connections. cbn [In]. intros H.
  repeat (destruct H as [<- | H]; [cbn; lia|]). contradiction.
Qed.

Lemma drawHand_returns (landmarks : Landmarks) :
  HandTracker.drawHand landmarks
  = if (21 <=? List.length landmarks)%nat then Some tt else None.
Proof.
  unfold HandTracker.drawHand.
  destruct (21 <=? List.length landmarks)%nat eqn:L.
  - apply Nat.leb_le in L.
    rewrite (proj2 (forallb_forall _ _)); [reflexivity|].
    intros ij Hij. destruct (connections_in_hand ij Hij) as (Hi & Hj).
    destruct (at_index_in_range landmarks (fst ij)) as (p & ->); [lia|].
    destruct (at_index_in_range landmarks (snd ij)) as (q & ->); [lia|].
    reflexivity.
  - apply Nat.leb_gt in L.
    match goal with |- (if ?b then _ else _) = _ => destruct b eqn:F end;
      [|reflexivity].
    rewrite forallb_forall in F.
    assert (I : In (19, 20)%nat HandTracker.connections).
    { unfold HandTracker.connections. cbn [In]. tauto. }
    apply F in I. cbn [fst snd] in I.
    rewrite (at_index_out_of_range landmarks 20) in I by lia.
    destruct (at_index landmarks 19); discriminate I.
Qed.

(** A frame of 21 points or more: [processHand] returns, with a current
    gesture. *)
Lemma enough_points_returns (landmarks : Landmarks) (e : Env) (c : Controller) :
  (21 <= List.length landmarks)%nat ->
  returned (exec (processHand (Some landmarks)) e c) = Some tt /\
  exists g, currentGesture (after (exec (processHand (Some landmarks)) e c)) = Some g.
Proof.
  intros L.
  destruct (enough_points_readings landmarks L)
    as (center & d & g & thumbTip & indexTip & Hc & Hd & Hg & Ht & Hi).
  split.
  - rewrite (processHand_exec landmarks e c center d g Hc Hd Hg).
    cbv zeta. cbn [returned].
    apply (handleGesture_returns landmarks g e _ thumbTip indexTip Ht Hi).
  - exists g.
    destruct (frame_gesture landmarks e c g Hg (label_getPalmCenter landmarks g Hg))
      as (_ & G & _).
    exact G.
Qed.

Lemma listeners_lost (e : Env) (c : Controller) (cs : list Call) :
  fst (listeners e HandTracker.lost (c, cs)) = Some tt.
Proof.
  unfold listeners, exec, onHandLost. run_monad.
  destruct (truthy (hoveredPlanet c)); reflexivity.
Qed.

Lemma listeners_detected (e : Env) (landmarks : Landmarks) (c : Controller)
    (cs : list Call) :
  (21 <= List.length landmarks)%nat ->
  fst (listeners e (HandTracker.detected (Some landmarks)) (c, cs)) = Some tt.
Proof.
  intros L. unfold listeners. cbn [fst snd].
  apply (enough_points_returns landmarks e c L).
Qed.

(** X17.  The tracker hands the controller whole hands only.  On any
    results, in any state: a ['handDetected'] event carries the smoothed
    landmarks, 21 points or more, and [processHand] returns on them;
    [onResults] raises exactly when the results hold a hand of fewer than 21
    points or of more points than the smoothed landmarks, and then the
    exception is the tracker's own: nothing was emitted, the controller was
    not called, and the detected flag is as before. *)
Theorem tracker_gives_whole_hands (e : Env) (results : option Landmarks)
    (t : HandTracker.Tracker) (c : Controller) :
  let r := HandTracker.onResults listeners e results t (c, []) in
  (forall data, In (HandTracker.detected data) (HandTracker.emitted r) ->
     HandTracker.finished r = Some tt /\
     exists landmarks : Landmarks,
       data = Some landmarks /\
       (21 <= List.length landmarks)%nat /\
       HandTracker.smoothedLandmarks (HandTracker.trackerAfter r) = Some landmarks) /\
  (HandTracker.finished r = None <->
   exists landmarks : Landmarks,
     results = Some landmarks /\
     ((List.length landmarks < 21)%nat \/
      exists smoothed : Landmarks,
        HandTracker.smoothedLandmarks t = Some smoothed /\
        (List.length smoothed < List.length landmarks)%nat)) /\
  (HandTracker.finished r = None ->
   HandTracker.emitted r = [] /\
   HandTracker.subscribersAfter r = (c, []) /\
   HandTracker.handDetected (HandTracker.trackerAfter r) = HandTracker.handDetected t).
Proof.
  cbv zeta. destruct results as [landmarks|].
  - unfold HandTracker.onResults, HandTracker.smoothLandmarks.
    destruct (HandTracker.smoothedLandmarks t) as [smoothed|] eqn:Es.
    + cbv zeta. cbn [fst snd].
      pose proof (smoothLoop_returns smoothed landmarks) as R.
      pose proof (smoothLoop_length smoothed landmarks) as Len.
      destruct (HandTracker.smoothLoop smoothed landmarks) as [ok smoothed'].
      cbn [fst snd] in R, Len. subst ok.
      destruct (List.length landmarks <=? List.length smoothed)%nat eqn:L1.
      * apply Nat.leb_le in L1. rewrite drawHand_returns.
        destruct (21 <=? List.length landmarks)%nat eqn:L2.
        -- apply Nat.leb_le in L2.
           cbn [HandTracker.smoothedLandmarks HandTracker.finished
                  HandTracker.emitted HandTracker.trackerAfter
                  HandTracker.subscribersAfter].
           assert (L3 : (21 <= List.length smoothed')%nat) by lia.
           cbv zeta.
           cbn [fst snd HandTracker.smoothedLandmarks HandTracker.finished
                  HandTracker.emitted HandTracker.trackerAfter
                  HandTracker.subscribersAfter].
           rewrite (listeners_detected e smoothed' c [] L3).
           split; [|split].
           ++ intros data [[= <-] | []]. split; [reflexivity|].
              exists smoothed'. repeat split. exact L3.
           ++ split; [discriminate|].
              intros (l & [= <-] & [H | (s & [= <-] & H)]); lia.
           ++ discriminate.
        -- apply Nat.leb_gt in L2. cbn.
           split; [intros data []|]. split; [|auto].
           split; [|reflexivity]. intros _. exists landmarks. auto.
      * apply Nat.leb_gt in L1. cbn.
        split; [intros data []|]. split; [|auto].
        split; [|reflexivity]. intros _. exists landmarks. split; [reflexivity|].
        right. exists smoothed. auto.
    + cbn [fst snd]. rewrite drawHand_returns.
      destruct (21 <=? List.length landmarks)%nat eqn:L2.
      * apply Nat.leb_le in L2.
        cbn [HandTracker.smoothedLandmarks HandTracker.finished
               HandTracker.emitted HandTracker.trackerAfter
               HandTracker.subscribersAfter].
        cbv zeta.
        cbn [fst snd HandTracker.smoothedLandmarks HandTracker.finished
               HandTracker.emitted HandTracker.trackerAfter
               HandTracker.subscribersAfter].
        rewrite (listeners_detected e landmarks c [] L2).
        split; [|split].
        -- intros data [[= <-] | []]. split; [reflexivity|].
           exists landmarks. repeat split. exact L2.
        -- split; [discriminate|].
           intros (l & [= <-] & [H | (s & [=] & H)]). lia.
        -- discriminate.
      * apply Nat.leb_gt in L2. cbn.
        split; [intros data []|]. split; [|auto].
        split; [|reflexivity]. intros _. exists landmarks. auto.
  - unfold HandTracker.onResults.
    destruct (HandTracker.handDetected t) eqn:H.
    + pose proof (listeners_lost e c []) as Ret.
      destruct (listeners e HandTracker.lost (c, [])) as [ok s'].
      cbn [fst] in Ret. subst ok. cbn.
      split; [intros data [D | []]; discriminate D|].
      split; [|discriminate].
      split; [discriminate|]. intros (l & D & _). discriminate D.
    + cbn. split; [intros data []|].
      split; [|discriminate].
      split; [discriminate|]. intros (l & D & _). discriminate D.
Qed.

(** ** The events of the tracker *)

Lemma onResults_paired {X S : Type} (notify : X -> HandTracker.Emitted -> S -> option unit * S)
    (x : X) (results : option Landmarks) (t : HandTracker.Tracker) (s : S)
    (rest : list HandTracker.Emitted) :
  let r := HandTracker.onResults notify x results t s in
  HandTracker.paired (HandTracker.handDetected (HandTracker.trackerAfter r)) rest = true ->
  HandTracker.paired (HandTracker.handDetected t) (HandTracker.emitted r ++ rest) = true.
Proof.
  cbv zeta. unfold HandTracker.onResults. destruct results as [landmarks|].
  - unfold HandTracker.smoothLandmarks.
    destruct (HandTracker.smoothedLandmarks t) as [smoothed|].
    + cbv zeta. destruct (HandTracker.smoothLoop smoothed landmarks) as [[[]|] smoothed'];
        cbn [fst snd]; [|cbn; auto].
      destruct (HandTracker.drawHand landmarks); cbn; auto.
    + destruct (HandTracker.drawHand landmarks); cbn; auto.
  - destruct (HandTracker.handDetected t) eqn:H.
    + destruct (notify x HandTracker.lost s) as [[[]|] s']; cbn; auto.
    + cbn. rewrite ?H. auto.
Qed.

Lemma emittedBy_paired {X S : Type} (notify : X -> HandTracker.Emitted -> S -> option unit * S)
    (frames : list (X * option Landmarks)) :
  forall (t : HandTracker.Tracker) (s : S),
    HandTracker.paired (HandTracker.handDetected t)
      (HandTracker.emittedBy notify frames t s) = true.
Proof.
  induction frames as [|[x results] frames IH]; intros t s; [reflexivity|].
  cbn [HandTracker.emittedBy fst snd].
  apply (onResults_paired notify x results t s). apply IH.
Qed.

Lemma paired_before_lost (hand : bool) (pre post : list HandTracker.Emitted) :
  HandTracker.paired hand (pre ++ HandTracker.lost :: post) = true ->
  (pre = [] /\ hand = true) \/
  exists pre' data, pre = pre' ++ [HandTracker.detected data].
Proof.
  revert hand. induction pre as [|ev pre IH]; intros hand H.
  - left. cbn in H. apply andb_true_iff in H. tauto.
  - right. destruct ev as [data|]; cbn in H.
    + destruct (IH true H) as [(-> & _) | (pre' & data' & ->)].
      * exists [], data. reflexivity.
      * exists (HandTracker.detected data :: pre'), data'. reflexivity.
    + apply andb_true_iff in H. destruct H as (_ & H).
      destruct (IH false H) as [(_ & F) | (pre' & data' & ->)]; [discriminate F|].
      exists (HandTracker.lost :: pre'), data'. reflexivity.
Qed.

(** X18.  Whoever subscribes, and whether the subscribers raise or not: in
    the events a tracker emits from its construction on, a ['handLost'] comes
    right after a ['handDetected']; it is never the first event and never
    follows another ['handLost']. *)
Theorem handLost_follows_handDetected {X S : Type}
    (notify : X -> HandTracker.Emitted -> S -> option unit * S)
    (frames : list (X * option Landmarks)) (s : S)
    (pre post : list HandTracker.Emitted) :
  HandTracker.emittedBy notify frames HandTracker.constructor s
  = pre ++ HandTracker.lost :: post ->
  exists pre' data, pre = pre' ++ [HandTracker.detected data].
Proof.
  intros E.
  pose proof (emittedBy_paired notify frames HandTracker.constructor s) as P.
  rewrite E in P. cbn [HandTracker.handDetected HandTracker.constructor] in P.
  destruct (paired_before_lost false pre post P) as [(_ & F) | H];
    [discriminate F | exact H].
Qed.

Lemma handLost_follows_handDetected_witness :
  let notify := fun (_ : unit) (_ : HandTracker.Emitted) (s : unit) => (Some tt, s) in
  let frames := [(tt, Some fistHand); (tt, None); (tt, None)] in
  HandTracker.emittedBy notify frames HandTracker.constructor tt
  = [HandTracker.detected (Some fistHand)] ++ HandTracker.lost :: [] /\
  exists pre' data,
    [HandTracker.detected (Some fistHand)] = pre' ++ [HandTracker.detected data].
Proof.
  intros notify frames.
  assert (E : HandTracker.emittedBy notify frames HandTracker.constructor tt
              = [HandTracker.detected (Some fistHand)] ++ HandTracker.lost :: [])
    by reflexivity.
  split; [exact E|].
  exact (handLost_follows_handDetected notify frames tt _ _ E).
Defined.

(** ** The tracker and the controller *)

(** What one delivery of results does to the application. *)
Lemma appStep_results (e : Env) (results : option Landmarks) (a : App) :
  let a' := appStep a (e, cameraResults results) in
  (gestureController a' = gestureController a /\
   HandTracker.handDetected (handTracker a')
   = HandTracker.handDetected (handTracker a) /\
   (results = None -> HandTracker.handDetected (handTracker a) = false)) \/
  (exists landmarks : Landmarks,
     (21 <= List.length landmarks)%nat /\
     results <> None /\
     handTracker a' = HandTracker.mkTracker true (Some landmarks) /\
     gestureController a'
     = after (exec (processHand (Some landmarks)) e (gestureController a))) \/
  (results = None /\
   HandTracker.handDetected (handTracker a) = true /\
   handTracker a' = HandTracker.mkTracker false None /\
   gestureController a' = after (exec onHandLost e (gestureController a))).
Proof.
  cbv zeta. unfold appStep. cbn [fst snd].
  destruct a as [t c]. cbn [handTracker gestureController].
  destruct results as [landmarks|].
  - unfold HandTracker.onResults, HandTracker.smoothLandmarks.
    destruct (HandTracker.smoothedLandmarks t) as [smoothed|] eqn:Es.
    + cbv zeta.
      pose proof (smoothLoop_returns smoothed landmarks) as R.
      pose proof (smoothLoop_length smoothed landmarks) as Len.
      destruct (HandTracker.smoothLoop smoothed landmarks) as [ok smoothed'].
      cbn [fst snd] in *. subst ok.
      destruct (List.length landmarks <=? List.length smoothed)%nat eqn:L1;
        [|left; cbn; repeat split; discriminate].
      apply Nat.leb_le in L1. rewrite drawHand_returns.
      destruct (21 <=? List.length landmarks)%nat eqn:L2;
        [|left; cbn; repeat split; discriminate].
      apply Nat.leb_le in L2.
      right. left. exists smoothed'. cbn.
      split; [lia|]. split; [discriminate|]. split; reflexivity.
    + cbn [fst snd]. rewrite drawHand_returns.
      destruct (21 <=? List.length landmarks)%nat eqn:L2;
        [|left; cbn; repeat split; discriminate].
      apply Nat.leb_le in L2.
      right. left. exists landmarks. cbn.
      split; [lia|]. split; [discriminate|]. split; reflexivity.
  - unfold HandTracker.onResults.
    destruct (HandTracker.handDetected t) eqn:H.
    + right. right.
      pose proof (listeners_lost e c []) as Ret.
      destruct (listeners e HandTracker.lost (c, [])) as [ok s'] eqn:E.
      cbn [fst] in Ret. subst ok. cbn.
      repeat split.
      unfold listeners in E. cbn [fst snd] in E. injection E as _ E. subst s'.
      reflexivity.
    + left. cbn. auto.
Qed.

Lemma appStep_control (e : Env) (op : Op) (a : App) :
  fromUserInterface (control op) = true ->
  let c' := gestureController (appStep a (e, control op)) in
  handTracker (appStep a (e, control op)) = handTracker a /\
  currentGesture c' = currentGesture (gestureController a) /\
  isPinching c' = isPinching (gestureController a) /\
  hoveredPlanet c' = hoveredPlanet (gestureController a).
Proof.
  intros H. unfold appStep, step. cbn [fst snd handTracker gestureController].
  destruct op as [landmarks| | | | | | |]; try discriminate H; cbn; auto.
Qed.

Lemma appStep_handAgreed (a : App) (x : Env * Input) :
  fromUserInterface (snd x) = true ->
  handAgreed a -> handAgreed (appStep a x).
Proof.
  destruct x as [e [results | op]]; cbn [snd]; intros Hui (Hg & Hl).
  - unfold handAgreed.
    destruct (appStep_results e results a)
      as [(Ec & Et & _) | [(landmarks & L & _ & Et & Ec) | (_ & Hd & Et & Ec)]].
    + rewrite Ec, Et. auto.
    + destruct (enough_points_returns landmarks e (gestureController a) L)
        as (_ & g & G).
      rewrite Ec, Et, G. cbn. split; [split; [discriminate | reflexivity]|].
      discriminate.
    + rewrite Ec, Et. unfold exec, onHandLost. run_monad.
      destruct (truthy (hoveredPlanet (gestureController a))) eqn:T; cbn.
      * split; [split; [discriminate | congruence]|]. auto.
      * split; [split; [discriminate | congruence]|]. auto.
  - destruct (appStep_control e op a Hui) as (Et & E1 & E2 & E3).
    unfold handAgreed. rewrite Et, E1, E2, E3. auto.
Qed.

(** X19.  The tracker and the controller agree on whether a hand is there.
    From the start of the application, whatever results the detector
    delivers and whatever the user interface calls in between: the
    tracker's [handDetected] flag is on exactly when the controller has a
    current gesture, and while it is off the controller is not pinching and
    hovers no planet. *)
Theorem hand_flag_matches_gesture (xs : list (Env * Input)) :
  Forall (fun x => fromUserInterface (snd x) = true) xs ->
  let a := fold_left appStep xs newApp in
  (HandTracker.isHandDetected (handTracker a) = true
   <-> currentGesture (gestureController a) <> None) /\
  (HandTracker.isHandDetected (handTracker a) = false ->
   isPinching (gestureController a) = false /\
   truthy (hoveredPlanet (gestureController a)) = false).
Proof.
  intros H. cbv zeta.
  assert (G : forall a, handAgreed a -> handAgreed (fold_left appStep xs a)).
  { induction H as [|x xs Hx Hxs IH]; intros a Ha; [exact Ha|].
    cbn [fold_left]. apply IH, appStep_handAgreed; assumption. }
  apply (G newApp). split.
  - cbn. split; [discriminate | congruence].
  - cbn. auto.
Qed.

Lemma hand_flag_matches_gesture_witness :
  let xs := [ (still 0 None, cameraResults (Some fistHand));
              (still 10 None, control (manualZoomOp 5));
              (still 20 None, cameraResults None) ] in
  Forall (fun x => fromUserInterface (snd x) = true) xs /\
  (HandTracker.isHandDetected (handTracker (fold_left appStep xs newApp)) = true
   <-> currentGesture (gestureController (fold_left appStep xs newApp)) <> None).
Proof.
  intros xs.
  assert (H : Forall (fun x => fromUserInterface (snd x) = true) xs)
    by (repeat constructor).
  split; [exact H|].
  exact (proj1 (hand_flag_matches_gesture xs H)).
Defined.

(** ** Smoothing *)

(** X20.  Smoothing starts afresh after a loss.  Once results without a hand
    have been delivered, the next hand of 21 points or more reaches the
    controller as the detector gave it, whatever was smoothed before, and is
    what [getLandmarks] answers. *)
Theorem first_hand_after_loss_unsmoothed (a : App) (e1 e2 : Env)
    (landmarks : Landmarks) :
  (21 <= List.length landmarks)%nat ->
  let a1 := appStep a (e1, cameraResults None) in
  let a2 := appStep a1 (e2, cameraResults (Some landmarks)) in
  HandTracker.getLandmarks (handTracker a1) = None /\
  HandTracker.getLandmarks (handTracker a2) = Some landmarks /\
  HandTracker.isHandDetected (handTracker a2) = true /\
  gestureController a2
  = after (exec (processHand (Some landmarks)) e2 (gestureController a1)).
Proof.
  intros L. cbv zeta.
  assert (N : HandTracker.smoothedLandmarks
                (handTracker (appStep a (e1, cameraResults None))) = None).
  { unfold appStep, HandTracker.onResults. cbn [fst snd].
    destruct (HandTracker.handDetected (handTracker a)); [|reflexivity].
    pose proof (listeners_lost e1 (gestureController a) []) as Ret.
    destruct (listeners e1 HandTracker.lost (gestureController a, [])) as [ok s'].
    cbn [fst] in Ret. subst ok. reflexivity. }
  split; [exact N|].
  set (a1 := appStep a (e1, cameraResults None)) in *.
  unfold HandTracker.getLandmarks, HandTracker.isHandDetected.
  unfold appStep at 1 2 3. cbn [fst snd].
  unfold HandTracker.onResults, HandTracker.smoothLandmarks.
  rewrite N. rewrite drawHand_returns.
  apply Nat.leb_le in L. rewrite L. cbn. auto.
Qed.

Lemma first_hand_after_loss_unsmoothed_witness :
  let a := mkApp (HandTracker.mkTracker true (Some pointHand)) constructor in
  let a2 := appStep (appStep a (still 0 None, cameraResults None))
              (still 40 None, cameraResults (Some fistHand)) in
  (21 <= List.length fistHand)%nat /\
  HandTracker.getLandmarks (handTracker a2) = Some fistHand.
Proof.
  intros a a2.
  assert (L : (21 <= List.length fistHand)%nat) by (cbn; lia).
  split; [exact L|].
  exact (proj1 (proj2 (first_hand_after_loss_unsmoothed a (still 0 None)
                         (still 40 None) fistHand L))).
Defined.





(** X22.  A short hand blocks the tracker.  When results with a hand of
    fewer than 21 points arrive while nothing is smoothed, [onResults] keeps
    them as the smoothed landmarks and raises in [drawHand]; from then on
    every hand of more points makes [smoothLandmarks] raise: no event is
    emitted and the subscribers are never called, until results without a
    hand are delivered. *)
Theorem short_hand_blocks_tracker {X S : Type}
    (notify : X -> HandTracker.Emitted -> S -> option unit * S)
    (x : X) (short : Landmarks) (t : HandTracker.Tracker) (s : S)
    (frames : list (X * option Landmarks)) :
  HandTracker.smoothedLandmarks t = None ->
  (List.length short < 21)%nat ->
  Forall (fun f => exists landmarks : Landmarks,
            snd f = Some landmarks /\
            (List.length short < List.length landmarks)%nat) frames ->
  let r := HandTracker.onResults notify x (Some short) t s in
  HandTracker.finished r = None /\
  HandTracker.smoothedLandmarks (HandTracker.trackerAfter r) = Some short /\
  HandTracker.subscribersAfter r = s /\
  HandTracker.emitted r = [] /\
  HandTracker.emittedBy notify frames (HandTracker.trackerAfter r) s = [] /\
  Forall (fun f =>
            forall t' smoothed,
              HandTracker.smoothedLandmarks t' = Some smoothed ->
              List.length smoothed = List.length short ->
              HandTracker.finished (HandTracker.onResults notify (fst f) (snd f) t' s)
              = None) frames.
Proof.
  intros Hs Hshort Hframes. cbv zeta.
  assert (Step : forall (x' : X) (landmarks : Landmarks) t' smoothed,
             HandTracker.smoothedLandmarks t' = Some smoothed ->
             List.length smoothed = List.length short ->
             (List.length short < List.length landmarks)%nat ->
             let r' := HandTracker.onResults notify x' (Some landmarks) t' s in
             HandTracker.finished r' = None /\
             HandTracker.emitted r' = [] /\
             HandTracker.subscribersAfter r' = s /\
             exists smoothed',
               HandTracker.smoothedLandmarks (HandTracker.trackerAfter r')
               = Some smoothed' /\
               List.length smoothed' = List.length short).
  { intros x' landmarks t' smoothed Hs' Len Hl. cbv zeta.
    unfold HandTracker.onResults, HandTracker.smoothLandmarks. rewrite Hs'.
    cbv zeta.
    pose proof (smoothLoop_returns smoothed landmarks) as R.
    pose proof (smoothLoop_length smoothed landmarks) as Len'.
    destruct (HandTracker.smoothLoop smoothed landmarks) as [ok smoothed'].
    cbn [fst snd] in *. subst ok.
    replace (List.length landmarks <=? List.length smoothed)%nat with false
      by (symmetry; apply Nat.leb_gt; lia).
    cbn. repeat split. exists smoothed'. split; [reflexivity | lia]. }
  assert (First : HandTracker.onResults notify x (Some short) t s
                  = HandTracker.mkResult None
                      (HandTracker.mkTracker (HandTracker.handDetected t) (Some short))
                      s []).
  { unfold HandTracker.onResults, HandTracker.smoothLandmarks. rewrite Hs.
    rewrite drawHand_returns.
    replace (21 <=? List.length short)%nat with false
      by (symmetry; apply Nat.leb_gt; lia).
    reflexivity. }
  rewrite First. cbn [HandTracker.finished HandTracker.trackerAfter
                        HandTracker.subscribersAfter HandTracker.emitted
                        HandTracker.smoothedLandmarks].
  repeat split.
  - assert (G : forall t' smoothed,
               HandTracker.smoothedLandmarks t' = Some smoothed ->
               List.length smoothed = List.length short ->
               HandTracker.emittedBy notify frames t' s = []).
    { induction Hframes as [|[x' results] frames (landmarks & E & Hl) _ IH];
        intros t' smoothed Hs' Len; [reflexivity|].
      cbn [snd] in E. subst results.
      cbn [HandTracker.emittedBy fst snd].
      destruct (Step x' landmarks t' smoothed Hs' Len Hl)
        as (_ & Em & Sub & smoothed' & Hs'' & Len').
      rewrite Em, Sub. cbn [app]. apply (IH _ smoothed' Hs'' Len'). }
    apply (G _ short); reflexivity.
  - apply Forall_forall. intros [x' results] Hin t' smoothed Hs' Len.
    rewrite Forall_forall in Hframes.
    destruct (Hframes _ Hin) as (landmarks & E & Hl). cbn [fst snd] in *.
    subst results. apply (Step x' landmarks t' smoothed Hs' Len Hl).
Qed.

Lemma short_hand_blocks_tracker_witness :
  let notify := fun (_ : unit) (_ : HandTracker.Emitted) (s : unit) => (Some tt, s) in
  let short := [mkLandmark 0 0 None] in
  let frames := [(tt, Some fistHand); (tt, Some pointHand)] in
  HandTracker.smoothedLandmarks HandTracker.constructor = None /\
  (List.length short < 21)%nat /\
  HandTracker.emittedBy notify frames
    (HandTracker.trackerAfter
       (HandTracker.onResults notify tt (Some short) HandTracker.constructor tt)) tt
  = [].
Proof.
  intros notify short frames.
  assert (L : (List.length short < 21)%nat) by (cbn; lia).
  assert (F : Forall (fun f => exists landmarks : Landmarks,
                        snd f = Some landmarks /\
                        (List.length short < List.length landmarks)%nat) frames).
  { repeat constructor.
    - exists fistHand. split; [reflexivity | cbn; lia].
    - exists pointHand. split; [reflexivity | cbn; lia]. }
  split; [reflexivity|]. split; [exact L|].
  exact (proj1 (proj2 (proj2 (proj2 (proj2
    (short_hand_blocks_tracker notify tt short HandTracker.constructor tt frames
       eq_refl L F)))))).
Defined.

(** ** Where the camera is, and what the read-out shows *)



Lemma Math_floor_spec (x : R) :
  IZR (Camera.Math_floor x) <= x < IZR (Camera.Math_floor x) + 1.
Proof.
  unfold Camera.Math_floor. rewrite minus_IZR.
  destruct (archimed x) as (A & B). lra.
Qed.

Lemma Math_floor_above (k : Z) (x : R) :
  IZR k <= x -> (k <= Camera.Math_floor x)%Z.
Proof.
  intros H. destruct (Math_floor_spec x) as (_ & B).
  assert (L : IZR k < IZR (Camera.Math_floor x + 1)) by (rewrite plus_IZR; lra).
  apply lt_IZR in L. lia.
Qed.

Lemma Math_floor_below (k : Z) (x : R) :
  x < IZR k + 1 -> (Camera.Math_floor x <= k)%Z.
Proof.
  intros H. destruct (Math_floor_spec x) as (A & _).
  assert (L : IZR (Camera.Math_floor x) < IZR (k + 1)) by (rewrite plus_IZR; lra).
  apply lt_IZR in L. lia.
Qed.

Lemma Math_round_between (a b : Z) (x : R) :
  IZR a <= x <= IZR b -> (a <= Camera.Math_round x <= b)%Z.
Proof.
  intros (A & B). unfold Camera.Math_round. split.
  - apply Math_floor_above. lra.
  - apply Math_floor_below. lra.
Qed.

Lemma remainder_range (x : R) : -360 < Camera.remainder x 360 < 360.
Proof.
  unfold Camera.remainder, Camera.Math_trunc.
  destruct (Rle_dec 0 (x / 360)) as [P | N].
  - destruct (Math_floor_spec (x / 360)) as (A & B). lra.
  - destruct (Math_floor_spec (- (x / 360))) as (A & B).
    rewrite opp_IZR. lra.
Qed.

(** X24.  What [getCameraInfo] reports.  The rotation is always between
    -360 and 360 degrees; the elevation is between -90 and 90 degrees when
    the angle [phi] is between 0 and pi; and the zoom is between 0 and 100
    per cent when the radius is between 20 and 200, 100 per cent being the
    radius 20. *)
Theorem camera_info_ranges (v : Camera.View) :
  let o := Camera.cameraOrbit v in
  let info := Camera.getCameraInfo v in
  (-360 <= Camera.info_rotation info <= 360)%Z /\
  (0 <= Camera.phi o <= PI -> (-90 <= Camera.info_elevation info <= 90)%Z) /\
  (20 <= Camera.radius o <= 200 -> (0 <= Camera.info_zoom info <= 100)%Z) /\
  (Camera.radius o = 20 -> Camera.info_zoom info = 100%Z) /\
  (Camera.radius o = 200 -> Camera.info_zoom info = 0%Z).
Proof.
  cbv zeta. unfold Camera.getCameraInfo.
  cbn [Camera.info_rotation Camera.info_elevation Camera.info_zoom].
  set (o := Camera.cameraOrbit v).
  assert (Z1 : forall r, 20 <= r <= 200 ->
                 (0 <= Camera.Math_round ((1 - (r - 20) / 180) * 100) <= 100)%Z).
  { intros r Hr. apply Math_round_between. lra. }
  split; [|split; [|split; [|split]]].
  - apply Math_round_between.
    pose proof (remainder_range (Camera.theta o * 180 / PI)). lra.
  - intros (P0 & P1). apply Math_round_between.
    pose proof PI_RGT_0 as Pp.
    assert (Q : 0 <= Camera.phi o * 180 / PI <= 180).
    { split.
      - apply Rmult_le_pos; [lra|]. apply Rlt_le, Rinv_0_lt_compat, Pp.
      - apply Rmult_le_reg_r with (r := PI); [exact Pp|].
        unfold Rdiv. rewrite Rmult_assoc, Rinv_l by lra. lra. }
    lra.
  - apply Z1.
  - intros E. rewrite E.
    assert (H : (100 <= Camera.Math_round ((1 - (20 - 20) / 180) * 100) <= 100)%Z)
      by (apply Math_round_between; lra).
    lia.
  - intros E. rewrite E.
    assert (H : (0 <= Camera.Math_round ((1 - (200 - 20) / 180) * 100) <= 0)%Z)
      by (apply Math_round_between; lra).
    lia.
Qed.

Lemma updates_radius (n : nat) (v : Camera.View) :
  Camera.radius (Camera.cameraOrbit (Camera.updates n v))
  = Camera.targetRadius (Camera.cameraOrbit v)
    + 0.95 ^ n * (Camera.radius (Camera.cameraOrbit v)
                  - Camera.targetRadius (Camera.cameraOrbit v)).
Proof.
  revert v. induction n as [|n IH]; intros v.
  - cbn. lra.
  - cbn [Camera.updates]. rewrite IH.
    destruct (update_orbit v) as (B1 & _ & _ & B4 & _). cbv zeta in B1, B4.
    rewrite B4 in *. cbn [pow].
    replace (Camera.radius (Camera.cameraOrbit (Camera.update v))
             - Camera.targetRadius (Camera.cameraOrbit v))
      with (0.95 * (Camera.radius (Camera.cameraOrbit v)
                    - Camera.targetRadius (Camera.cameraOrbit v))) by lra.
    ring.
Qed.

(** X25.  The zoom read-out passes 100 per cent while a small planet is
    followed.  [followPlanet] on Mercury, Venus, Earth, Mars, Uranus or
    Neptune sets a target radius under 20; with no other command the camera
    glides to it, and from some tick of the render loop on, every tick,
    [getCameraInfo] reports a zoom above 100. *)
Theorem zoom_readout_passes_100 (name : string) (v : Camera.View) :
  In name ["mercury"; "venus"; "earth"; "mars"; "uranus"; "neptune"]%string ->
  exists (v' : Camera.View) (N : nat),
    Camera.followPlanet (Some name) v = Some v' /\
    forall n, (N <= n)%nat ->
      (100 < Camera.info_zoom (Camera.getCameraInfo (Camera.updates n v')))%Z.
Proof.
  intros H.
  assert (F : exists v',
             Camera.followPlanet (Some name) v = Some v' /\
             Camera.targetRadius (Camera.cameraOrbit v') <= 14.4 /\
             Camera.radius (Camera.cameraOrbit v') = Camera.radius (Camera.cameraOrbit v)).
  { cbn in H.
    destruct H as [<- | [<- | [<- | [<- | [<- | [<- | []]]]]]];
      unfold Camera.followPlanet; cbn; eexists;
      (split; [reflexivity|]); cbn; split; [lra | reflexivity | lra | reflexivity
        | lra | reflexivity | lra | reflexivity | lra | reflexivity | lra | reflexivity]. }
  destruct F as (v' & E & T & R0).
  set (d := Camera.radius (Camera.cameraOrbit v')
            - Camera.targetRadius (Camera.cameraOrbit v')) in *.
  pose proof (Rabs_pos d) as Dpos.
  assert (Y : 0 < 4.7 / (Rabs d + 1)).
  { apply Rdiv_lt_0_compat; lra. }
  destruct (pow_lt_1_zero 0.95) with (y := 4.7 / (Rabs d + 1)) as (N & HN);
    [rewrite Rabs_right; lra | exact Y |].
  exists v', N. split; [exact E|].
  intros n Hn. specialize (HN n Hn).
  unfold Camera.getCameraInfo. cbn [Camera.info_zoom].
  rewrite updates_radius. fold d.
  assert (G : 0.95 ^ n * d < 4.7).
  { assert (P : 0 <= 0.95 ^ n) by (apply pow_le; lra).
    rewrite Rabs_right in HN by lra.
    assert (Q : 0.95 ^ n * (Rabs d + 1) < 4.7).
    { apply Rmult_lt_reg_r with (r := / (Rabs d + 1));
        [apply Rinv_0_lt_compat; lra|].
      rewrite Rmult_assoc, Rinv_r by lra. unfold Rdiv in HN. lra. }
    pose proof (Rle_abs d) as Ad.
    assert (M : 0.95 ^ n * d <= 0.95 ^ n * Rabs d)
      by (apply Rmult_le_compat_l; assumption).
    lra. }
  assert (L : (101 <= Camera.Math_round
                 ((1 - (Camera.targetRadius (Camera.cameraOrbit v') + 0.95 ^ n * d - 20)
                       / 180) * 100))%Z).
  { unfold Camera.Math_round. apply Math_floor_above. lra. }
  lia.
Qed.

Lemma zoom_readout_passes_100_witness :
  In "mercury"%string
    ["mercury"; "venus"; "earth"; "mars"; "uranus"; "neptune"]%string /\
  exists (v' : Camera.View) (N : nat),
    Camera.followPlanet (Some "mercury"%string) (Camera.initial (fun _ => 0)) = Some v' /\
    (100 < Camera.info_zoom (Camera.getCameraInfo (Camera.updates N v')))%Z.
Proof.
  assert (I : In "mercury"%string
                ["mercury"; "venus"; "earth"; "mars"; "uranus"; "neptune"]%string)
    by (cbn; auto).
  split; [exact I|].
  destruct (zoom_readout_passes_100 "mercury"%string (Camera.initial (fun _ => 0)) I)
    as (v' & N & E & Z).
  exists v', N. split; [exact E|]. apply Z. apply Nat.le_refl.
Defined.

(** ** The keyboard and the mouse *)

(** X26.  The keyboard names the planets of the scene.  Whatever the key,
    the only calls [handleKeyboard] makes on the controller are
    [manualReset] and [manualSelectPlanet] with a key of [PLANET_DATA]; and
    every key of [PLANET_DATA] is selected by one of the keys. *)
Theorem keyboard_selects_scene_planets :
  (forall (key : string) (ctrlKey : bool) (op : Op),
     In (UIController.controller op) (UIController.handleKeyboard key ctrlKey) ->
     op = manualResetOp \/
     exists name, op = manualSelectPlanetOp (Some name) /\
                  Camera.registered (Some name) = true) /\
  (forall name : string,
     Camera.registered (Some name) = true ->
     exists key,
       In (UIController.controller (manualSelectPlanetOp (Some name)))
         (UIController.handleKeyboard key false)).
Proof.
  split.
  - intros key ctrlKey op H. unfold UIController.handleKeyboard in H.
    destruct (key =? "Escape")%string;
      [cbn in H; destruct H as [H | []]; discriminate H|].
    destruct ((key =? "h") || (key =? "H"))%string;
      [cbn in H; destruct H as [H | []]; discriminate H|].
    destruct ((key =? "s") || (key =? "S"))%string.
    { destruct ctrlKey; cbn in H; [contradiction|].
      destruct H as [H | []]; discriminate H. }
    destruct ((key =? "r") || (key =? "R"))%string.
    { cbn in H. destruct H as [[= <-] | [H | [H | []]]]; try discriminate H. auto. }
    destruct ((key =? "m") || (key =? "M"))%string;
      [cbn in H; destruct H as [H | []]; discriminate H|].
    destruct (key =? " ")%string.
    { cbn in H. destruct H as [H | [[= <-] | [H | [H | []]]]]; try discriminate H.
      auto. }
    unfold UIController.digit in H.
    repeat match type of H with
      | context [if (key =? ?s)%string then _ else _] =>
          destruct (key =? s)%string;
          [cbn in H; destruct H as [[= <-] | [H | []]]; [|discriminate H];
           right; eexists; split; reflexivity|]
      end.
    contradiction.
  - intros name H. unfold Camera.registered in H. cbn [Camera.dataOf Camera.PLANET_DATA] in H.
    repeat match type of H with
      | context [if (name =? ?s)%string then _ else _] =>
          destruct (String.eqb_spec name s); [subst name|]
      end; try discriminate H.
    + exists "1"%string. cbn. auto.
    + exists "2"%string. cbn. auto.
    + exists "3"%string. cbn. auto.
    + exists "4"%string. cbn. auto.
    + exists "5"%string. cbn. auto.
    + exists "6"%string. cbn. auto.
    + exists "7"%string. cbn. auto.
    + exists "8"%string. cbn. auto.
    + exists "9"%string. cbn. auto.
Qed.

Lemma cameraPerformAll_app (xs ys : list Call) (v : Camera.View) :
  cameraPerformAll (xs ++ ys) v
  = match cameraPerformAll xs v with
    | Some v' => cameraPerformAll ys v'
    | None => None
    end.
Proof.
  revert v. induction xs as [|c xs IH]; intros v; [reflexivity|].
  cbn [app cameraPerformAll]. destruct (cameraPerform c v); [apply IH | reflexivity].
Qed.



(** ** The bounds of the camera *)

Lemma sceneStep_elevation (i : SceneInput) (v v' : Camera.View) :
  sceneStep i v = Some v' -> elevationInRange v -> elevationInRange v'.
Proof.
  unfold elevationInRange. intros H (P & T). pose proof PI_above_3 as Pi.
  destruct i as [|c]; cbn [sceneStep] in H.
  - injection H as <-. unfold Camera.update, Camera.smoothing. cbn. lra.
  - destruct c; cbn [cameraPerform] in H.
    + injection H as <-.
      destruct (rotation_elevation_in_range deltaTheta deltaPhi v) as (B & _).
      cbv zeta in B. split; [exact P | exact B].
    + injection H as <-. cbn. auto.
    + destruct (Camera.highlightRaises p); [discriminate H|].
      injection H as <-. auto.
    + destruct (Camera.highlightRaises p); [discriminate H|].
      injection H as <-. auto.
    + unfold Camera.focusOnPlanet in H.
      destruct (Camera.lookup p); [|discriminate H|]; injection H as <-; cbn; auto.
    + unfold Camera.followPlanet in H.
      destruct (Camera.lookup p); [|discriminate H|]; injection H as <-; cbn; auto.
    + injection H as <-. cbn. auto.
    + injection H as <-. cbn. split; [exact P | lra].
    + injection H as <-. auto.
Qed.

Lemma sceneStep_radius (i : SceneInput) (v v' : Camera.View) :
  sceneStep i v = Some v' -> radiusFromPlanet i = false ->
  radiusInRange v -> radiusInRange v'.
Proof.
  unfold radiusInRange. intros H Hi (P & T).
  destruct i as [|c]; cbn [sceneStep] in H.
  - injection H as <-. unfold Camera.update, Camera.smoothing. cbn. lra.
  - destruct c; cbn [cameraPerform] in H; try discriminate Hi.
    + injection H as <-. cbn. auto.
    + injection H as <-.
      destruct (zoom_stays_in_range delta v) as (B & _).
      cbv zeta in B. split; [exact P | exact B].
    + destruct (Camera.highlightRaises p); [discriminate H|].
      injection H as <-. auto.
    + destruct (Camera.highlightRaises p); [discriminate H|].
      injection H as <-. auto.
    + injection H as <-. cbn. split; [exact P | lra].
    + injection H as <-. cbn. split; [exact P | lra].
    + injection H as <-. auto.
Qed.

(** X13.  The bounds of the camera.  Start from the view the constructor
    sets up and let ticks of the render loop and calls of the controller
    reach the scene in any order, none raising.  Then the elevation angle
    and its target are between 0.1 and pi - 0.1, and the elevation read-out
    stays within 86 degrees of the horizon; and as long as no call was
    [followPlanet] or [focusOnPlanet], the radius and its target are between
    20 and 200, and the zoom read-out is between 0 and 100 per cent. *)
Theorem camera_stays_in_bounds (angles : string -> R) (inputs : list SceneInput)
    (v : Camera.View) :
  sceneRun inputs (Camera.initial angles) = Some v ->
  (elevationInRange v /\
   (-86 <= Camera.info_elevation (Camera.getCameraInfo v) <= 86)%Z) /\
  (forallb (fun i => negb (radiusFromPlanet i)) inputs = true ->
   radiusInRange v /\
   (0 <= Camera.info_zoom (Camera.getCameraInfo v) <= 100)%Z).
Proof.
  intros H. pose proof PI_above_3 as Pi. pose proof PI_4 as Pi4.
  assert (E0 : elevationInRange (Camera.initial angles)).
  { unfold elevationInRange. cbn. lra. }
  assert (R0 : radiusInRange (Camera.initial angles)).
  { unfold radiusInRange. cbn. lra. }
  assert (E : forall v0, sceneRun inputs v0 = Some v ->
                elevationInRange v0 -> elevationInRange v).
  { clear H E0 R0. induction inputs as [|i inputs IH]; intros v0 H E0.
    - injection H as <-. exact E0.
    - cbn [sceneRun] in H.
      destruct (sceneStep i v0) as [v1|] eqn:S; [|discriminate H].
      apply (IH v1 H), (sceneStep_elevation i v0 v1 S E0). }
  assert (Rd : forall v0, sceneRun inputs v0 = Some v ->
                 forallb (fun i => negb (radiusFromPlanet i)) inputs = true ->
                 radiusInRange v0 -> radiusInRange v).
  { clear H E0 R0 E. induction inputs as [|i inputs IH]; intros v0 H F R0.
    - injection H as <-. exact R0.
    - cbn [sceneRun] in H. cbn [forallb] in F.
      apply andb_true_iff in F. destruct F as (Fi & F).
      apply negb_true_iff in Fi.
      destruct (sceneStep i v0) as [v1|] eqn:S; [|discriminate H].
      apply (IH v1 H F), (sceneStep_radius i v0 v1 S Fi R0). }
  split.
  - pose proof (E _ H E0) as Ev. split; [exact Ev|].
    destruct Ev as ((A & B) & _).
    unfold Camera.getCameraInfo. cbn [Camera.info_elevation].
    apply Math_round_between.
    set (p := Camera.phi (Camera.cameraOrbit v)) in *.
    assert (Q : 0.1 * 180 / PI <= p * 180 / PI <= (PI - 0.1) * 180 / PI).
    { unfold Rdiv. split; apply Rmult_le_compat_r;
        try (apply Rlt_le, Rinv_0_lt_compat; lra); lra. }
    assert (Q1 : 4 <= 0.1 * 180 / PI).
    { apply Rmult_le_reg_r with (r := PI); [lra|].
      unfold Rdiv. rewrite Rmult_assoc, Rinv_l by lra. lra. }
    assert (Q2 : (PI - 0.1) * 180 / PI = 180 - 0.1 * 180 / PI).
    { field. lra. }
    lra.
  - intros F. pose proof (Rd _ H F R0) as Rv. split; [exact Rv|].
    destruct Rv as (A & _).
    unfold Camera.getCameraInfo. cbn [Camera.info_zoom].
    apply Math_round_between. lra.
Qed.

Lemma camera_stays_in_bounds_witness :
  let inputs := [ sceneCall (adjustZoom (-500)); renderTick;
                  sceneCall (adjustRotation 1 7); renderTick ] in
  exists v,
    sceneRun inputs (Camera.initial (fun _ => 0)) = Some v /\
    (-86 <= Camera.info_elevation (Camera.getCameraInfo v) <= 86)%Z /\
    (0 <= Camera.info_zoom (Camera.getCameraInfo v) <= 100)%Z.
Proof.
  intros inputs. eexists.
  assert (E : sceneRun inputs (Camera.initial (fun _ => 0)) = Some _) by reflexivity.
  split; [exact E|].
  destruct (camera_stays_in_bounds (fun _ => 0) inputs _ E) as ((_ & A) & B).
  split; [exact A|]. apply B. reflexivity.
Defined.
